(** * Preview-token tunnel and Plaid proxy routes: a shallow embedding

    The development follows [worker/api/routes/plaidProxyRoutes.ts]
    (token codec, [plaidRequest], the five proxy routes) and the
    configuration phase sketched in [docs/agency-architecture-plan.md].

    JavaScript values are modelled as the code sees them:
    - a string is its sequence of UTF-16 code units ([jsstring]);
    - a Number that holds an integer is an exact [Z], together with [NaN]
      and the two infinities ([Number]);
    - an operation that may throw returns a [completion];
    - calls that leave the worker (fetch, the agent stub) are answered by a
      [World] and recorded in a trace. *)

From Stdlib Require Import ZArith List Bool Lia String Ascii.
From Stdlib Require Import DecimalPos.
Import ListNotations.
Local Open Scope Z_scope.
Set Warnings "-register-all".

(* ================================================================== *)
(** ** JavaScript strings, numbers and completions *)

Module Js.

(** A string is a list of UTF-16 code units, each in [0, 65535]. *)
Definition jsstring := list Z.

(** Source literals are ASCII; [js "abc"] is the corresponding string. *)
Definition js (s : string) : jsstring :=
  map (fun a => Z.of_nat (nat_of_ascii a)) (list_ascii_of_string s).

Definition latin1 (s : jsstring) : Prop := Forall (fun c => 0 <= c <= 255) s.

Fixpoint str_eqb (a b : jsstring) : bool :=
  match a, b with
  | [], [] => true
  | x :: a', y :: b' => (x =? y) && str_eqb a' b'
  | _, _ => false
  end.

(** Thrown values: an [Error] (or subclass, DOMException included) with its
    message, or some value that is not an [Error]. *)
Inductive exn : Type :=
| JsError (name message : jsstring)
| NonError.

Inductive completion (A : Type) : Type :=
| Normal (a : A)
| Throw (e : exn).
Arguments Normal {A} a.
Arguments Throw {A} e.

Definition InvalidCharacterError : exn :=
  JsError (js "InvalidCharacterError") (js "Invalid character").

(** [new Error(msg)] *)
Definition Error (msg : jsstring) : exn := JsError (js "Error") msg.

(** Truthiness of a [string | undefined] value: [!s] holds for [undefined]
    and for the empty string. *)
Definition truthy (s : option jsstring) : bool :=
  match s with
  | Some (_ :: _) => true
  | _ => false
  end.

(** Every code unit is a 16-bit value. *)
Definition well_formed (s : jsstring) : Prop := Forall (fun c => 0 <= c < 65536) s.

(** The values [Date.now()] can return: a time value is an integral Number
    of magnitude at most 8.64e15. *)
Definition time_value (t : Z) : Prop :=
  - 8640000000000000 <= t <= 8640000000000000.

(** *** Numbers.  Only integer-valued doubles occur in the token code. *)
Inductive Number : Type :=
| NaN
| Inf (negative : bool)
| Fin (z : Z).

(** Round-to-nearest, ties-to-even conversion of a mathematical integer to
    a double (the operation written F(x) in ECMA-262). *)
Definition round_to_double (m : Z) : Number :=
  let a := Z.abs m in
  if a <? 2 ^ 53 then Fin m
  else
    let e := Z.log2 a - 52 in
    let q := a / 2 ^ e in
    let r := a mod 2 ^ e in
    let half := 2 ^ (e - 1) in
    let q' := if r <? half then q
              else if half <? r then q + 1
              else if Z.even q then q else q + 1 in
    let v := q' * 2 ^ e in
    if 2 ^ 1024 <=? v then Inf (m <? 0) else Fin (Z.sgn m * v).

Definition isNaN (x : Number) : bool :=
  match x with NaN => true | _ => false end.

(** [x - y] for an integer-valued finite [x]. *)
Definition num_sub (x : Z) (y : Number) : Number :=
  match y with
  | NaN => NaN
  | Inf neg => Inf (negb neg)
  | Fin t => round_to_double (x - t)
  end.

(** [x > m] for a finite integer [m]. *)
Definition num_gt (x : Number) (m : Z) : bool :=
  match x with
  | NaN => false
  | Inf neg => negb neg
  | Fin z => m <? z
  end.

(** *** Number.prototype.toString for an integer below 1e21 in magnitude:
    plain decimal digits, with a leading minus sign when negative. *)
Fixpoint uint_units (d : Decimal.uint) : jsstring :=
  match d with
  | Decimal.Nil => []
  | Decimal.D0 r => 48 :: uint_units r
  | Decimal.D1 r => 49 :: uint_units r
  | Decimal.D2 r => 50 :: uint_units r
  | Decimal.D3 r => 51 :: uint_units r
  | Decimal.D4 r => 52 :: uint_units r
  | Decimal.D5 r => 53 :: uint_units r
  | Decimal.D6 r => 54 :: uint_units r
  | Decimal.D7 r => 55 :: uint_units r
  | Decimal.D8 r => 56 :: uint_units r
  | Decimal.D9 r => 57 :: uint_units r
  end.

Definition toString (z : Z) : jsstring :=
  match Z.to_int z with
  | Decimal.Pos d => uint_units d
  | Decimal.Neg d => 45 :: uint_units d
  end.

(** *** parseInt(s, 10)

    Leading white space is skipped, then an optional sign, then the longest
    run of decimal digits is read; the result is the double nearest to the
    integer read (ECMA-262 lets an implementation replace digits after the
    20th by zeros; the exact value is used here), or NaN without digits. *)

(** WhiteSpace and LineTerminator code units (StrWhiteSpaceChar). *)
Definition is_str_whitespace (c : Z) : bool :=
  ((9 <=? c) && (c <=? 13)) || (c =? 32) || (c =? 160) || (c =? 5760)
  || ((8192 <=? c) && (c <=? 8202)) || (c =? 8232) || (c =? 8233)
  || (c =? 8239) || (c =? 8287) || (c =? 12288) || (c =? 65279).

Fixpoint trim_start (s : jsstring) : jsstring :=
  match s with
  | c :: r => if is_str_whitespace c then trim_start r else s
  | [] => []
  end.

Definition is_digit (c : Z) : bool := (48 <=? c) && (c <=? 57).

(** The longest prefix of decimal digits. *)
Fixpoint digit_prefix (s : jsstring) : jsstring :=
  match s with
  | c :: r => if is_digit c then c :: digit_prefix r else []
  | [] => []
  end.

Fixpoint digits_value (acc : Z) (ds : jsstring) : Z :=
  match ds with
  | [] => acc
  | c :: r => digits_value (10 * acc + (c - 48)) r
  end.

Definition parseInt10 (input : jsstring) : Number :=
  let s := trim_start input in
  let sign := match s with
              | c :: _ => if c =? 45 then -1 else 1
              | [] => 1
              end in
  let s := match s with
           | c :: r => if (c =? 43) || (c =? 45) then r else s
           | [] => []
           end in
  match digit_prefix s with
  | [] => NaN
  | ds => round_to_double (sign * digits_value 0 ds)
  end.

(** *** String.prototype.split with a one-unit separator *)
Fixpoint split (sep : Z) (s : jsstring) : list jsstring :=
  match s with
  | [] => [[]]
  | c :: r =>
      if c =? sep then [] :: split sep r
      else match split sep r with
           | h :: t => (c :: h) :: t
           | [] => [[c]]
           end
  end.

(** *** TextEncoder.encode: UTF-8 of the code points of a UTF-16 string,
    an unpaired surrogate being replaced by U+FFFD. *)
Definition utf8_code_point (cp : Z) : list Z :=
  if cp <? 128 then [cp]
  else if cp <? 2048 then
    [Z.lor 192 (Z.shiftr cp 6); Z.lor 128 (Z.land cp 63)]
  else if cp <? 65536 then
    [Z.lor 224 (Z.shiftr cp 12);
     Z.lor 128 (Z.land (Z.shiftr cp 6) 63);
     Z.lor 128 (Z.land cp 63)]
  else
    [Z.lor 240 (Z.shiftr cp 18);
     Z.lor 128 (Z.land (Z.shiftr cp 12) 63);
     Z.lor 128 (Z.land (Z.shiftr cp 6) 63);
     Z.lor 128 (Z.land cp 63)].

Definition is_high_surrogate (c : Z) : bool := (55296 <=? c) && (c <=? 56319).
Definition is_low_surrogate (c : Z) : bool := (56320 <=? c) && (c <=? 57343).

Fixpoint encode (s : jsstring) : list Z :=
  match s with
  | [] => []
  | c :: r =>
      if is_high_surrogate c then
        match r with
        | d :: r' =>
            if is_low_surrogate d
            then utf8_code_point
                   (65536 + Z.shiftl (c - 55296) 10 + (d - 56320))
                 ++ encode r'
            else utf8_code_point 65533 ++ encode r
        | [] => utf8_code_point 65533
        end
      else if is_low_surrogate c then utf8_code_point 65533 ++ encode r
      else utf8_code_point c ++ encode r
  end.

(** *** btoa and atob (WHATWG forgiving-base64) *)

Definition b64_char (i : Z) : Z :=
  if i <? 26 then 65 + i
  else if i <? 52 then 71 + i
  else if i <? 62 then i - 4
  else if i =? 62 then 43
  else 47.

Definition b64_index (c : Z) : option Z :=
  if (65 <=? c) && (c <=? 90) then Some (c - 65)
  else if (97 <=? c) && (c <=? 122) then Some (c - 71)
  else if (48 <=? c) && (c <=? 57) then Some (c + 4)
  else if c =? 43 then Some 62
  else if c =? 47 then Some 63
  else None.

Definition sextet (i : Z) : Prop := 0 <= i < 64.

(** The 6-bit groups of a byte sequence, the last group zero-filled. *)
Fixpoint sextets (bytes : list Z) : list Z :=
  match bytes with
  | [] => []
  | [a] => [a / 4; (a mod 4) * 16]
  | [a; b] => [a / 4; (a mod 4) * 16 + b / 16; (b mod 16) * 4]
  | a :: b :: c :: r =>
      a / 4 :: (a mod 4) * 16 + b / 16 :: (b mod 16) * 4 + c / 64
        :: c mod 64 :: sextets r
  end.

Definition padding (bytes : list Z) : jsstring :=
  let m := Z.of_nat (List.length bytes) mod 3 in
  if m =? 1 then [61; 61] else if m =? 2 then [61] else [].

Definition btoa (s : jsstring) : completion jsstring :=
  if existsb (fun c => 255 <? c) s then Throw InvalidCharacterError
  else Normal (map b64_char (sextets s) ++ padding s).

Definition is_ascii_whitespace (c : Z) : bool :=
  (c =? 9) || (c =? 10) || (c =? 12) || (c =? 13) || (c =? 32).

(** Removes one or two trailing [=]. *)
Definition strip_padding (d : jsstring) : jsstring :=
  match rev d with
  | c1 :: r1 =>
      if c1 =? 61 then
        match r1 with
        | c2 :: r2 => if c2 =? 61 then rev r2 else rev r1
        | [] => rev r1
        end
      else d
  | [] => d
  end.

(** Bytes of a sequence of 6-bit groups; leftover bits are dropped. *)
Fixpoint unsextets (g : list Z) : list Z :=
  match g with
  | a :: b :: c :: d :: r =>
      a * 4 + b / 16 :: (b mod 16) * 16 + c / 4 :: (c mod 4) * 64 + d
        :: unsextets r
  | [a; b; c] => [a * 4 + b / 16; (b mod 16) * 16 + c / 4]
  | [a; b] => [a * 4 + b / 16]
  | _ => []
  end.

Definition index_or_zero (c : Z) : Z :=
  match b64_index c with Some i => i | None => 0 end.

Definition atob (data : jsstring) : completion jsstring :=
  let d := filter (fun c => negb (is_ascii_whitespace c)) data in
  let d := if Z.of_nat (List.length d) mod 4 =? 0 then strip_padding d else d in
  if Z.of_nat (List.length d) mod 4 =? 1 then Throw InvalidCharacterError
  else if existsb (fun c => match b64_index c with None => true | _ => false end) d
  then Throw InvalidCharacterError
  else Normal (unsextets (map index_or_zero d)).

End Js.

(* ================================================================== *)
(** ** HMAC-SHA-256 (FIPS 180-4, RFC 2104), what
    [crypto.subtle.sign('HMAC', key, data)] computes for a key imported
    with [{ name: 'HMAC', hash: 'SHA-256' }].  Words are 32-bit values in
    [Z] with the wrap-around written out; bytes are values in [0, 255]. *)

Module SHA256.

Definition wrap32 (x : Z) : Z := x mod 2 ^ 32.
Definition add32 (x y : Z) : Z := wrap32 (x + y).
Definition rotr (n x : Z) : Z :=
  Z.lor (Z.shiftr x n) (wrap32 (Z.shiftl x (32 - n))).
Definition not32 (x : Z) : Z := Z.lxor x (2 ^ 32 - 1).

Definition Ch (x y z : Z) : Z := Z.lxor (Z.land x y) (Z.land (not32 x) z).
Definition Maj (x y z : Z) : Z :=
  Z.lxor (Z.lxor (Z.land x y) (Z.land x z)) (Z.land y z).
Definition Sum0 (x : Z) : Z := Z.lxor (Z.lxor (rotr 2 x) (rotr 13 x)) (rotr 22 x).
Definition Sum1 (x : Z) : Z := Z.lxor (Z.lxor (rotr 6 x) (rotr 11 x)) (rotr 25 x).
Definition sig0 (x : Z) : Z := Z.lxor (Z.lxor (rotr 7 x) (rotr 18 x)) (Z.shiftr x 3).
Definition sig1 (x : Z) : Z := Z.lxor (Z.lxor (rotr 17 x) (rotr 19 x)) (Z.shiftr x 10).

(** Round constants: fractional parts of the cube roots of the first 64
    primes. *)
Definition K : list Z :=
  [1116352408; 1899447441; 3049323471; 3921009573; 961987163; 1508970993;
   2453635748; 2870763221; 3624381080; 310598401; 607225278; 1426881987;
   1925078388; 2162078206; 2614888103; 3248222580; 3835390401; 4022224774;
   264347078; 604807628; 770255983; 1249150122; 1555081692; 1996064986;
   2554220882; 2821834349; 2952996808; 3210313671; 3336571891; 3584528711;
   113926993; 338241895; 666307205; 773529912; 1294757372; 1396182291;
   1695183700; 1986661051; 2177026350; 2456956037; 2730485921; 2820302411;
   3259730800; 3345764771; 3516065817; 3600352804; 4094571909; 275423344;
   430227734; 506948616; 659060556; 883997877; 958139571; 1322822218;
   1537002063; 1747873779; 1955562222; 2024104815; 2227730452; 2361852424;
   2428436474; 2756734187; 3204031479; 3329325298].

Definition hash : Type := (Z * Z * Z * Z * Z * Z * Z * Z)%type.

(** Initial hash value: fractional parts of the square roots of the first
    8 primes. *)
Definition H0 : hash :=
  (1779033703, 3144134277, 1013904242, 2773480762,
   1359893119, 2600822924, 528734635, 1541459225).

(** The [n] low bytes of [x], most significant first. *)
Fixpoint be_bytes (n : nat) (x : Z) : list Z :=
  match n with
  | O => []
  | S k => Z.shiftr x (8 * Z.of_nat k) mod 256 :: be_bytes k x
  end.

Fixpoint be_words (bytes : list Z) : list Z :=
  match bytes with
  | a :: b :: c :: d :: r =>
      Z.lor (Z.lor (Z.shiftl a 24) (Z.shiftl b 16)) (Z.lor (Z.shiftl c 8) d)
        :: be_words r
  | _ => []
  end.

(** Padding to a multiple of 64 bytes: a 1 bit, zeros, the bit length. *)
Definition pad (msg : list Z) : list Z :=
  let l := Z.of_nat (List.length msg) in
  msg ++ [128] ++ repeat 0 (Z.to_nat ((55 - l) mod 64)) ++ be_bytes 8 (8 * l).

(** Message schedule, latest word first: W[t] is computed from W[t-2],
    W[t-7], W[t-15] and W[t-16]. *)
Fixpoint schedule (n : nat) (rw : list Z) : list Z :=
  match n with
  | O => rw
  | S k =>
      let w := add32 (add32 (sig1 (nth 1 rw 0)) (nth 6 rw 0))
                     (add32 (sig0 (nth 14 rw 0)) (nth 15 rw 0)) in
      schedule k (w :: rw)
  end.

Definition round (s : hash) (kw : Z * Z) : hash :=
  let '(a, b, c, d, e, f, g, h) := s in
  let '(k, w) := kw in
  let t1 := add32 (add32 (add32 h (Sum1 e)) (add32 (Ch e f g) k)) w in
  let t2 := add32 (Sum0 a) (Maj a b c) in
  (add32 t1 t2, a, b, c, add32 d t1, e, f, g).

Definition compress (H : hash) (block : list Z) : hash :=
  let W := rev (schedule 48 (rev (be_words block))) in
  let '(a, b, c, d, e, f, g, h) := fold_left round (combine K W) H in
  let '(a0, b0, c0, d0, e0, f0, g0, h0) := H in
  (add32 a0 a, add32 b0 b, add32 c0 c, add32 d0 d,
   add32 e0 e, add32 f0 f, add32 g0 g, add32 h0 h).

Fixpoint blocks (n : nat) (bytes : list Z) : list (list Z) :=
  match n with
  | O => []
  | S k => firstn 64 bytes :: blocks k (skipn 64 bytes)
  end.

Definition sha256 (msg : list Z) : list Z :=
  let p := pad msg in
  let '(a, b, c, d, e, f, g, h) :=
    fold_left compress (blocks (Nat.div (List.length p) 64) p) H0 in
  flat_map (be_bytes 4) [a; b; c; d; e; f; g; h].

Definition hmac_sha256 (key msg : list Z) : list Z :=
  let k := if (64 <? List.length key)%nat then sha256 key else key in
  let k := k ++ repeat 0 (64 - List.length k) in
  sha256 (map (Z.lxor 92) k ++ sha256 (map (Z.lxor 54) k ++ msg)).

End SHA256.

(* ================================================================== *)
(** ** The preview-token codec *)

Module Token.
Import Js.

Declare Scope completion_scope.
Delimit Scope completion_scope with C.

Definition bind {A B} (m : completion A) (k : A -> completion B) : completion B :=
  match m with
  | Normal a => k a
  | Throw e => Throw e
  end.

Notation "x <- m ;; k" := (bind m (fun x => k))
  (at level 61, m at next level, right associativity) : completion_scope.

(** [try { body } catch (error) { handler }] *)
Definition try_catch {A} (body : completion A) (handler : exn -> completion A)
  : completion A :=
  match body with
  | Normal a => Normal a
  | Throw e => handler e
  end.

(** The part of the worker environment the routes read.  Each binding is a
    string or is absent. *)
Record Env : Type := {
  JWT_SECRET : option jsstring;
  PLAID_ENV : option jsstring;
  PLAID_CLIENT_ID : option jsstring;
  PLAID_SECRET : option jsstring
}.

Definition maxAge : Z := 24 * 60 * 60 * 1000.

(** [btoa(String.fromCharCode(...new Uint8Array(sign('HMAC', key, data))))]
    with [key] imported from [encode(secret)] and
    [data = encode(`${agentId}.${timestamp}`)]. *)
Definition signatureBase64 (secret agentId timestamp : jsstring)
  : completion jsstring :=
  let key := encode secret in
  let data := encode (agentId ++ 46 :: timestamp) in
  btoa (SHA256.hmac_sha256 key data).

Local Open Scope completion_scope.

(** The body of the [try] block of [validatePreviewToken]; [now] is the
    value of [Date.now()]. *)
Definition validate_try (env : Env) (token : jsstring) (now : Z)
  : completion (option jsstring) :=
  match split 46 token with
  | [encodedAgentId; timestamp; signature] =>
      agentId <- atob encodedAgentId ;;
      let tokenTime := parseInt10 timestamp in
      if isNaN tokenTime || num_gt (num_sub now tokenTime) maxAge
      then Normal None
      else
        match JWT_SECRET env with
        | Some ((_ :: _) as secret) =>
            expectedSignatureBase64 <- signatureBase64 secret agentId timestamp ;;
            if negb (str_eqb signature expectedSignatureBase64)
            then Normal None
            else Normal (Some agentId)
        | _ => Normal None
        end
  | _ => Normal None
  end.

(** [validatePreviewToken(env, token)]: the agent id, or [null]. *)
Definition validatePreviewToken (env : Env) (token : jsstring) (now : Z)
  : completion (option jsstring) :=
  match token with
  | [] => Normal None
  | _ => try_catch (validate_try env token now) (fun _ => Normal None)
  end.

(** [generatePreviewToken(env, agentId)], [now] being [Date.now()]. *)
Definition generatePreviewToken (env : Env) (agentId : jsstring) (now : Z)
  : completion jsstring :=
  let timestamp := toString now in
  encodedAgentId <- btoa agentId ;;
  match JWT_SECRET env with
  | Some ((_ :: _) as secret) =>
      signatureBase64 <- signatureBase64 secret agentId timestamp ;;
      Normal (encodedAgentId ++ 46 :: timestamp ++ 46 :: signatureBase64)
  | _ => Throw (Error (js "JWT_SECRET not configured"))
  end.

(** The timestamp a token carries, as the verifier reads it. *)
Definition embedded_timestamp (token : jsstring) : Number :=
  match split 46 token with
  | [_; timestamp; _] => parseInt10 timestamp
  | _ => NaN
  end.

(** Issuing for [agentId] at [now] yields a token, and verifying that token
    at the same [now] yields [agentId]. *)
Definition round_trip (env : Env) (agentId : jsstring) (now : Z) : Prop :=
  exists token,
    generatePreviewToken env agentId now = Normal token
    /\ validatePreviewToken env token now = Normal (Some agentId).

(** The signing secret is present and not empty. *)
Definition configured (env : Env) : Prop := truthy (JWT_SECRET env) = true.

End Token.

(* ================================================================== *)
(** ** The Plaid proxy routes *)

Module Proxy.
Import Js Token.

(** JSON values.  Numbers are kept as integers, which is all the routes
    build themselves; payloads are otherwise passed through untouched. *)
Inductive Json : Type :=
| JNull
| JBool (b : bool)
| JNum (z : Z)
| JStr (s : jsstring)
| JArr (items : list Json)
| JObj (fields : list (string * Json)).

Fixpoint lookup (key : string) (fields : list (string * Json)) : option Json :=
  match fields with
  | [] => None
  | (k, v) :: r => if String.eqb k key then Some v else lookup key r
  end.

Definition TypeError : exn :=
  JsError (js "TypeError") (js "Cannot read properties of null").

(** [v.key] for a value that came out of [JSON.parse]: throws on [null],
    is [undefined] when the property is missing. *)
Definition get_field (v : Json) (key : string) : completion (option Json) :=
  match v with
  | JNull => Throw TypeError
  | JObj fields => Normal (lookup key fields)
  | _ => Normal None
  end.

(** An object literal; a property whose value is [undefined] is left out,
    as [JSON.stringify] does. *)
Fixpoint obj (fields : list (string * option Json)) : list (string * Json) :=
  match fields with
  | [] => []
  | (k, Some v) :: r => (k, v) :: obj r
  | (_, None) :: r => obj r
  end.

Definition truthy_json (v : option Json) : bool :=
  match v with
  | None | Some JNull | Some (JBool false) | Some (JNum 0) | Some (JStr []) => false
  | Some _ => true
  end.

(** [String(v)], used when a value ends up as an error message. *)
Fixpoint ToString (v : Json) : jsstring :=
  match v with
  | JNull => js "null"
  | JBool true => js "true"
  | JBool false => js "false"
  | JNum z => toString z
  | JStr s => s
  | JArr items =>
      (fix join (l : list Json) : jsstring :=
         match l with
         | [] => []
         | x :: r =>
             match x with JNull => [] | _ => ToString x end
             ++ match r with [] => [] | _ => 44 :: join r end
         end) items
  | JObj _ => js "[object Object]"
  end.

(** *** The outside world *)

Record HttpResponse : Type := {
  status : Z;
  json : completion Json          (* [response.json()] *)
}.

Definition ok (r : HttpResponse) : bool :=
  (200 <=? status r) && (status r <=? 299).

(** The Durable Object stub of one agent. *)
Record AgentStub : Type := {
  getPlaidAccessToken : completion (option jsstring);
  storePlaidAccessToken : option Json -> option Json -> completion unit
}.

(** What the imported collaborators answer: [fetch], [getAgentStub] from
    [../../agents] and [getPreviewDomain] from [../../utils/urls]. *)
Record World : Type := {
  fetch : jsstring -> Json -> completion HttpResponse;
  getAgentStub : Env -> jsstring -> completion AgentStub;
  getPreviewDomain : Env -> option jsstring
}.

(** Calls that leave the worker, in the order they are made. *)
Inductive event : Type :=
| Fetch (url : jsstring) (body : Json)
| GetAgentStub (agentId : jsstring)
| GetPlaidAccessToken (agentId : jsstring)
| StorePlaidAccessToken (agentId : jsstring) (access_token item_id : option Json).

(** A computation that appends to the trace and completes or throws. *)
Definition IO (A : Type) : Type := list event -> list event * completion A.

Definition ret {A} (a : A) : IO A := fun t => (t, Normal a).
Definition throw {A} (e : exn) : IO A := fun t => (t, Throw e).
Definition lift {A} (c : completion A) : IO A := fun t => (t, c).
Definition call {A} (e : event) (answer : completion A) : IO A :=
  fun t => (t ++ [e], answer).

Definition bindIO {A B} (m : IO A) (k : A -> IO B) : IO B :=
  fun t =>
    match m t with
    | (t', Normal a) => k a t'
    | (t', Throw e) => (t', Throw e)
    end.

Definition try_catchIO {A} (body : IO A) (handler : exn -> IO A) : IO A :=
  fun t =>
    match body t with
    | (t', Normal a) => (t', Normal a)
    | (t', Throw e) => handler e t'
    end.

Definition run {A} (m : IO A) : list event * completion A := m [].

Declare Scope io_scope.
Delimit Scope io_scope with IO.
Notation "x <- m ;; k" := (bindIO m (fun x => k))
  (at level 61, m at next level, right associativity) : io_scope.
Local Open Scope string_scope.
Local Open Scope list_scope.
Local Open Scope Z_scope.
Local Open Scope io_scope.

(** *** Requests and responses *)

Inductive method : Type := GET | POST | OPTIONS | OtherMethod.

Record Request : Type := {
  req_method : method;
  header_Origin : option jsstring;
  header_X_Preview_Token : option jsstring;
  req_json : completion Json          (* [c.req.json()] *)
}.

Record Response : Type := {
  res_status : Z;
  res_body : option Json
}.

(** [c.json(object, status)] and [c.body(null, status)] *)
Definition c_json (fields : list (string * option Json)) (status : Z) : Response :=
  {| res_status := status; res_body := Some (JObj (obj fields)) |}.
Definition c_body_null (status : Z) : Response :=
  {| res_status := status; res_body := None |}.

(** A property of the JSON body of a response, if it has one. *)
Definition body_field (r : Response) (key : string) : option Json :=
  match res_body r with
  | Some (JObj fields) => lookup key fields
  | _ => None
  end.

(** [error instanceof Error ? error.message : fallback] *)
Definition message_or (e : exn) (fallback : string) : jsstring :=
  match e with
  | JsError _ message => message
  | NonError => js fallback
  end.

Definition PLAID_SANDBOX_URL : jsstring := js "https://sandbox.plaid.com".
Definition PLAID_DEVELOPMENT_URL : jsstring := js "https://development.plaid.com".
Definition PLAID_PRODUCTION_URL : jsstring := js "https://production.plaid.com".

Definition getPlaidBaseUrl (env : Env) : jsstring :=
  let plaidEnv := if truthy (PLAID_ENV env)
                  then match PLAID_ENV env with Some s => s | None => [] end
                  else js "sandbox" in
  if str_eqb plaidEnv (js "production") then PLAID_PRODUCTION_URL
  else if str_eqb plaidEnv (js "development") then PLAID_DEVELOPMENT_URL
  else PLAID_SANDBOX_URL.

(** [plaidRequest(env, endpoint, body)] *)
Definition plaidRequest (w : World) (env : Env) (endpoint : jsstring)
    (body : list (string * option Json)) : IO Json :=
  let baseUrl := getPlaidBaseUrl env in
  match PLAID_CLIENT_ID env, PLAID_SECRET env with
  | Some ((_ :: _) as clientId), Some ((_ :: _) as secret) =>
      let url := baseUrl ++ endpoint in
      let payload :=
        JObj (obj (("client_id", Some (JStr clientId))
                   :: ("secret", Some (JStr secret)) :: body)) in
      response <- call (Fetch url payload) (fetch w url payload) ;;
      if negb (ok response) then
        error <- lift (json response) ;;
        error_message <- lift (get_field error "error_message") ;;
        throw (Error (if truthy_json error_message
                      then match error_message with
                           | Some v => ToString v
                           | None => []
                           end
                      else js "Plaid API error: " ++ toString (status response)))
      else lift (json response)
  | _, _ => throw (Error (js "Plaid credentials not configured"))
  end.

(** The token check every route starts with.  [inl] is the early return. *)
Definition authenticate (env : Env) (now : Z) (req : Request)
  : IO (Response + jsstring) :=
  match header_X_Preview_Token req with
  | Some ((_ :: _) as previewToken) =>
      agentId <- lift (validatePreviewToken env previewToken now) ;;
      match agentId with
      | Some ((_ :: _) as agentId) => ret (inr agentId)
      | _ => ret (inl (c_json [("error", Some (JStr (js "Invalid preview token")))] 403))
      end
  | _ => ret (inl (c_json [("error", Some (JStr (js "Missing preview token")))] 401))
  end.

Definition failure (e : exn) (fallback : string) : IO Response :=
  ret (c_json [("success", Some (JBool false));
               ("error", Some (JStr (message_or e fallback)))] 500).

Definition needs_connection : Response :=
  c_json [("success", Some (JBool false));
          ("error", Some (JStr (js "No Plaid account connected")));
          ("needsConnection", Some (JBool true))] 400.

Definition opt_str (s : option jsstring) : option Json :=
  match s with Some v => Some (JStr v) | None => None end.

(** The exception [plaidRequest] throws for an answer that is not 2xx:
    whatever [response.json()] or the property read throws, or else an
    [Error] carrying Plaid's message or the status. *)
Definition plaid_failure (response : HttpResponse) : exn :=
  match json response with
  | Throw e => e
  | Normal error =>
      match get_field error "error_message" with
      | Throw e => e
      | Normal error_message =>
          Error (if truthy_json error_message
                 then match error_message with
                      | Some v => ToString v
                      | None => []
                      end
                 else js "Plaid API error: " ++ toString (status response))
      end
  end.

(** The JSON [plaidRequest] posts: the platform's client id and secret,
    then the caller's properties. *)
Definition plaid_payload (env : Env) (body : list (string * option Json)) : Json :=
  JObj (obj (("client_id", opt_str (PLAID_CLIENT_ID env))
             :: ("secret", opt_str (PLAID_SECRET env)) :: body)).

(** The platform's Plaid client id and secret are both set. *)
Definition plaid_configured (env : Env) : bool :=
  truthy (PLAID_CLIENT_ID env) && truthy (PLAID_SECRET env).

(** The request carries a preview token that verifies for [agentId]. *)
Definition authenticated (env : Env) (now : Z) (req : Request) (agentId : jsstring) : Prop :=
  exists previewToken,
    header_X_Preview_Token req = Some previewToken
    /\ validatePreviewToken env previewToken now = Normal (Some agentId)
    /\ agentId <> [].

Definition is_fetch (e : event) : bool :=
  match e with Fetch _ _ => true | _ => false end.

Section Routes.
Variable w : World.
Variable env : Env.
Variable now : Z.

(** POST /api/proxy/plaid/link-token *)
Definition link_token (req : Request) : IO Response :=
  auth <- authenticate env now req ;;
  match auth with
  | inl early => ret early
  | inr agentId =>
      try_catchIO
        (response <- plaidRequest w env (js "/link/token/create")
           [("user", Some (JObj [("client_user_id", JStr agentId)]));
            ("client_name", Some (JStr (js "VibeSDK Preview")));
            ("products", Some (JArr [JStr (js "transactions")]));
            ("country_codes", Some (JArr [JStr (js "US")]));
            ("language", Some (JStr (js "en")))] ;;
         link_token <- lift (get_field response "link_token") ;;
         expiration <- lift (get_field response "expiration") ;;
         ret (c_json [("success", Some (JBool true));
                      ("link_token", link_token);
                      ("expiration", expiration)] 200))
      (fun error => failure error "Failed to create link token")
  end.

(** POST /api/proxy/plaid/exchange-token *)
Definition exchange_token (req : Request) : IO Response :=
  auth <- authenticate env now req ;;
  match auth with
  | inl early => ret early
  | inr agentId =>
      match req_json req with
      | Throw _ => ret (c_json [("error", Some (JStr (js "Invalid JSON body")))] 400)
      | Normal body =>
          public_token <- lift (get_field body "public_token") ;;
          if negb (truthy_json public_token)
          then ret (c_json [("error", Some (JStr (js "Missing public_token")))] 400)
          else
            try_catchIO
              (response <- plaidRequest w env (js "/item/public_token/exchange")
                 [("public_token", public_token)] ;;
               agentStub <- call (GetAgentStub agentId) (getAgentStub w env agentId) ;;
               access_token <- lift (get_field response "access_token") ;;
               item_id <- lift (get_field response "item_id") ;;
               _ <- call (StorePlaidAccessToken agentId access_token item_id)
                      (storePlaidAccessToken agentStub access_token item_id) ;;
               ret (c_json [("success", Some (JBool true));
                            ("item_id", item_id)] 200))
            (fun error => failure error "Failed to exchange token")
      end
  end.

(** GET /api/proxy/plaid/transactions *)
Definition transactions (req : Request) : IO Response :=
  auth <- authenticate env now req ;;
  match auth with
  | inl early => ret early
  | inr agentId =>
      try_catchIO
        (agentStub <- call (GetAgentStub agentId) (getAgentStub w env agentId) ;;
         accessToken <- call (GetPlaidAccessToken agentId)
                          (getPlaidAccessToken agentStub) ;;
         if negb (truthy accessToken) then ret needs_connection
         else
           response <- plaidRequest w env (js "/transactions/sync")
             [("access_token", opt_str accessToken)] ;;
           added <- lift (get_field response "added") ;;
           has_more <- lift (get_field response "has_more") ;;
           ret (c_json [("success", Some (JBool true));
                        ("transactions", added);
                        ("has_more", has_more)] 200))
      (fun error => failure error "Failed to fetch transactions")
  end.

(** GET /api/proxy/plaid/accounts *)
Definition accounts (req : Request) : IO Response :=
  auth <- authenticate env now req ;;
  match auth with
  | inl early => ret early
  | inr agentId =>
      try_catchIO
        (agentStub <- call (GetAgentStub agentId) (getAgentStub w env agentId) ;;
         accessToken <- call (GetPlaidAccessToken agentId)
                          (getPlaidAccessToken agentStub) ;;
         if negb (truthy accessToken) then ret needs_connection
         else
           response <- plaidRequest w env (js "/accounts/get")
             [("access_token", opt_str accessToken)] ;;
           accounts <- lift (get_field response "accounts") ;;
           ret (c_json [("success", Some (JBool true));
                        ("accounts", accounts)] 200))
      (fun error => failure error "Failed to fetch accounts")
  end.

(** GET /api/proxy/plaid/status *)
Definition status_route (req : Request) : IO Response :=
  auth <- authenticate env now req ;;
  match auth with
  | inl early => ret early
  | inr agentId =>
      try_catchIO
        (agentStub <- call (GetAgentStub agentId) (getAgentStub w env agentId) ;;
         accessToken <- call (GetPlaidAccessToken agentId)
                          (getPlaidAccessToken agentStub) ;;
         ret (c_json [("success", Some (JBool true));
                      ("connected", Some (JBool (truthy accessToken)))] 200))
      (fun error => failure error "Failed to check status")
  end.

(** The routes registered by [setupPlaidProxyRoutes]. *)
Inductive endpoint : Type :=
| LinkToken | ExchangeToken | Transactions | Accounts | Status.

Definition route_method (ep : endpoint) : method :=
  match ep with
  | LinkToken | ExchangeToken => POST
  | Transactions | Accounts | Status => GET
  end.

Definition handler (ep : endpoint) : Request -> IO Response :=
  match ep with
  | LinkToken => link_token
  | ExchangeToken => exchange_token
  | Transactions => transactions
  | Accounts => accounts
  | Status => status_route
  end.

(** [s.endsWith(suffix)] *)
Definition endsWith (s suffix : jsstring) : bool :=
  str_eqb (skipn (List.length s - List.length suffix) s) suffix
  && (List.length suffix <=? List.length s)%nat.

(** The CORS middleware on [/api/proxy/plaid/*]: the headers it sets, and
    either the preflight answer or the answer of the next handler. *)
Definition cors_headers (req : Request) : list (string * jsstring) :=
  match header_Origin req, getPreviewDomain w env with
  | Some ((_ :: _) as origin), Some ((_ :: _) as previewDomain) =>
      if endsWith origin (46 :: previewDomain) then
        [("Access-Control-Allow-Origin", origin);
         ("Access-Control-Allow-Methods", js "GET, POST, OPTIONS");
         ("Access-Control-Allow-Headers", js "Content-Type, X-Preview-Token");
         ("Access-Control-Max-Age", js "86400")]
      else []
  | _, _ => []
  end.

Definition middleware (req : Request) (next : IO Response)
  : IO (list (string * jsstring) * Response) :=
  let headers := cors_headers req in
  match req_method req with
  | OPTIONS => ret (headers, c_body_null 204)
  | _ => response <- next ;; ret (headers, response)
  end.

Definition method_eqb (a b : method) : bool :=
  match a, b with
  | GET, GET | POST, POST | OPTIONS, OPTIONS | OtherMethod, OtherMethod => true
  | _, _ => false
  end.

(** Hono's answer when no route matches. *)
Definition not_found : Response :=
  {| res_status := 404; res_body := Some (JStr (js "404 Not Found")) |}.

(** A request on the path of route [ep], as the application built by
    [setupPlaidProxyRoutes] serves it: the middleware runs first; the route
    handler is the next handler when the method is the route's. *)
Definition setupPlaidProxyRoutes (ep : endpoint) (req : Request)
  : IO (list (string * jsstring) * Response) :=
  middleware req
    (if method_eqb (req_method req) (route_method ep)
     then handler ep req
     else ret not_found).

End Routes.

End Proxy.

(* ================================================================== *)
(** ** The configuration phase (docs/agency-architecture-plan.md, 2.3) *)

Module Configuration.
Import Js.

Inductive CurrentDevState : Type :=
| IDLE
| PHASE_CONFIGURING
| PHASE_GENERATING
| PHASE_IMPLEMENTING
| REVIEWING
| FINALIZING.

Inductive AuthType : Type := oauth | api_key.
Inductive ServiceStatus : Type := pending | connected | failed.

Record PendingConfiguration : Type := {
  requiredServices : list jsstring;
  configuredServices : list jsstring;
  configCardId : jsstring
}.

Record ServiceCard : Type := {
  service_id : jsstring;
  service_name : jsstring;
  service_type : AuthType;
  service_status : ServiceStatus
}.

(** The [CONFIGURATION_CARD] message handed to [this.broadcast]. *)
Record ConfigurationCard : Type := {
  cardId : jsstring;
  title : jsstring;
  message : jsstring;
  services : list ServiceCard;
  actions : list (jsstring * jsstring * jsstring)   (* id, label, variant *)
}.

Section Agent.

(** What the plan leaves to the surrounding agent. *)
Variable Blueprint : Type.
Variable detectRequiredServices : Blueprint -> list jsstring.
Variable has : jsstring -> bool.        (* [secretsClient.has({ provider })] *)
Variable getServiceDisplayName : jsstring -> jsstring.
Variable getServiceAuthType : jsstring -> AuthType.

Record PhasicState : Type := {
  blueprint : Blueprint;
  pendingConfiguration : option PendingConfiguration
}.

(** The services collected by the [for] loop: those without a secret. *)
Definition unconfigured (st : PhasicState) : list jsstring :=
  filter (fun service => negb (has service))
         (detectRequiredServices (blueprint st)).

Definition needsConfiguration (st : PhasicState) : bool :=
  existsb (fun service => negb (has service))
          (detectRequiredServices (blueprint st)).

Definition card (configCardId : jsstring) (unconfiguredServices : list jsstring)
  : ConfigurationCard :=
  {| cardId := configCardId;
     title := js "Connect External Services";
     message := js "To build with real data, please connect the following services:";
     services :=
       map (fun s => {| service_id := s;
                        service_name := getServiceDisplayName s;
                        service_type := getServiceAuthType s;
                        service_status := pending |})
           unconfiguredServices;
     actions :=
       [(js "skip", js "Skip - Use Mock Data", js "secondary");
        (js "continue", js "Continue with Connected Services", js "primary")] |}.

(** [executeConfigurationPhase()]: the next development state, the agent
    state after [setState], and the messages broadcast.  [now] is
    [Date.now()]. *)
Definition executeConfigurationPhase (st : PhasicState) (now : Z)
  : CurrentDevState * PhasicState * list ConfigurationCard :=
  match unconfigured st with
  | [] => (PHASE_GENERATING, st, [])
  | unconfiguredServices =>
      let configCardId := js "config-" ++ toString now in
      (IDLE,
       {| blueprint := blueprint st;
          pendingConfiguration :=
            Some {| requiredServices := unconfiguredServices;
                    configuredServices := [];
                    configCardId := configCardId |} |},
       [card configCardId unconfiguredServices])
  end.

(** Successive gate requests at the given times: the final state and every
    message broadcast on the way, oldest first. *)
Fixpoint gate_requests (st : PhasicState) (times : list Z)
  : PhasicState * list ConfigurationCard :=
  match times with
  | [] => (st, [])
  | now :: later =>
      let '(_, st', sent) := executeConfigurationPhase st now in
      let '(st'', sent') := gate_requests st' later in
      (st'', sent ++ sent')
  end.

End Agent.

Arguments blueprint {Blueprint} _.
Arguments pendingConfiguration {Blueprint} _.
Arguments Build_PhasicState {Blueprint} _ _.
Arguments unconfigured {Blueprint} _ _ _.
Arguments needsConfiguration {Blueprint} _ _ _.
Arguments executeConfigurationPhase {Blueprint} _ _ _ _ _ _.
Arguments gate_requests {Blueprint} _ _ _ _ _ _.

End Configuration.

(* ================================================================== *)
(** ** Concrete environments, tokens and worlds used in examples *)

Module Sample.
Import Js Token Proxy.
Local Open Scope string_scope.
Local Open Scope list_scope.
Local Open Scope Z_scope.

Definition env : Env :=
  {| JWT_SECRET := Some (js "s3cret");
     PLAID_ENV := None;
     PLAID_CLIENT_ID := Some (js "client-id");
     PLAID_SECRET := Some (js "plaid-secret") |}.

(** The same worker with an empty signing secret. *)
Definition env_empty_secret : Env :=
  {| JWT_SECRET := Some [];
     PLAID_ENV := None;
     PLAID_CLIENT_ID := Some (js "client-id");
     PLAID_SECRET := Some (js "plaid-secret") |}.

(** The same worker without the platform's Plaid credentials. *)
Definition env_no_plaid : Env :=
  {| JWT_SECRET := Some (js "s3cret");
     PLAID_ENV := None;
     PLAID_CLIENT_ID := None;
     PLAID_SECRET := None |}.

Definition agent : jsstring := js "agent-1".
Definition t0 : Z := 1700000000000.

(** The token of [agent] issued at [t0] under [env]. *)
Definition token : jsstring :=
  js "YWdlbnQtMQ==.1700000000000.MRZywKhpWnlyFETo++CRugxNMh9DmpM+L5NJgS+/3q4=".

(** The token of [agent] issued one minute after [t0]. *)
Definition token_from_the_future : jsstring :=
  js "YWdlbnQtMQ==.1700000060000.T9QwJtasV3SDiLD3FPD1rNaQF/rPon6akUxzGWzDa4A=".

(** An agent with no stored Plaid access token, and one with a token. *)
Definition stub_unconnected : AgentStub :=
  {| getPlaidAccessToken := Normal None;
     storePlaidAccessToken := fun _ _ => Normal tt |}.

Definition stub_connected : AgentStub :=
  {| getPlaidAccessToken := Normal (Some (js "access-sandbox-1"));
     storePlaidAccessToken := fun _ _ => Normal tt |}.

Definition plaid_ok (payload : Json) : HttpResponse :=
  {| status := 200; json := Normal payload |}.

(** Plaid's answer to a bad or expired credential: HTTP 400 with an error
    object. *)
Definition plaid_invalid_token : HttpResponse :=
  {| status := 400;
     json := Normal (JObj [("error_type", JStr (js "INVALID_INPUT"));
                           ("error_code", JStr (js "INVALID_ACCESS_TOKEN"));
                           ("error_message", JStr (js "access token is invalid"))]) |}.

Definition exchange_payload : Json :=
  JObj [("access_token", JStr (js "access-sandbox-1"));
        ("item_id", JStr (js "item-1"));
        ("request_id", JStr (js "r1"))].

(** A world in which Plaid answers every call with [answer] and every agent
    is [stub]. *)
Definition world (answer : HttpResponse) (stub : AgentStub) : World :=
  {| fetch := fun _ _ => Normal answer;
     getAgentStub := fun _ _ => Normal stub;
     getPreviewDomain := fun _ => Some (js "preview.example.com") |}.

Definition request (m : method) (previewToken : option jsstring) (body : completion Json)
  : Request :=
  {| req_method := m;
     header_Origin := Some (js "https://app.preview.example.com");
     header_X_Preview_Token := previewToken;
     req_json := body |}.

(** Worlds and requests of the examples. *)
Definition world_unconnected : World := world (plaid_ok exchange_payload) stub_unconnected.
Definition world_plaid_rejects : World := world plaid_invalid_token stub_connected.

Definition get_with_token : Request := request GET (Some token) (Throw NonError).
Definition get_with_empty_token : Request := request GET (Some []) (Throw NonError).
Definition post_with_bad_token : Request :=
  request POST (Some (js "not-a-token")) (Throw NonError).
Definition post_link_token : Request := request POST (Some token) (Throw NonError).
Definition post_exchange : Request :=
  request POST (Some token) (Normal (JObj [("public_token", JStr (js "public-sandbox-1"))])).

(** An agent whose blueprint needs Plaid and that holds no secret, before
    and after a first configuration card. *)
Definition detect_plaid (_ : unit) : list jsstring := [js "plaid"].
Definition no_secret (_ : jsstring) : bool := false.
Definition display_name (s : jsstring) : jsstring := s.
Definition auth_type (_ : jsstring) : Configuration.AuthType := Configuration.oauth.

Definition agent_idle : Configuration.PhasicState unit :=
  {| Configuration.blueprint := tt;
     Configuration.pendingConfiguration := None |}.

Definition agent_awaiting (cardId : jsstring) : Configuration.PhasicState unit :=
  {| Configuration.blueprint := tt;
     Configuration.pendingConfiguration :=
       Some {| Configuration.requiredServices := [js "plaid"];
               Configuration.configuredServices := [];
               Configuration.configCardId := cardId |} |}.

End Sample.

(* ================================================================== *)
(** ** Reading aids for the routes *)

Module Routes.
Import Js Token Proxy.
Local Open Scope string_scope.
Local Open Scope list_scope.
Local Open Scope Z_scope.

(** The Plaid endpoint a route posts to; the status route posts nowhere. *)
Definition plaid_path (ep : endpoint) : option jsstring :=
  match ep with
  | LinkToken => Some (js "/link/token/create")
  | ExchangeToken => Some (js "/item/public_token/exchange")
  | Transactions => Some (js "/transactions/sync")
  | Accounts => Some (js "/accounts/get")
  | Status => None
  end.

(** The message of the 500 answer when the thrown value is no [Error]. *)
Definition fallback_message (ep : endpoint) : string :=
  match ep with
  | LinkToken => "Failed to create link token"
  | ExchangeToken => "Failed to exchange token"
  | Transactions => "Failed to fetch transactions"
  | Accounts => "Failed to fetch accounts"
  | Status => "Failed to check status"
  end.

End Routes.

(** Further worlds and requests of the examples. *)
Module Sample2.
Import Js Token Proxy.
Local Open Scope string_scope.
Local Open Scope list_scope.
Local Open Scope Z_scope.

(** An agent whose storage refuses the write. *)
Definition stub_store_fails : AgentStub :=
  {| getPlaidAccessToken := Normal None;
     storePlaidAccessToken := fun _ _ => Throw (Error (js "storage unavailable")) |}.

Definition world_store_fails : World :=
  Sample.world (Sample.plaid_ok Sample.exchange_payload) stub_store_fails.

Definition transactions_payload : Json :=
  JObj [("added", JArr []); ("has_more", JBool false)].

Definition world_connected : World :=
  Sample.world (Sample.plaid_ok transactions_payload) Sample.stub_connected.

End Sample2.

(* ================================================================== *)
(** ** The agent's proxy handler (docs/agency-architecture-plan.md, 2.1.2) *)

Module AgentProxy.
Import Js Token Proxy.
Local Open Scope string_scope.
Local Open Scope list_scope.
Local Open Scope Z_scope.

(** [parts.join(sep)] for a one-unit separator. *)
Fixpoint join (sep : Z) (parts : list jsstring) : jsstring :=
  match parts with
  | [] => []
  | [p] => p
  | p :: rest => p ++ sep :: join sep rest
  end.

(** A template literal prints an [undefined] value as "undefined". *)
Definition interpolate (v : option jsstring) : jsstring :=
  match v with Some s => s | None => js "undefined" end.

(** [new Response(JSON.stringify({ error }), { status })] *)
Definition error_response (message : jsstring) (status : Z) : Response :=
  c_json [("error", Some (JStr message))] status.

Section Agent.

(** What the plan leaves to the agent: the secrets client and the two
    service handlers. *)
Variable secrets_get : option jsstring -> completion (option jsstring).
Variable handlePlaidProxy : jsstring -> jsstring -> completion Response.
Variable handleStripeProxy : jsstring -> jsstring -> completion Response.

(** [handleProxyRequest(request)], from the path name of the request URL. *)
Definition handleProxyRequest (pathname : jsstring) : completion Response :=
  let pathParts := split 47 pathname in
  let service := nth_error pathParts 3 in
  let endpoint := join 47 (skipn 4 pathParts) in
  bind (secrets_get service) (fun accessToken =>
  match accessToken with
  | Some ((_ :: _) as accessToken) =>
      match service with
      | Some s =>
          if str_eqb s (js "plaid") then handlePlaidProxy endpoint accessToken
          else if str_eqb s (js "stripe") then handleStripeProxy endpoint accessToken
          else Normal (error_response (js "Unknown service: " ++ interpolate service) 400)
      | None => Normal (error_response (js "Unknown service: " ++ interpolate service) 400)
      end
  | _ =>
      Normal (error_response
                (js "No " ++ interpolate service ++ js " credentials configured") 400)
  end).

End Agent.

End AgentProxy.

(* ================================================================== *)
(** ** The project controller (worker/api/controllers/project/controller.ts)

    The controller is modelled against the answers of [ProjectService];
    each service call is recorded in the trace. *)

Module Projects.
Import Js Token Proxy.
Local Open Scope string_scope.
Local Open Scope list_scope.
Local Open Scope Z_scope.

(** Computations that record calls of type [E] and complete or throw. *)
Definition Eff (E A : Type) : Type := list E -> list E * completion A.

Definition retE {E A} (a : A) : Eff E A := fun t => (t, Normal a).
Definition liftE {E A} (c : completion A) : Eff E A := fun t => (t, c).
Definition callE {E A} (e : E) (answer : completion A) : Eff E A :=
  fun t => (t ++ [e], answer).
Definition bindE {E A B} (m : Eff E A) (k : A -> Eff E B) : Eff E B :=
  fun t =>
    match m t with
    | (t', Normal a) => k a t'
    | (t', Throw e) => (t', Throw e)
    end.
Definition try_catchE {E A} (body : Eff E A) (handler : exn -> Eff E A) : Eff E A :=
  fun t =>
    match body t with
    | (t', Normal a) => (t', Normal a)
    | (t', Throw e) => handler e t'
    end.
Definition runE {E A} (m : Eff E A) : list E * completion A := m [].

Declare Scope eff_scope.
Delimit Scope eff_scope with eff.
Notation "x <- m ;; k" := (bindE m (fun x => k))
  (at level 61, m at next level, right associativity) : eff_scope.
Local Open Scope eff_scope.

Section Controller.

(** Rows of the schema, as the service returns them. *)
Variable Project ProjectSession : Type.
Variable project_id : Project -> jsstring.           (* [project.id] *)

Record CreateProjectInput : Type := {
  input_userId : jsstring;
  input_appId : option Json;
  input_name : option Json;
  input_description : option Json;
  input_thumbnailUrl : option Json
}.

(** The answers of the [ProjectService] methods the controller calls. *)
Record ProjectService : Type := {
  listUserProjects : jsstring -> completion (list Project);
  getProjectById : jsstring -> jsstring -> completion (option Project);
  getProjectByAppId : Json -> jsstring -> completion (option Project);
  createProject : CreateProjectInput -> completion Project;
  updateProject : jsstring -> jsstring -> Json -> completion (option Project);
  deleteProject : jsstring -> jsstring -> completion bool;
  touchProject : jsstring -> jsstring -> completion unit;
  getProjectSession : jsstring -> completion (option ProjectSession);
  saveProjectSession : jsstring -> Json -> completion ProjectSession
}.

Inductive service_call : Type :=
| ListUserProjects (userId : jsstring)
| GetProjectById (projectId userId : jsstring)
| GetProjectByAppId (appId : Json) (userId : jsstring)
| CreateProject (input : CreateProjectInput)
| UpdateProject (projectId userId : jsstring) (updates : Json)
| DeleteProject (projectId userId : jsstring)
| TouchProject (projectId userId : jsstring)
| GetProjectSession (projectId : jsstring)
| SaveProjectSession (projectId : jsstring) (state : Json).

(** The [data] of a success response. *)
Inductive ResponseData : Type :=
| ProjectListData (projects : list Project)
| ProjectData (project : Project)
| ProjectWithSessionData (project : option (Project * option ProjectSession))
| ProjectDeleteData (success : bool)
| ProjectSessionData (session : option ProjectSession).

(** [createSuccessResponse(data, status = 200)] and
    [createErrorResponse(message, status)] of the base controller. *)
Inductive ControllerResponse : Type :=
| SuccessResponse (data : ResponseData) (status : Z)
| ErrorResponse (message : string) (status : Z).

Definition response_status (r : ControllerResponse) : Z :=
  match r with
  | SuccessResponse _ status => status
  | ErrorResponse _ status => status
  end.

(** What a handler reads of its arguments: the authenticated user's id
    (absent when [context.user] is undefined), the route parameters and the
    parsed body. *)
Record RouteRequest : Type := {
  context_user : option jsstring;
  params_id : option jsstring;
  params_appId : option jsstring;
  request_json : completion Json
}.

Definition M : Type -> Type := Eff service_call.

(** [user.id] with [user = context.user!]: a TypeError when there is no
    user. *)
Definition user_id (req : RouteRequest) : M jsstring :=
  match context_user req with
  | Some id => retE id
  | None => liftE (Throw TypeError)
  end.

Variable service : ProjectService.

Definition listProjects (req : RouteRequest) : M ControllerResponse :=
  try_catchE
    (userId <- user_id req ;;
     projects <- callE (ListUserProjects userId) (listUserProjects service userId) ;;
     retE (SuccessResponse (ProjectListData projects) 200))
    (fun _ => retE (ErrorResponse "Failed to list projects" 500)).

Definition getProject (req : RouteRequest) : M ControllerResponse :=
  try_catchE
    (match params_id req with
     | Some ((_ :: _) as projectId) =>
         userId <- user_id req ;;
         project <- callE (GetProjectById projectId userId)
                      (getProjectById service projectId userId) ;;
         match project with
         | None => retE (ErrorResponse "Project not found" 404)
         | Some project =>
             userId' <- user_id req ;;
             _ <- callE (TouchProject projectId userId')
                    (touchProject service projectId userId') ;;
             session <- callE (GetProjectSession projectId)
                          (getProjectSession service projectId) ;;
             retE (SuccessResponse (ProjectWithSessionData (Some (project, session))) 200)
         end
     | _ => retE (ErrorResponse "Project ID is required" 400)
     end)
    (fun _ => retE (ErrorResponse "Failed to get project" 500)).

Definition getProjectByAppIdHandler (req : RouteRequest) : M ControllerResponse :=
  try_catchE
    (match params_appId req with
     | Some ((_ :: _) as appId) =>
         userId <- user_id req ;;
         project <- callE (GetProjectByAppId (JStr appId) userId)
                      (getProjectByAppId service (JStr appId) userId) ;;
         match project with
         | None => retE (SuccessResponse (ProjectWithSessionData None) 200)
         | Some project =>
             session <- callE (GetProjectSession (project_id project))
                          (getProjectSession service (project_id project)) ;;
             retE (SuccessResponse (ProjectWithSessionData (Some (project, session))) 200)
         end
     | _ => retE (ErrorResponse "App ID is required" 400)
     end)
    (fun _ => retE (ErrorResponse "Failed to get project" 500)).

Definition createProjectHandler (req : RouteRequest) : M ControllerResponse :=
  try_catchE
    (body <- liftE (request_json req) ;;
     appId <- liftE (get_field body "appId") ;;
     if negb (truthy_json appId)
     then retE (ErrorResponse "App ID and name are required" 400)
     else
       name <- liftE (get_field body "name") ;;
       if negb (truthy_json name)
       then retE (ErrorResponse "App ID and name are required" 400)
       else
         match appId with
         | None => retE (ErrorResponse "App ID and name are required" 400)
         | Some appIdValue =>
             userId <- user_id req ;;
             existingProject <- callE (GetProjectByAppId appIdValue userId)
                                  (getProjectByAppId service appIdValue userId) ;;
             match existingProject with
             | Some _ => retE (ErrorResponse "Project already exists for this app" 409)
             | None =>
                 description <- liftE (get_field body "description") ;;
                 thumbnailUrl <- liftE (get_field body "thumbnailUrl") ;;
                 let input := {| input_userId := userId;
                                 input_appId := appId;
                                 input_name := name;
                                 input_description := description;
                                 input_thumbnailUrl := thumbnailUrl |} in
                 project <- callE (CreateProject input) (createProject service input) ;;
                 retE (SuccessResponse (ProjectData project) 201)
             end
         end)
    (fun _ => retE (ErrorResponse "Failed to create project" 500)).

Definition updateProjectHandler (req : RouteRequest) : M ControllerResponse :=
  try_catchE
    (match params_id req with
     | Some ((_ :: _) as projectId) =>
         body <- liftE (request_json req) ;;
         userId <- user_id req ;;
         project <- callE (UpdateProject projectId userId body)
                      (updateProject service projectId userId body) ;;
         match project with
         | None => retE (ErrorResponse "Project not found" 404)
         | Some project => retE (SuccessResponse (ProjectData project) 200)
         end
     | _ => retE (ErrorResponse "Project ID is required" 400)
     end)
    (fun _ => retE (ErrorResponse "Failed to update project" 500)).

Definition deleteProjectHandler (req : RouteRequest) : M ControllerResponse :=
  try_catchE
    (match params_id req with
     | Some ((_ :: _) as projectId) =>
         userId <- user_id req ;;
         success <- callE (DeleteProject projectId userId)
                      (deleteProject service projectId userId) ;;
         if negb success
         then retE (ErrorResponse "Project not found" 404)
         else retE (SuccessResponse (ProjectDeleteData true) 200)
     | _ => retE (ErrorResponse "Project ID is required" 400)
     end)
    (fun _ => retE (ErrorResponse "Failed to delete project" 500)).

Definition getProjectSessionHandler (req : RouteRequest) : M ControllerResponse :=
  try_catchE
    (match params_id req with
     | Some ((_ :: _) as projectId) =>
         userId <- user_id req ;;
         project <- callE (GetProjectById projectId userId)
                      (getProjectById service projectId userId) ;;
         match project with
         | None => retE (ErrorResponse "Project not found" 404)
         | Some _ =>
             session <- callE (GetProjectSession projectId)
                          (getProjectSession service projectId) ;;
             retE (SuccessResponse (ProjectSessionData session) 200)
         end
     | _ => retE (ErrorResponse "Project ID is required" 400)
     end)
    (fun _ => retE (ErrorResponse "Failed to get session" 500)).

Definition saveProjectSessionHandler (req : RouteRequest) : M ControllerResponse :=
  try_catchE
    (match params_id req with
     | Some ((_ :: _) as projectId) =>
         userId <- user_id req ;;
         project <- callE (GetProjectById projectId userId)
                      (getProjectById service projectId userId) ;;
         match project with
         | None => retE (ErrorResponse "Project not found" 404)
         | Some _ =>
             body <- liftE (request_json req) ;;
             session <- callE (SaveProjectSession projectId body)
                          (saveProjectSession service projectId body) ;;
             retE (SuccessResponse (ProjectSessionData (Some session)) 200)
         end
     | _ => retE (ErrorResponse "Project ID is required" 400)
     end)
    (fun _ => retE (ErrorResponse "Failed to save session" 500)).

(** The handlers registered by [setupProjectRoutes]. *)
Inductive action : Type :=
| ListProjects | GetProjectByApp | GetProject | CreateProjectAction
| UpdateProjectAction | DeleteProjectAction | GetSession | SaveSession.

Definition controller (a : action) : RouteRequest -> M ControllerResponse :=
  match a with
  | ListProjects => listProjects
  | GetProjectByApp => getProjectByAppIdHandler
  | GetProject => getProject
  | CreateProjectAction => createProjectHandler
  | UpdateProjectAction => updateProjectHandler
  | DeleteProjectAction => deleteProjectHandler
  | GetSession => getProjectSessionHandler
  | SaveSession => saveProjectSessionHandler
  end.

(** The user id a recorded call was made for, when it takes one. *)
Definition call_user (c : service_call) : option jsstring :=
  match c with
  | ListUserProjects u | GetProjectById _ u | GetProjectByAppId _ u
  | UpdateProject _ u _ | DeleteProject _ u | TouchProject _ u => Some u
  | CreateProject input => Some (input_userId input)
  | GetProjectSession _ | SaveProjectSession _ _ => None
  end.

(** The calls that change stored data. *)
Definition is_write (c : service_call) : bool :=
  match c with
  | CreateProject _ | UpdateProject _ _ _ | DeleteProject _ _
  | TouchProject _ _ | SaveProjectSession _ _ => true
  | _ => false
  end.

End Controller.

End Projects.

(** A project service for the examples: projects are named by their id,
    user [u1] owns project [p1] of app [app1], and nothing else exists. *)
Module Sample3.
Import Js Token Proxy Projects.
Local Open Scope string_scope.
Local Open Scope list_scope.
Local Open Scope Z_scope.

Definition owns (projectId userId : jsstring) : bool :=
  str_eqb projectId (js "p1") && str_eqb userId (js "u1").

Definition service : ProjectService jsstring jsstring :=
  {| listUserProjects := fun u => Normal (if str_eqb u (js "u1") then [js "p1"] else []);
     getProjectById := fun p u => Normal (if owns p u then Some p else None);
     getProjectByAppId := fun a u =>
       Normal (match a with
               | JStr app => if str_eqb app (js "app1") && str_eqb u (js "u1")
                             then Some (js "p1") else None
               | _ => None
               end);
     createProject := fun input => Normal (js "p2");
     updateProject := fun p u _ => Normal (if owns p u then Some p else None);
     deleteProject := fun p u => Normal (owns p u);
     touchProject := fun _ _ => Normal tt;
     getProjectSession := fun p => Normal (Some (js "session-of-" ++ p));
     saveProjectSession := fun p _ => Normal (js "session-of-" ++ p) |}.

Definition route_request (user : option jsstring) (id : option jsstring) (body : completion Json)
  : RouteRequest :=
  {| context_user := user; params_id := id; params_appId := None;
     request_json := body |}.

Definition create_body (app : string) : Json :=
  JObj [("appId", JStr (js app)); ("name", JStr (js "Budget"))].

End Sample3.

(* ================================================================== *)
(** ** Project sessions (worker/database/services/ProjectService.ts)

    The [project_sessions] table is a list of rows, oldest first; a select
    keeps the rows that satisfy its condition, an update rewrites them in
    place, an insert appends.  Reads are taken to succeed and to see earlier
    writes.  A write fails on a primary key that is already there, or when
    the database refuses it for a reason of its own (a project that is not
    in [projects], a lost connection): [refuses] gives that exception. *)

Module Sessions.
Import Js Token Proxy.
Local Open Scope string_scope.
Local Open Scope list_scope.
Local Open Scope Z_scope.
Local Open Scope completion_scope.

Record ProjectSession : Type := {
  id : jsstring;
  projectId : jsstring;
  openFiles : Json;
  activeFile : Json;
  cursorPosition : Json;
  scrollPosition : Json;
  unsavedChanges : Json;
  lastSavedAt : option Z;
  createdAt : Z;
  updatedAt : Z
}.

Definition Table : Type := list ProjectSession.

(** [v !== undefined ? v : existing] *)
Definition defined_or (v : option Json) (existing : Json) : Json :=
  match v with Some x => x | None => existing end.

(** [v || fallback] *)
Definition truthy_or (v : option Json) (fallback : Json) : Json :=
  if truthy_json v then match v with Some x => x | None => fallback end
  else fallback.

Section Service.

Variable JSON_stringify : Json -> jsstring.
(** [handleDatabaseError] of the base service, which the [catch] returns. *)
Variable handleDatabaseError : exn -> completion (option ProjectSession).
Variable refuses : ProjectSession -> option exn.

(** [getProjectSession(projectId)]: the first row of the project, or null. *)
Definition getProjectSession (table : Table) (project : jsstring)
  : option ProjectSession :=
  find (fun r => str_eqb (projectId r) project) table.

(** [v ? JSON.stringify(v) : otherwise] *)
Definition stringified_or (v : option Json) (otherwise : Json) : Json :=
  if truthy_json v
  then match v with Some x => JStr (JSON_stringify x) | None => otherwise end
  else otherwise.

(** The columns the update sets. *)
Definition updated (existing : ProjectSession)
    (openFiles' activeFile' cursorPosition' scrollPosition' unsavedChanges' : option Json)
    (now : Z) (r : ProjectSession) : ProjectSession :=
  {| id := id r;
     projectId := projectId r;
     openFiles := stringified_or openFiles' (openFiles existing);
     activeFile := defined_or activeFile' (activeFile existing);
     cursorPosition := stringified_or cursorPosition' (cursorPosition existing);
     scrollPosition := defined_or scrollPosition' (scrollPosition existing);
     unsavedChanges := defined_or unsavedChanges' (unsavedChanges existing);
     lastSavedAt := match unsavedChanges' with
                    | Some (JBool false) => Some now
                    | _ => lastSavedAt existing
                    end;
     createdAt := createdAt r;
     updatedAt := now |}.

(** The body of the [try] of [saveProjectSession(projectId, state)]: the
    row returned and the table afterwards.  [now] is [new Date()] and
    [sessionId] what [generateId()] returns. *)
Definition save_try (table : Table) (project : jsstring) (state : Json)
    (now : Z) (sessionId : jsstring) : completion (option ProjectSession * Table) :=
  match getProjectSession table project with
  | Some existing =>
      openFiles' <- get_field state "openFiles" ;;
      activeFile' <- get_field state "activeFile" ;;
      cursorPosition' <- get_field state "cursorPosition" ;;
      scrollPosition' <- get_field state "scrollPosition" ;;
      unsavedChanges' <- get_field state "unsavedChanges" ;;
      let assign := updated existing openFiles' activeFile' cursorPosition'
                   scrollPosition' unsavedChanges' now in
      let matches := fun r => str_eqb (id r) (id existing) in
      let table' := map (fun r => if matches r then assign r else r) table in
      match refuses (assign existing) with
      | Some e => Throw e
      | None => Normal (hd_error (filter matches table'), table')
      end
  | None =>
      openFiles' <- get_field state "openFiles" ;;
      activeFile' <- get_field state "activeFile" ;;
      cursorPosition' <- get_field state "cursorPosition" ;;
      scrollPosition' <- get_field state "scrollPosition" ;;
      unsavedChanges' <- get_field state "unsavedChanges" ;;
      let session :=
        {| id := sessionId;
           projectId := project;
           openFiles := stringified_or openFiles' (JStr (JSON_stringify (JArr [])));
           activeFile := truthy_or activeFile' JNull;
           cursorPosition := stringified_or cursorPosition' JNull;
           scrollPosition := truthy_or scrollPosition' JNull;
           unsavedChanges := truthy_or unsavedChanges' (JBool false);
           lastSavedAt := None;
           createdAt := now;
           updatedAt := now |} in
      if existsb (fun r => str_eqb (id r) sessionId) table
      then Throw (Error (js "UNIQUE constraint failed: project_sessions.id"))
      else match refuses session with
           | Some e => Throw e
           | None => Normal (Some session, table ++ [session])
           end
  end.

(** [saveProjectSession]: on an exception the table is as it was and the
    result is what [handleDatabaseError] gives. *)
Definition saveProjectSession (table : Table) (project : jsstring) (state : Json)
    (now : Z) (sessionId : jsstring) : completion (option ProjectSession) * Table :=
  match save_try table project state now sessionId with
  | Normal (session, table') => (Normal session, table')
  | Throw e => (handleDatabaseError e, table)
  end.

End Service.

(** The primary key: no two rows share an id. *)
Definition keyed (table : Table) : Prop := NoDup (map id table).

(** At most one session a project. *)
Definition one_each (table : Table) : Prop := NoDup (map projectId table).

(** A row with [updatedAt] moved to [now] and nothing else changed. *)
Definition touched (now : Z) (r : ProjectSession) : ProjectSession :=
  {| id := id r;
     projectId := projectId r;
     openFiles := openFiles r;
     activeFile := activeFile r;
     cursorPosition := cursorPosition r;
     scrollPosition := scrollPosition r;
     unsavedChanges := unsavedChanges r;
     lastSavedAt := lastSavedAt r;
     createdAt := createdAt r;
     updatedAt := now |}.

(** The five properties of [ProjectSessionState]. *)
Definition state_keys : list string :=
  ["openFiles"; "activeFile"; "cursorPosition"; "scrollPosition"; "unsavedChanges"].

End Sessions.

(** A session table with one row, and the service's surroundings. *)
Module Sample4.
Import Js Proxy Sessions.
Local Open Scope string_scope.
Local Open Scope list_scope.
Local Open Scope Z_scope.

Definition stringify (v : Json) : jsstring := ToString v.
Definition rethrow (e : exn) : completion (option ProjectSession) := Throw e.
Definition accepts_all (_ : ProjectSession) : option exn := None.

Definition row : ProjectSession :=
  {| id := js "s1";
     projectId := js "p1";
     openFiles := JStr (js "[]");
     activeFile := JStr (js "src/App.tsx");
     cursorPosition := JNull;
     scrollPosition := JNum 120;
     unsavedChanges := JBool true;
     lastSavedAt := None;
     createdAt := 1700000000000;
     updatedAt := 1700000000000 |}.

Definition table : Table := [row].

Definition empty_state : Json := JObj [].

Definition saved_state : Json :=
  JObj [("activeFile", JStr (js "src/main.tsx")); ("unsavedChanges", JBool false)].

End Sample4.

(* ================================================================== *)
(** ** What a verifier checks *)

Module TokenSpec.
Import Js Token.

(** The conditions under which a token is accepted for [agentId]. *)
Definition accepts (env : Env) (token : jsstring) (now : Z) (agentId : jsstring) : Prop :=
  exists encodedAgentId timestamp signature secret,
    split 46 token = [encodedAgentId; timestamp; signature]
    /\ atob encodedAgentId = Normal agentId
    /\ isNaN (parseInt10 timestamp) = false
    /\ num_gt (num_sub now (parseInt10 timestamp)) maxAge = false
    /\ JWT_SECRET env = Some secret /\ secret <> []
    /\ signatureBase64 secret agentId timestamp = Normal signature.

End TokenSpec.


(* ================================================================== *)
(** * Properties *)

(** ** Facts about the JavaScript primitives *)

Module JsFacts.
Import Js.

Ltac euclid := Z.to_euclidean_division_equations; lia.

(** Decides the first comparison left in the goal, keeping the fact. *)
Ltac split_test :=
  match goal with
  | |- context [?x <? ?y] =>
      let H := fresh "Hlt" in destruct (Z.ltb_spec x y) as [H | H]
  | |- context [?x =? ?y] =>
      let H := fresh "Heq" in destruct (Z.eqb_spec x y) as [H | H]
  | |- context [?x <=? ?y] =>
      let H := fresh "Hle" in destruct (Z.leb_spec x y) as [H | H]
  end.

Ltac bool_cases := repeat (split_test; cbn [andb orb negb]).

Ltac inv_Forall :=
  repeat match goal with
         | H : Forall _ (_ :: _) |- _ => inversion H; clear H; subst
         | H : latin1 (_ :: _) |- _ => unfold latin1 in H
         end.

(** Induction three elements at a time, as base64 groups bytes. *)
Lemma list_ind3 {A} (P : list A -> Prop) :
  P [] -> (forall a, P [a]) -> (forall a b, P [a; b]) ->
  (forall a b c r, P r -> P (a :: b :: c :: r)) ->
  forall l, P l.
Proof.
  intros Hnil Hone Htwo Hstep.
  fix IH 1.
  intros [|a [|b [|c r]]];
    [exact Hnil | apply Hone | apply Htwo | apply Hstep; apply IH].
Qed.

Lemma str_eqb_refl s : str_eqb s s = true.
Proof.
  induction s as [|c s IH]; simpl; [reflexivity|].
  now rewrite Z.eqb_refl.
Qed.

Lemma filter_all {A} (f : A -> bool) l :
  Forall (fun x => f x = true) l -> filter f l = l.
Proof.
  induction 1 as [|x l Hx _ IH]; simpl; [reflexivity|].
  now rewrite Hx, IH.
Qed.

Lemma existsb_none {A} (f : A -> bool) l :
  Forall (fun x => f x = false) l -> existsb f l = false.
Proof.
  induction 1 as [|x l Hx _ IH]; simpl; [reflexivity|].
  now rewrite Hx, IH.
Qed.

(** *** base64 *)

Lemma b64_index_char i : sextet i -> b64_index (b64_char i) = Some i.
Proof.
  unfold sextet, b64_char. intros Hi.
  destruct (Z.ltb_spec i 26); [|destruct (Z.ltb_spec i 52);
    [|destruct (Z.ltb_spec i 62); [|destruct (Z.eqb_spec i 62)]]];
    unfold b64_index; bool_cases; try lia; f_equal; lia.
Qed.

Lemma b64_char_range i : sextet i -> 43 <= b64_char i <= 122 /\ b64_char i <> 46 /\ b64_char i <> 61.
Proof.
  unfold sextet, b64_char. intros Hi. bool_cases; lia.
Qed.

Lemma sextets_range l : latin1 l -> Forall sextet (sextets l).
Proof.
  unfold sextet.
  induction l as [| a | a b | a b c r IH] using list_ind3; intros H;
    inv_Forall; simpl; repeat constructor; try euclid.
  apply IH. assumption.
Qed.

Lemma unsextets_sextets l : latin1 l -> unsextets (sextets l) = l.
Proof.
  induction l as [| a | a b | a b c r IH] using list_ind3; intros H;
    inv_Forall; simpl.
  - reflexivity.
  - f_equal. euclid.
  - f_equal; [euclid|]. f_equal. euclid.
  - rewrite IH by assumption.
    f_equal; [euclid|]. f_equal; [euclid|]. f_equal. euclid.
Qed.

Lemma index_char_map g : Forall sextet g -> map index_or_zero (map b64_char g) = g.
Proof.
  induction 1 as [|i g Hi _ IH]; simpl; [reflexivity|].
  unfold index_or_zero at 1. now rewrite b64_index_char, IH.
Qed.

(** Length of the encoding, by the number of bytes modulo 3. *)
Lemma sextets_length l :
  let n := Z.of_nat (List.length l) in
  let k := Z.of_nat (List.length (sextets l)) in
  (n mod 3 = 0 /\ k mod 4 = 0) \/ (n mod 3 = 1 /\ k mod 4 = 2)
  \/ (n mod 3 = 2 /\ k mod 4 = 3).
Proof.
  induction l as [| a | a b | a b c r IH] using list_ind3;
    cbn [sextets List.length]; cbv zeta in *.
  - left. split; reflexivity.
  - right; left. split; reflexivity.
  - right; right. split; reflexivity.
  - rewrite !Nat2Z.inj_succ. euclid.
Qed.

Lemma strip_padding_encoded g pad :
  Forall sextet g -> pad = [] \/ pad = [61] \/ pad = [61; 61] ->
  strip_padding (map b64_char g ++ pad) = map b64_char g.
Proof.
  intros Hg Hpad. unfold strip_padding.
  assert (Hlast : match rev (map b64_char g) with
                  | c :: _ => c <> 61
                  | [] => True
                  end).
  { destruct (rev (map b64_char g)) as [|c t] eqn:E; [exact I|].
    assert (Hin : In c (map b64_char g)).
    { apply in_rev. rewrite E. now left. }
    apply in_map_iff in Hin as (i & <- & Hi).
    rewrite Forall_forall in Hg. apply b64_char_range. auto. }
  rewrite rev_app_distr.
  destruct Hpad as [-> | [-> | ->]]; simpl.
  - rewrite app_nil_r.
    destruct (rev (map b64_char g)) as [|c t]; [reflexivity|].
    destruct (Z.eqb_spec c 61); [contradiction|reflexivity].
  - destruct (rev (map b64_char g)) as [|c t] eqn:E.
    + apply (f_equal (@rev Z)) in E. rewrite rev_involutive in E. now rewrite E.
    + destruct (Z.eqb_spec c 61); [contradiction|].
      rewrite <- E. apply rev_involutive.
  - apply rev_involutive.
Qed.

(** [atob] undoes [btoa] on every string [btoa] accepts. *)
Lemma atob_btoa s :
  latin1 s ->
  exists e, btoa s = Normal e /\ atob e = Normal s /\ ~ In 46 e.
Proof.
  intros Hs.
  pose proof (sextets_range s Hs) as Hg.
  assert (Hchars : Forall (fun c => 43 <= c <= 122 /\ c <> 46 /\ c <> 61)
                          (map b64_char (sextets s))).
  { apply Forall_map. eapply Forall_impl; [|exact Hg].
    intros i Hi. now apply b64_char_range. }
  assert (Hpad : padding s = [] \/ padding s = [61] \/ padding s = [61; 61]).
  { unfold padding. cbv zeta. bool_cases; auto. }
  exists (map b64_char (sextets s) ++ padding s).
  split; [|split].
  - unfold btoa. rewrite existsb_none; [reflexivity|].
    eapply Forall_impl; [|exact Hs]. intros c Hc. simpl in Hc. bool_cases; lia.
  - unfold atob.
    rewrite filter_all.
    2:{ apply Forall_app. split.
        - eapply Forall_impl; [|exact Hchars]. intros c Hc. simpl in Hc.
          unfold is_ascii_whitespace. bool_cases; lia.
        - destruct Hpad as [-> | [-> | ->]]; repeat constructor. }
    assert (Hlen : Z.of_nat (List.length (map b64_char (sextets s) ++ padding s)) mod 4 = 0).
    { rewrite length_app, length_map, Nat2Z.inj_add.
      pose proof (sextets_length s) as Hl. cbv zeta in Hl.
      unfold padding. cbv zeta.
      destruct Hl as [[Hn Hk] | [[Hn Hk] | [Hn Hk]]]; rewrite Hn; simpl; euclid. }
    rewrite Hlen. simpl (0 =? 0). cbv iota.
    rewrite strip_padding_encoded by assumption.
    rewrite length_map.
    pose proof (sextets_length s) as Hl. cbv zeta in Hl.
    destruct (Z.eqb_spec (Z.of_nat (List.length (sextets s)) mod 4) 1) as [E|_]; [lia|].
    rewrite existsb_none.
    2:{ apply Forall_map. eapply Forall_impl; [|exact Hg].
        intros i Hi. simpl. now rewrite b64_index_char. }
    rewrite index_char_map by assumption.
    now rewrite unsextets_sextets.
  - intros Hin. apply in_app_or in Hin as [Hin | Hin].
    + rewrite Forall_forall in Hchars. apply Hchars in Hin. lia.
    + destruct Hpad as [E | [E | E]]; rewrite E in Hin; simpl in Hin; intuition lia.
Qed.

(** *** Decimal printing and parsing *)

Lemma digits_value_acc d acc :
  digits_value (Z.pos acc) (uint_units d) = Z.pos (Pos.of_uint_acc d acc).
Proof.
  revert acc; induction d; intros acc;
    cbn [uint_units digits_value Pos.of_uint_acc]; [reflexivity|..];
    rewrite <- IHd; f_equal; lia.
Qed.

Lemma digits_value_uint d :
  digits_value 0 (uint_units d) = Z.of_N (Pos.of_uint d).
Proof.
  induction d; cbn [uint_units digits_value Pos.of_uint];
    [reflexivity|assumption|..];
    cbn [Z.of_N]; rewrite <- digits_value_acc; reflexivity.
Qed.

Lemma uint_units_digits d : Forall (fun c => 48 <= c <= 57) (uint_units d).
Proof.
  induction d; simpl; constructor; auto; lia.
Qed.

Lemma digit_prefix_all s : Forall (fun c => 48 <= c <= 57) s -> digit_prefix s = s.
Proof.
  induction 1 as [|c s Hc _ IH]; simpl; [reflexivity|].
  unfold is_digit. bool_cases; try lia. now rewrite IH.
Qed.

Lemma parseInt10_digits s :
  Forall (fun c => 48 <= c <= 57) s -> s <> [] ->
  parseInt10 s = round_to_double (digits_value 0 s)
  /\ parseInt10 (45 :: s) = round_to_double (- digits_value 0 s).
Proof.
  intros Hs Hne. destruct s as [|c r]; [contradiction|].
  pose proof (digit_prefix_all _ Hs) as Hp.
  inversion Hs as [|? ? Hc Hr]; subst.
  assert (Hws : forall x, 45 <= x <= 57 -> is_str_whitespace x = false).
  { intros x Hx. unfold is_str_whitespace. bool_cases; lia. }
  split; unfold parseInt10; cbn [trim_start]; rewrite Hws by lia;
    cbv beta iota zeta.
  - destruct (Z.eqb_spec c 45); [lia|]. destruct (Z.eqb_spec c 43); [lia|].
    cbn [orb]. cbv iota. rewrite Hp. f_equal. lia.
  - change (45 =? 45) with true. change (45 =? 43) with false.
    cbn [orb]. cbv iota. rewrite Hp. f_equal; lia.
Qed.

Lemma round_to_double_exact z : Z.abs z < 2 ^ 53 -> round_to_double z = Fin z.
Proof.
  intros H. unfold round_to_double.
  destruct (Z.ltb_spec (Z.abs z) (2 ^ 53)); [reflexivity|lia].
Qed.

Lemma parseInt10_toString z :
  Z.abs z < 2 ^ 53 -> parseInt10 (toString z) = Fin z.
Proof.
  intros Hz. unfold toString.
  destruct z as [|p|p]; cbn [Z.to_int].
  - reflexivity.
  - destruct (parseInt10_digits (uint_units (Pos.to_uint p))) as [E _].
    + apply uint_units_digits.
    + intros E. pose proof (digits_value_uint (Pos.to_uint p)) as Hv.
      rewrite E, DecimalPos.Unsigned.of_to in Hv. discriminate.
    + rewrite E, digits_value_uint, DecimalPos.Unsigned.of_to.
      now apply round_to_double_exact.
  - destruct (parseInt10_digits (uint_units (Pos.to_uint p))) as [_ E].
    + apply uint_units_digits.
    + intros E. pose proof (digits_value_uint (Pos.to_uint p)) as Hv.
      rewrite E, DecimalPos.Unsigned.of_to in Hv. discriminate.
    + rewrite E, digits_value_uint, DecimalPos.Unsigned.of_to.
      now apply round_to_double_exact.
Qed.

Lemma toString_no_dot z : ~ In 46 (toString z).
Proof.
  assert (H : forall d, ~ In 46 (uint_units d)).
  { intros d Hin. pose proof (uint_units_digits d) as Hd.
    rewrite Forall_forall in Hd. apply Hd in Hin. lia. }
  unfold toString. destruct (Z.to_int z); simpl; [apply H|].
  intros [E | Hin]; [discriminate | now apply H in Hin].
Qed.

(** *** Rounding keeps the comparison with a small integer *)

Lemma num_gt_round d m :
  0 <= m < 2 ^ 53 -> num_gt (round_to_double d) m = (m <? d).
Proof.
  intros Hm. unfold round_to_double.
  destruct (Z.ltb_spec (Z.abs d) (2 ^ 53)) as [|Hbig]; [reflexivity|].
  cbv zeta.
  set (e := Z.log2 (Z.abs d) - 52).
  set (q := Z.abs d / 2 ^ e).
  set (q' := if Z.abs d mod 2 ^ e <? 2 ^ (e - 1) then q
             else if 2 ^ (e - 1) <? Z.abs d mod 2 ^ e then q + 1
             else if Z.even q then q else q + 1).
  assert (He : 1 <= e).
  { unfold e. assert (53 <= Z.log2 (Z.abs d)); [|lia].
    change 53 with (Z.log2 (2 ^ 53)). now apply Z.log2_le_mono. }
  assert (Hpow : 2 <= 2 ^ e).
  { change 2 with (2 ^ 1) at 1. apply Z.pow_le_mono_r; lia. }
  assert (Hq : 2 ^ 52 <= q).
  { unfold q. apply Z.div_le_lower_bound; [lia|].
    rewrite Z.mul_comm, <- Z.pow_add_r by lia.
    replace (52 + e) with (Z.log2 (Z.abs d)) by (unfold e; lia).
    apply Z.log2_spec. lia. }
  assert (Hq' : q <= q').
  { unfold q'. repeat match goal with |- context [if ?b then _ else _] => destruct b end; lia. }
  assert (Hv : 2 ^ 53 <= q' * 2 ^ e) by nia.
  destruct (Z.leb_spec (2 ^ 1024) (q' * 2 ^ e)); cbn [num_gt].
  - destruct (Z.ltb_spec d 0), (Z.ltb_spec m d); cbn [negb]; try reflexivity; lia.
  - destruct (Z.ltb_spec m (Z.sgn d * (q' * 2 ^ e))), (Z.ltb_spec m d);
      try reflexivity; exfalso.
    + assert (Hs : Z.sgn d = -1) by (apply Z.sgn_neg; lia). rewrite Hs in *. nia.
    + assert (Hs : Z.sgn d = 1) by (apply Z.sgn_pos; lia). rewrite Hs in *. nia.
Qed.

(** *** split *)

Lemma split_no_sep sep s : ~ In sep s -> split sep s = [s].
Proof.
  induction s as [|c s IH]; simpl; [reflexivity|].
  intros H. destruct (Z.eqb_spec c sep) as [->|_]; [exfalso; auto|].
  rewrite IH by tauto. reflexivity.
Qed.

Lemma split_app sep a r :
  ~ In sep a -> split sep (a ++ sep :: r) = a :: split sep r.
Proof.
  induction a as [|c a IH]; simpl.
  - now rewrite Z.eqb_refl.
  - intros H. destruct (Z.eqb_spec c sep) as [->|_]; [exfalso; auto|].
    rewrite IH by tauto. reflexivity.
Qed.

(** *** The digest is a byte string *)

Lemma be_bytes_range n x : Forall (fun c => 0 <= c <= 255) (SHA256.be_bytes n x).
Proof.
  induction n as [|n IH]; cbn [SHA256.be_bytes]; constructor; [|exact IH].
  assert (0 <= Z.shiftr x (8 * Z.of_nat n) mod 256 < 256)
    by (apply Z.mod_pos_bound; lia).
  lia.
Qed.

Lemma sha256_bytes msg : latin1 (SHA256.sha256 msg).
Proof.
  unfold SHA256.sha256, latin1. cbv zeta.
  destruct (fold_left SHA256.compress _ SHA256.H0)
    as [[[[[[[a b] c] d] e] f] g] h].
  cbn [flat_map]. repeat (apply Forall_app; split); try apply be_bytes_range.
  constructor.
Qed.

Lemma hmac_sha256_bytes key msg : latin1 (SHA256.hmac_sha256 key msg).
Proof. unfold SHA256.hmac_sha256. apply sha256_bytes. Qed.

End JsFacts.

(* ================================================================== *)
(** ** The token codec *)

Module TokenFacts.
Import Js Token JsFacts.

Lemma time_value_safe t : time_value t -> Z.abs t < 2 ^ 53.
Proof. unfold time_value. lia. Qed.

(** What a successful issuance says about its inputs. *)
Lemma generate_inv env agentId now token :
  generatePreviewToken env agentId now = Normal token ->
  configured env /\ Forall (fun c => c <= 255) agentId.
Proof.
  unfold generatePreviewToken, btoa, configured.
  destruct (existsb (fun c => 255 <? c) agentId) eqn:E; cbn [bind]; [discriminate|].
  intros H. split.
  - destruct (JWT_SECRET env) as [[|c s]|]; try discriminate. reflexivity.
  - rewrite Forall_forall. intros c Hc.
    destruct (Z.ltb_spec 255 c) as [Hgt|]; [|assumption].
    assert (existsb (fun c => 255 <? c) agentId = true); [|congruence].
    apply existsb_exists. exists c. split; [assumption|]. now apply Z.ltb_lt.
Qed.

Lemma validate_nonempty env token now :
  token <> [] ->
  validatePreviewToken env token now
  = try_catch (validate_try env token now) (fun _ => Normal None).
Proof. destruct token; [contradiction|reflexivity]. Qed.

(** Issuance succeeds for a Latin-1 agent id under a configured secret, and
    the token then verifies exactly when it is at most [maxAge] old; the
    verifier never compares the timestamp with [now] the other way. *)
Lemma verify_issued env agentId t0 :
  configured env -> latin1 agentId -> time_value t0 ->
  exists token,
    generatePreviewToken env agentId t0 = Normal token
    /\ embedded_timestamp token = Fin t0
    /\ forall now,
         validatePreviewToken env token now
         = Normal (if maxAge <? now - t0 then None else Some agentId).
Proof.
  unfold configured. intros Hconf Hlat Ht.
  destruct (JWT_SECRET env) as [[|c secret]|] eqn:Hsec; try discriminate.
  destruct (atob_btoa agentId Hlat) as (e & Hbtoa & Hatob & Hdot).
  destruct (atob_btoa _ (hmac_sha256_bytes (encode (c :: secret))
                           (encode (agentId ++ 46 :: toString t0))))
    as (sg & Hsig & _ & Hsgdot).
  exists (e ++ 46 :: toString t0 ++ 46 :: sg).
  assert (Hsplit : split 46 (e ++ 46 :: toString t0 ++ 46 :: sg)
                   = [e; toString t0; sg]).
  { rewrite split_app by assumption.
    rewrite split_app by apply toString_no_dot.
    now rewrite split_no_sep by assumption. }
  split; [|split].
  - unfold generatePreviewToken. rewrite Hbtoa. cbn [bind]. rewrite Hsec.
    unfold signatureBase64. rewrite Hsig. reflexivity.
  - unfold embedded_timestamp. rewrite Hsplit.
    apply parseInt10_toString. now apply time_value_safe.
  - intros now. rewrite validate_nonempty.
    2:{ intros E. apply app_eq_nil in E as [_ E]. discriminate. }
    unfold validate_try. rewrite Hsplit, Hatob. cbn [bind].
    rewrite parseInt10_toString by now apply time_value_safe.
    cbn [isNaN num_sub orb].
    rewrite num_gt_round by (unfold maxAge; lia).
    destruct (maxAge <? now - t0); [reflexivity|].
    rewrite Hsec. unfold signatureBase64. rewrite Hsig. cbn [bind].
    rewrite str_eqb_refl. reflexivity.
Qed.

(** A verification is the tenant id or [null]; the [catch] turns every
    exception of the body into [null]. *)
Lemma validate_total env token now :
  exists r, validatePreviewToken env token now = Normal r.
Proof.
  unfold validatePreviewToken. destruct token; [eauto|].
  destruct (validate_try env _ now); cbn [try_catch]; eauto.
Qed.

(** The body does throw: [atob] rejects a tenant segment that is not
    base64, and only the [catch] answers [null]. *)
Example validate_try_throws :
  validate_try Sample.env (js "!.1700000000000.x") Sample.t0 = Throw InvalidCharacterError
  /\ validatePreviewToken Sample.env (js "!.1700000000000.x") Sample.t0 = Normal None.
Proof. split; vm_compute; reflexivity. Qed.

(** Malformed tokens: two parts only, a timestamp that is not a number, a
    token older than 24 hours, and a signature with one character changed. *)
Example validate_malformed :
  validatePreviewToken Sample.env (js "YWdlbnQtMQ==.1700000000000") Sample.t0 = Normal None
  /\ validatePreviewToken Sample.env (js "YWdlbnQtMQ==.soon.c2ln") Sample.t0 = Normal None
  /\ validatePreviewToken Sample.env Sample.token (Sample.t0 + maxAge + 1) = Normal None
  /\ validatePreviewToken Sample.env
       (js "YWdlbnQtMQ==.1700000000000.MRZywKhpWnlyFETo++CRugxNMh9DmpM+L5NJgS+/3q5=")
       Sample.t0 = Normal None.
Proof. repeat split; vm_compute; reflexivity. Qed.

(** Test vectors: SHA-256 of "abc" (FIPS 180-4) and HMAC-SHA-256, RFC 4231
    test case 2. *)
Example sha256_abc :
  SHA256.sha256 (js "abc")
  = [186; 120; 22; 191; 143; 1; 207; 234; 65; 65; 64; 222; 93; 174; 34; 35;
     176; 3; 97; 163; 150; 23; 122; 156; 180; 16; 255; 97; 242; 0; 21; 173].
Proof. vm_compute. reflexivity. Qed.

Example hmac_rfc4231_case2 :
  SHA256.hmac_sha256 (js "Jefe") (js "what do ya want for nothing?")
  = [91; 220; 193; 70; 191; 96; 117; 78; 106; 4; 36; 38; 8; 149; 117; 199;
     90; 0; 63; 8; 157; 39; 57; 131; 157; 236; 88; 185; 100; 236; 56; 67].
Proof. vm_compute. reflexivity. Qed.

(** RFC 4231 test case 6: a key longer than the block is hashed first. *)
Example hmac_rfc4231_case6 :
  SHA256.hmac_sha256 (repeat 170 131)
    (js "Test Using Larger Than Block-Size Key - Hash Key First")
  = [96; 228; 49; 89; 30; 224; 182; 127; 13; 138; 38; 170; 203; 245; 183; 127;
     142; 11; 198; 33; 55; 40; 197; 20; 5; 70; 4; 15; 14; 227; 127; 84].
Proof. vm_compute. reflexivity. Qed.

Example sample_token_issued :
  generatePreviewToken Sample.env Sample.agent Sample.t0 = Normal Sample.token.
Proof. vm_compute. reflexivity. Qed.

Example sample_future_token_issued :
  generatePreviewToken Sample.env Sample.agent (Sample.t0 + 60000)
  = Normal Sample.token_from_the_future.
Proof. vm_compute. reflexivity. Qed.

End TokenFacts.

Import Js Token.

(** C1, as stated, fails: with an empty signing secret, or for a tenant id
    holding a code unit above 0xFF (here U+0100), [generatePreviewToken]
    throws, so there is no token that verifies. *)
Lemma C1_round_trip_counterexample :
  ~ round_trip Sample.env_empty_secret Sample.agent Sample.t0
  /\ ~ round_trip Sample.env [256] Sample.t0.
Proof.
  split; intros (token & Hgen & _); vm_compute in Hgen; discriminate.
Qed.

(** C1, amended: for every tenant id whose code units are all at most 0xFF,
    every non-empty signing secret and every time value [now], issuing
    succeeds and verifying the issued token with the same secret at the same
    [now] returns the tenant id. *)
Theorem C1_round_trip (env : Env) (agentId : jsstring) (now : Z) :
  configured env -> latin1 agentId -> time_value now ->
  round_trip env agentId now.
Proof.
  intros Hconf Hlat Ht.
  destruct (TokenFacts.verify_issued env agentId now Hconf Hlat Ht)
    as (token & Hgen & _ & Hver).
  exists token. split; [assumption|].
  rewrite Hver, Z.sub_diag. reflexivity.
Qed.

Lemma C1_round_trip_witness :
  configured Sample.env /\ latin1 Sample.agent /\ time_value Sample.t0
  /\ round_trip Sample.env Sample.agent Sample.t0.
Proof.
  assert (Hc : configured Sample.env) by reflexivity.
  assert (Hl : latin1 Sample.agent).
  { unfold latin1. vm_compute. repeat constructor; discriminate. }
  assert (Ht : time_value Sample.t0) by (unfold time_value, Sample.t0; lia).
  split; [exact Hc|]. split; [exact Hl|]. split; [exact Ht|].
  exact (C1_round_trip Sample.env Sample.agent Sample.t0 Hc Hl Ht).
Defined.

(** C2, as stated, fails: the token issued for [Sample.agent] one minute
    after [Sample.t0] carries a timestamp greater than [Sample.t0], and
    verifying it at [Sample.t0] returns the agent id, not [null]. *)
Lemma C2_future_token_counterexample :
  embedded_timestamp Sample.token_from_the_future = Fin (Sample.t0 + 60000)
  /\ num_gt (embedded_timestamp Sample.token_from_the_future) Sample.t0 = true
  /\ validatePreviewToken Sample.env Sample.token_from_the_future Sample.t0
     = Normal (Some Sample.agent).
Proof. repeat split; vm_compute; reflexivity. Qed.

(** C2, amended: the verifier has no check of a timestamp in the future.  A
    token issued (Latin-1 tenant id, non-empty secret) at a time [t1]
    strictly greater than the verifier's [now] carries the timestamp [t1]
    and verifies at [now], returning the tenant id. *)
Theorem C2_future_token_accepted (env : Env) (agentId : jsstring) (t1 now : Z) :
  configured env -> latin1 agentId -> time_value t1 -> now < t1 ->
  exists token,
    generatePreviewToken env agentId t1 = Normal token
    /\ embedded_timestamp token = Fin t1
    /\ num_gt (embedded_timestamp token) now = true
    /\ validatePreviewToken env token now = Normal (Some agentId).
Proof.
  intros Hconf Hlat Ht Hlt.
  destruct (TokenFacts.verify_issued env agentId t1 Hconf Hlat Ht)
    as (token & Hgen & Hts & Hver).
  exists token. repeat split; try assumption.
  - rewrite Hts. cbn [num_gt]. now apply Z.ltb_lt.
  - rewrite Hver.
    destruct (Z.ltb_spec maxAge (now - t1)) as [H|_]; [|reflexivity].
    unfold maxAge in H. lia.
Qed.

Lemma C2_future_token_accepted_witness :
  configured Sample.env /\ latin1 Sample.agent
  /\ time_value (Sample.t0 + 60000) /\ Sample.t0 < Sample.t0 + 60000
  /\ exists token,
       generatePreviewToken Sample.env Sample.agent (Sample.t0 + 60000) = Normal token
       /\ embedded_timestamp token = Fin (Sample.t0 + 60000)
       /\ num_gt (embedded_timestamp token) Sample.t0 = true
       /\ validatePreviewToken Sample.env token Sample.t0 = Normal (Some Sample.agent).
Proof.
  assert (Hc : configured Sample.env) by reflexivity.
  assert (Hl : latin1 Sample.agent).
  { unfold latin1. vm_compute. repeat constructor; discriminate. }
  assert (Ht : time_value (Sample.t0 + 60000)) by (unfold time_value, Sample.t0; lia).
  assert (Hlt : Sample.t0 < Sample.t0 + 60000) by lia.
  split; [exact Hc|]. split; [exact Hl|]. split; [exact Ht|]. split; [exact Hlt|].
  exact (C2_future_token_accepted Sample.env Sample.agent (Sample.t0 + 60000)
           Sample.t0 Hc Hl Ht Hlt).
Defined.

(** C3: a token issued at [t0] verifies at [t0 + 24h - 1ms] and is
    rejected at [t0 + 24h + 1ms]. *)
Theorem C3_max_age_boundary (env : Env) (agentId : jsstring) (t0 : Z) (token : jsstring) :
  well_formed agentId -> time_value t0 ->
  generatePreviewToken env agentId t0 = Normal token ->
  validatePreviewToken env token (t0 + 24 * 60 * 60 * 1000 - 1) = Normal (Some agentId)
  /\ validatePreviewToken env token (t0 + 24 * 60 * 60 * 1000 + 1) = Normal None.
Proof.
  intros Hwf Ht Hgen.
  destruct (TokenFacts.generate_inv _ _ _ _ Hgen) as [Hconf Hle].
  assert (Hlat : latin1 agentId).
  { unfold latin1, well_formed in *. rewrite Forall_forall in *.
    intros c Hc. specialize (Hwf c Hc). specialize (Hle c Hc). lia. }
  destruct (TokenFacts.verify_issued env agentId t0 Hconf Hlat Ht)
    as (token' & Hgen' & _ & Hver).
  assert (token' = token) by congruence. subst token'.
  rewrite !Hver. unfold maxAge. split.
  - destruct (Z.ltb_spec (24 * 60 * 60 * 1000) (t0 + 24 * 60 * 60 * 1000 - 1 - t0));
      [lia|reflexivity].
  - destruct (Z.ltb_spec (24 * 60 * 60 * 1000) (t0 + 24 * 60 * 60 * 1000 + 1 - t0));
      [reflexivity|lia].
Qed.

Lemma C3_max_age_boundary_witness :
  well_formed Sample.agent /\ time_value Sample.t0
  /\ generatePreviewToken Sample.env Sample.agent Sample.t0 = Normal Sample.token
  /\ validatePreviewToken Sample.env Sample.token (Sample.t0 + 24 * 60 * 60 * 1000 - 1)
     = Normal (Some Sample.agent)
  /\ validatePreviewToken Sample.env Sample.token (Sample.t0 + 24 * 60 * 60 * 1000 + 1)
     = Normal None.
Proof.
  assert (Hw : well_formed Sample.agent).
  { unfold well_formed. vm_compute. repeat constructor; discriminate. }
  assert (Ht : time_value Sample.t0) by (unfold time_value, Sample.t0; lia).
  assert (Hg : generatePreviewToken Sample.env Sample.agent Sample.t0 = Normal Sample.token)
    by (vm_compute; reflexivity).
  split; [exact Hw|]. split; [exact Ht|]. split; [exact Hg|].
  exact (C3_max_age_boundary Sample.env Sample.agent Sample.t0 Sample.token Hw Ht Hg).
Defined.

(** C4: [validatePreviewToken] never throws.  Whatever the token (wrong
    number of parts, a timestamp that is not a number, a tenant segment
    [atob] rejects), the outcome is a tenant id or the single [null]. *)
Theorem C4_validate_never_throws (env : Env) (token : jsstring) (now : Z) :
  validatePreviewToken env token now = Normal None
  \/ exists tenantId, validatePreviewToken env token now = Normal (Some tenantId).
Proof.
  destruct (TokenFacts.validate_total env token now) as [[tenantId|] H]; eauto.
Qed.

(* ================================================================== *)
(** ** The proxy routes *)

Module ProxyFacts.
Import Js Token Proxy.
Local Open Scope string_scope.
Local Open Scope list_scope.
Local Open Scope Z_scope.

#[local] Arguments js : simpl never.
#[local] Arguments toString : simpl never.
#[local] Arguments validatePreviewToken : simpl never.
#[local] Arguments getPlaidBaseUrl : simpl never.

(** *** Inversion of the steps of a computation *)

Lemma bindIO_inv {A B} (m : IO A) (k : A -> IO B) t t' c :
  bindIO m k t = (t', c) ->
  (exists e, m t = (t', Throw e) /\ c = Throw e)
  \/ (exists a t1, m t = (t1, Normal a) /\ k a t1 = (t', c)).
Proof.
  unfold bindIO. destruct (m t) as [t1 [a|e]]; intros H.
  - right. eauto.
  - left. inversion H; subst. eauto.
Qed.

Lemma try_catchIO_inv {A} (body : IO A) (handler : exn -> IO A) t t' c :
  try_catchIO body handler t = (t', c) ->
  (exists a, body t = (t', Normal a) /\ c = Normal a)
  \/ (exists e t1, body t = (t1, Throw e) /\ handler e t1 = (t', c)).
Proof.
  unfold try_catchIO. destruct (body t) as [t1 [a|e]]; intros H.
  - left. inversion H; subst. eauto.
  - right. eauto.
Qed.

Lemma call_inv {A} (e : event) (answer : completion A) t t' c :
  call e answer t = (t', c) -> t' = t ++ [e] /\ c = answer.
Proof. unfold call. intros H; inversion H; auto. Qed.

Lemma lift_inv {A} (x : completion A) t t' c :
  lift x t = (t', c) -> t' = t /\ c = x.
Proof. unfold lift. intros H; inversion H; auto. Qed.

Lemma ret_inv {A} (a : A) t t' c :
  ret a t = (t', c) -> t' = t /\ c = Normal a.
Proof. unfold ret. intros H; inversion H; auto. Qed.

Lemma throw_inv {A} (e : exn) t t' (c : completion A) :
  throw e t = (t', c) -> t' = t /\ c = Throw e.
Proof. unfold throw. intros H; inversion H; auto. Qed.

(** *** The token check *)

Lemma truthy_false_cases (s : option jsstring) :
  truthy s = false -> s = None \/ s = Some [].
Proof. destruct s as [[|c r]|]; simpl; intros; auto; discriminate. Qed.

Lemma authenticate_missing env now req t :
  truthy (header_X_Preview_Token req) = false ->
  authenticate env now req t
  = (t, Normal (inl (c_json [("error", Some (JStr (js "Missing preview token")))] 401))).
Proof.
  intros H. unfold authenticate.
  destruct (truthy_false_cases _ H) as [-> | ->]; reflexivity.
Qed.

Lemma authenticate_invalid env now req previewToken t :
  header_X_Preview_Token req = Some previewToken -> previewToken <> [] ->
  validatePreviewToken env previewToken now = Normal None ->
  authenticate env now req t
  = (t, Normal (inl (c_json [("error", Some (JStr (js "Invalid preview token")))] 403))).
Proof.
  intros Hh Hne Hv. unfold authenticate. rewrite Hh.
  destruct previewToken as [|c r]; [contradiction|].
  unfold bindIO, lift. rewrite Hv. reflexivity.
Qed.

Lemma authenticate_ok env now req agentId t :
  authenticated env now req agentId ->
  authenticate env now req t = (t, Normal (inr agentId)).
Proof.
  intros (tok & Hh & Hv & Hne). unfold authenticate. rewrite Hh.
  destruct tok as [|c r]; [vm_compute in Hv; discriminate|].
  unfold bindIO, lift. rewrite Hv.
  destruct agentId; [contradiction|reflexivity].
Qed.

Lemma authenticate_inv env now req t t' c :
  authenticate env now req t = (t', c) ->
  t' = t
  /\ ((exists early, c = Normal (inl early)
         /\ body_field early "success" = None
         /\ body_field early "needsConnection" = None)
      \/ (exists agentId, c = Normal (inr agentId)
            /\ authenticated env now req agentId)).
Proof.
  unfold authenticate, authenticated.
  destruct (header_X_Preview_Token req) as [[|x tok]|].
  - intros H; apply ret_inv in H as [-> ->]. split; [reflexivity|]. left. eauto.
  - unfold bindIO, lift.
    destruct (TokenFacts.validate_total env (x :: tok) now) as [[[|a agentId]|] Hv];
      rewrite Hv; intros H; apply ret_inv in H as [-> ->];
      (split; [reflexivity|]); [left; eauto | right | left; eauto].
    eexists. split; [reflexivity|]. eexists. repeat split; eauto. discriminate.
  - intros H; apply ret_inv in H as [-> ->]. split; [reflexivity|]. left. eauto.
Qed.

(** *** [plaidRequest] *)

Lemma plaid_configured_cases env :
  (plaid_configured env = true
   /\ exists c1 r1 c2 r2, PLAID_CLIENT_ID env = Some (c1 :: r1)
                          /\ PLAID_SECRET env = Some (c2 :: r2))
  \/ (plaid_configured env = false
      /\ forall (A : Type) (k : jsstring -> jsstring -> A) (d : A),
           match PLAID_CLIENT_ID env, PLAID_SECRET env with
           | Some ((_ :: _) as a), Some ((_ :: _) as b) => k a b
           | _, _ => d
           end = d).
Proof.
  unfold plaid_configured.
  destruct (PLAID_CLIENT_ID env) as [[|c1 r1]|], (PLAID_SECRET env) as [[|c2 r2]|];
    simpl; try (right; split; [reflexivity|]; intros; reflexivity).
  left. split; [reflexivity|]. eauto 10.
Qed.

Lemma plaidRequest_unconfigured w env endpoint body t :
  plaid_configured env = false ->
  plaidRequest w env endpoint body t
  = (t, Throw (Error (js "Plaid credentials not configured"))).
Proof.
  intros H. unfold plaidRequest.
  destruct (plaid_configured_cases env) as [[E _] | [_ E]]; [congruence|].
  cbv zeta. rewrite E. reflexivity.
Qed.

(** With credentials, exactly one call goes out, and the answer decides. *)
Lemma plaidRequest_configured w env endpoint body t :
  plaid_configured env = true ->
  let url := getPlaidBaseUrl env ++ endpoint in
  let payload := plaid_payload env body in
  plaidRequest w env endpoint body t
  = (t ++ [Fetch url payload],
     match fetch w url payload with
     | Throw e => Throw e
     | Normal response =>
         if ok response then json response else Throw (plaid_failure response)
     end).
Proof.
  intros H. unfold plaidRequest, plaid_payload.
  destruct (plaid_configured_cases env) as [[_ (c1 & r1 & c2 & r2 & E1 & E2)] | [E _]];
    [|congruence].
  rewrite E1, E2. cbv zeta. cbn [opt_str].
  unfold bindIO, call.
  destruct (fetch w _ _) as [response|e]; [|reflexivity].
  unfold plaid_failure, lift, throw.
  destruct (ok response); cbn [negb]; [reflexivity|].
  destruct (json response) as [error|e]; [|reflexivity].
  destruct (get_field error "error_message"); reflexivity.
Qed.

Lemma plaidRequest_inv w env endpoint body t t' c :
  plaidRequest w env endpoint body t = (t', c) ->
  (plaid_configured env = false /\ t' = t
   /\ c = Throw (Error (js "Plaid credentials not configured")))
  \/ (plaid_configured env = true
      /\ t' = t ++ [Fetch (getPlaidBaseUrl env ++ endpoint) (plaid_payload env body)]
      /\ c = match fetch w (getPlaidBaseUrl env ++ endpoint) (plaid_payload env body) with
             | Throw e => Throw e
             | Normal response =>
                 if ok response then json response
                 else Throw (plaid_failure response)
             end).
Proof.
  intros H. destruct (plaid_configured env) eqn:E.
  - right. split; [reflexivity|].
    pose proof (plaidRequest_configured w env endpoint body t E) as Hp.
    cbv zeta in Hp. rewrite Hp in H. inversion H; subst. auto.
  - left. rewrite plaidRequest_unconfigured in H by assumption.
    inversion H; subst. auto.
Qed.

(** One inversion step on a hypothesis about a route computation. *)
Ltac io_step :=
  match goal with
  | H : bindIO _ _ _ = (_, _) |- _ =>
      apply bindIO_inv in H;
      destruct H as [(? & H & ?) | (? & ? & ? & H)]; cbv beta in *
  | H : try_catchIO _ _ _ = (_, _) |- _ =>
      apply try_catchIO_inv in H;
      destruct H as [(? & H & ?) | (? & ? & ? & H)]; cbv beta in *
  | H : authenticate _ _ _ _ = (_, _) |- _ =>
      apply authenticate_inv in H;
      destruct H as [? [(? & ? & ? & ?) | (? & ? & ?)]]
  | H : plaidRequest _ _ _ _ _ = (_, _) |- _ =>
      apply plaidRequest_inv in H;
      destruct H as [(? & ? & ?) | (? & ? & ?)]
  | H : call _ _ _ = (_, _) |- _ => apply call_inv in H; destruct H
  | H : lift _ _ = (_, _) |- _ => apply lift_inv in H; destruct H
  | H : ret _ _ = (_, _) |- _ => apply ret_inv in H; destruct H
  | H : throw _ _ = (_, _) |- _ => apply throw_inv in H; destruct H
  | H : failure _ _ _ = (_, _) |- _ => unfold failure in H
  | H : (match ?x with _ => _ end) _ = (_, _) |- _ => destruct x eqn:?
  | H : Normal _ = Normal _ |- _ => inversion H; clear H
  | H : Normal _ = Throw _ |- _ => discriminate H
  | H : Throw _ = Normal _ |- _ => discriminate H
  | H : Throw _ = Throw _ |- _ => inversion H; clear H
  | H : inl _ = inr _ |- _ => discriminate H
  | H : inr _ = inl _ |- _ => discriminate H
  | H : inl _ = inl _ |- _ => inversion H; clear H
  | H : inr _ = inr _ |- _ => inversion H; clear H
  end; subst.

Ltac io_inv := repeat io_step.

Lemma in_singleton_app {A} (x : A) pre e :
  In x (pre ++ [e]) -> In x pre \/ x = e.
Proof.
  intros H. apply in_app_or in H as [H | [H | []]]; auto.
Qed.

End ProxyFacts.

Import Js Token Proxy.
Local Open Scope string_scope.
Local Open Scope list_scope.
Local Open Scope Z_scope.

(** C5, as stated, fails: a request whose X-Preview-Token header is present
    but empty fails verification, and is answered 401, not 403. *)
Lemma C5_empty_header_counterexample :
  header_X_Preview_Token Sample.get_with_empty_token = Some []
  /\ validatePreviewToken Sample.env [] Sample.t0 = Normal None
  /\ run (setupPlaidProxyRoutes Sample.world_plaid_rejects Sample.env Sample.t0
            Transactions Sample.get_with_empty_token)
     = ([], Normal (cors_headers Sample.world_plaid_rejects Sample.env
                      Sample.get_with_empty_token,
                    c_json [("error", Some (JStr (js "Missing preview token")))] 401)).
Proof. repeat split. Qed.

(** C5, amended: on each of the five routes, a request whose
    X-Preview-Token header is absent or empty is answered 401; one whose
    header is present and not empty but fails verification is answered 403.
    Neither makes any outside call. *)
Theorem C5_token_gate (w : World) (env : Env) (now : Z) (ep : endpoint) (req : Request) :
  req_method req = route_method ep ->
  (truthy (header_X_Preview_Token req) = false ->
   run (setupPlaidProxyRoutes w env now ep req)
   = ([], Normal (cors_headers w env req,
                  c_json [("error", Some (JStr (js "Missing preview token")))] 401)))
  /\ (forall previewToken,
        header_X_Preview_Token req = Some previewToken -> previewToken <> [] ->
        validatePreviewToken env previewToken now = Normal None ->
        run (setupPlaidProxyRoutes w env now ep req)
        = ([], Normal (cors_headers w env req,
                       c_json [("error", Some (JStr (js "Invalid preview token")))] 403))).
Proof.
  intros Hm.
  assert (Hroute : forall early,
             (forall t, authenticate env now req t = (t, Normal (inl early))) ->
             run (setupPlaidProxyRoutes w env now ep req)
             = ([], Normal (cors_headers w env req, early))).
  { intros early Hauth.
    unfold run, setupPlaidProxyRoutes, middleware. rewrite Hm.
    destruct ep; cbn [route_method method_eqb handler];
      unfold link_token, exchange_token, transactions, accounts, status_route,
        bindIO; rewrite Hauth; reflexivity. }
  split.
  - intros H. apply Hroute. intros t.
    now apply ProxyFacts.authenticate_missing.
  - intros tok Hh Hne Hv. apply Hroute. intros t.
    now apply ProxyFacts.authenticate_invalid with (previewToken := tok).
Qed.

Lemma C5_token_gate_witness :
  req_method Sample.post_with_bad_token = route_method LinkToken
  /\ header_X_Preview_Token Sample.post_with_bad_token = Some (js "not-a-token")
  /\ js "not-a-token" <> []
  /\ validatePreviewToken Sample.env (js "not-a-token") Sample.t0 = Normal None
  /\ run (setupPlaidProxyRoutes Sample.world_plaid_rejects Sample.env Sample.t0
            LinkToken Sample.post_with_bad_token)
     = ([], Normal (cors_headers Sample.world_plaid_rejects Sample.env
                      Sample.post_with_bad_token,
                    c_json [("error", Some (JStr (js "Invalid preview token")))] 403)).
Proof.
  assert (Hm : req_method Sample.post_with_bad_token = route_method LinkToken)
    by reflexivity.
  assert (Hh : header_X_Preview_Token Sample.post_with_bad_token
               = Some (js "not-a-token")) by reflexivity.
  assert (Hne : js "not-a-token" <> []) by discriminate.
  assert (Hv : validatePreviewToken Sample.env (js "not-a-token") Sample.t0 = Normal None)
    by reflexivity.
  split; [exact Hm|]. split; [exact Hh|]. split; [exact Hne|]. split; [exact Hv|].
  exact (proj2 (C5_token_gate Sample.world_plaid_rejects Sample.env Sample.t0
                  LinkToken Sample.post_with_bad_token Hm)
           (js "not-a-token") Hh Hne Hv).
Defined.

(** C6: on the transactions and accounts routes, for an authenticated
    tenant whose agent holds no access token, the answer is 400 with
    success false and needsConnection true, and no call to Plaid is made. *)
Theorem C6_needs_connection (w : World) (env : Env) (now : Z) (ep : endpoint)
    (req : Request) (agentId : jsstring) (agentStub : AgentStub)
    (accessToken : option jsstring) :
  ep = Transactions \/ ep = Accounts ->
  authenticated env now req agentId ->
  getAgentStub w env agentId = Normal agentStub ->
  getPlaidAccessToken agentStub = Normal accessToken ->
  truthy accessToken = false ->
  exists trace response,
    run (handler w env now ep req) = (trace, Normal response)
    /\ res_status response = 400
    /\ body_field response "success" = Some (JBool false)
    /\ body_field response "needsConnection" = Some (JBool true)
    /\ existsb is_fetch trace = false.
Proof.
  intros Hep Hauth Hstub Hget Hfalsy.
  exists [GetAgentStub agentId; GetPlaidAccessToken agentId], needs_connection.
  split; [|repeat split].
  destruct Hep as [-> | ->]; cbn [handler];
    unfold run, transactions, accounts, bindIO, try_catchIO, call;
    rewrite (ProxyFacts.authenticate_ok _ _ _ _ _ Hauth);
    rewrite Hstub, Hget, Hfalsy; reflexivity.
Qed.

Lemma sample_authenticated (m : method) (body : completion Json) (env : Env) :
  JWT_SECRET env = JWT_SECRET Sample.env ->
  authenticated env Sample.t0 (Sample.request m (Some Sample.token) body) Sample.agent.
Proof.
  intros Hs. exists Sample.token. split; [reflexivity|]. split; [|discriminate].
  destruct env as [secret pe pc ps]. cbn [JWT_SECRET] in Hs. subst secret.
  vm_compute. reflexivity.
Defined.

Lemma C6_needs_connection_witness :
  (Transactions = Transactions \/ Transactions = Accounts)
  /\ authenticated Sample.env Sample.t0 Sample.get_with_token Sample.agent
  /\ getAgentStub Sample.world_unconnected Sample.env Sample.agent
     = Normal Sample.stub_unconnected
  /\ getPlaidAccessToken Sample.stub_unconnected = Normal None
  /\ truthy None = false
  /\ exists trace response,
       run (handler Sample.world_unconnected Sample.env Sample.t0 Transactions
              Sample.get_with_token) = (trace, Normal response)
       /\ res_status response = 400
       /\ body_field response "success" = Some (JBool false)
       /\ body_field response "needsConnection" = Some (JBool true)
       /\ existsb is_fetch trace = false.
Proof.
  assert (Hep : Transactions = Transactions \/ Transactions = Accounts) by (left; reflexivity).
  assert (Hauth : authenticated Sample.env Sample.t0 Sample.get_with_token Sample.agent)
    by (apply sample_authenticated; reflexivity).
  split; [exact Hep|]. split; [exact Hauth|]. repeat (split; [reflexivity|]).
  exact (C6_needs_connection Sample.world_unconnected Sample.env Sample.t0 Transactions
           Sample.get_with_token Sample.agent Sample.stub_unconnected None
           Hep Hauth eq_refl eq_refl eq_refl).
Defined.

(** C7: whenever the exchange-token route answers success, the trace of
    that request shows, in this order, the call to Plaid, the lookup of the
    agent stub and [storePlaidAccessToken] with the access token Plaid
    returned, and the store call completed normally. *)
Theorem C7_store_before_success (w : World) (env : Env) (now : Z) (req : Request)
    (trace : list event) (response : Response) :
  run (exchange_token w env now req) = (trace, Normal response) ->
  body_field response "success" = Some (JBool true) ->
  exists agentId url payload plaid exchanged agentStub access_token item_id,
    trace = [Fetch url payload; GetAgentStub agentId;
             StorePlaidAccessToken agentId access_token item_id]
    /\ fetch w url payload = Normal plaid
    /\ json plaid = Normal exchanged
    /\ get_field exchanged "access_token" = Normal access_token
    /\ getAgentStub w env agentId = Normal agentStub
    /\ storePlaidAccessToken agentStub access_token item_id = Normal tt.
Proof.
  unfold run, exchange_token. intros H Hsuccess.
  ProxyFacts.io_inv; cbn in Hsuccess; try discriminate; try congruence.
  destruct (fetch w _ _) as [plaid|] eqn:Hfetch; [|discriminate].
  destruct (ok plaid); [|discriminate].
  match goal with u : unit |- _ => destruct u end.
  do 8 eexists. split; [reflexivity|]. repeat split; eauto.
Qed.

Lemma C7_store_before_success_witness :
  exists trace response,
    run (exchange_token Sample.world_unconnected Sample.env Sample.t0 Sample.post_exchange)
    = (trace, Normal response)
    /\ body_field response "success" = Some (JBool true)
    /\ exists agentId url payload plaid exchanged agentStub access_token item_id,
         trace = [Fetch url payload; GetAgentStub agentId;
                  StorePlaidAccessToken agentId access_token item_id]
         /\ fetch Sample.world_unconnected url payload = Normal plaid
         /\ json plaid = Normal exchanged
         /\ get_field exchanged "access_token" = Normal access_token
         /\ getAgentStub Sample.world_unconnected Sample.env agentId = Normal agentStub
         /\ storePlaidAccessToken agentStub access_token item_id = Normal tt.
Proof.
  eexists. eexists.
  assert (Hrun : run (exchange_token Sample.world_unconnected Sample.env Sample.t0
                        Sample.post_exchange)
                 = ([Fetch (js "https://sandbox.plaid.com/item/public_token/exchange")
                       (plaid_payload Sample.env
                          [("public_token", Some (JStr (js "public-sandbox-1")))]);
                     GetAgentStub Sample.agent;
                     StorePlaidAccessToken Sample.agent
                       (Some (JStr (js "access-sandbox-1"))) (Some (JStr (js "item-1")))],
                    Normal (c_json [("success", Some (JBool true));
                                    ("item_id", Some (JStr (js "item-1")))] 200)))
    by (vm_compute; reflexivity).
  assert (Hsuccess : body_field (c_json [("success", Some (JBool true));
                                         ("item_id", Some (JStr (js "item-1")))] 200)
                       "success" = Some (JBool true)) by reflexivity.
  split; [exact Hrun|]. split; [exact Hsuccess|].
  exact (C7_store_before_success Sample.world_unconnected Sample.env Sample.t0
           Sample.post_exchange _ _ Hrun Hsuccess).
Defined.

(** C8, as stated, fails: Plaid answers the transactions call of a
    connected, authenticated tenant with HTTP 400 (invalid access token),
    and the proxy answers 500, with no needsConnection. *)
Lemma C8_provider_4xx_counterexample :
  status Sample.plaid_invalid_token = 400
  /\ run (transactions Sample.world_plaid_rejects Sample.env Sample.t0 Sample.get_with_token)
     = ([GetAgentStub Sample.agent; GetPlaidAccessToken Sample.agent;
         Fetch (js "https://sandbox.plaid.com/transactions/sync")
           (plaid_payload Sample.env
              [("access_token", Some (JStr (js "access-sandbox-1")))])],
        Normal (c_json [("success", Some (JBool false));
                        ("error", Some (JStr (js "access token is invalid")))] 500)).
Proof. split; vm_compute; reflexivity. Qed.

(** C8, amended: on every route, when the call to Plaid is answered with a
    4xx status, the proxy answers HTTP 500 with success false and, as
    error, the message of the exception [plaidRequest] throws (Plaid's
    error_message, or "Plaid API error: <status>"); the body carries no
    needsConnection. *)
Theorem C8_provider_4xx_is_500 (w : World) (env : Env) (now : Z) (ep : endpoint)
    (req : Request) (trace : list event) (outcome : completion Response)
    (url : jsstring) (payload : Json) (plaid : HttpResponse) :
  run (handler w env now ep req) = (trace, outcome) ->
  In (Fetch url payload) trace ->
  fetch w url payload = Normal plaid ->
  400 <= status plaid <= 499 ->
  exists response fallback,
    outcome = Normal response
    /\ res_status response = 500
    /\ body_field response "success" = Some (JBool false)
    /\ body_field response "error" = Some (JStr (message_or (plaid_failure plaid) fallback))
    /\ body_field response "needsConnection" = None.
Proof.
  intros H Hin Hfetch Hstatus.
  assert (Hok : ok plaid = false).
  { unfold ok. destruct (Z.leb_spec (status plaid) 299); [lia|]. apply andb_false_r. }
  destruct ep; cbn [handler] in H;
    unfold run, link_token, exchange_token, transactions, accounts, status_route in H;
    ProxyFacts.io_inv;
    repeat match goal with
           | Hi : In _ (_ ++ [_]) |- _ =>
               apply ProxyFacts.in_singleton_app in Hi; destruct Hi as [Hi | Hi]
           | Hi : In _ [] |- _ => destruct Hi
           | Hi : Fetch _ _ = _ |- _ => inversion Hi; clear Hi; subst
           end;
    repeat match goal with
           | Hf : fetch ?w ?u ?p = Normal _, Hm : context [fetch ?w ?u ?p] |- _ =>
               rewrite Hf, Hok in Hm
           end;
    try discriminate;
    match goal with He : Throw _ = Throw _ |- _ => inversion He; subst end;
    do 2 eexists; (split; [reflexivity|]); repeat split.
Qed.

Lemma C8_provider_4xx_is_500_witness :
  run (handler Sample.world_plaid_rejects Sample.env Sample.t0 Transactions
         Sample.get_with_token)
  = ([GetAgentStub Sample.agent; GetPlaidAccessToken Sample.agent;
      Fetch (js "https://sandbox.plaid.com/transactions/sync")
        (plaid_payload Sample.env [("access_token", Some (JStr (js "access-sandbox-1")))])],
     Normal (c_json [("success", Some (JBool false));
                     ("error", Some (JStr (js "access token is invalid")))] 500))
  /\ fetch Sample.world_plaid_rejects (js "https://sandbox.plaid.com/transactions/sync")
       (plaid_payload Sample.env [("access_token", Some (JStr (js "access-sandbox-1")))])
     = Normal Sample.plaid_invalid_token
  /\ In (Fetch (js "https://sandbox.plaid.com/transactions/sync")
        (plaid_payload Sample.env [("access_token", Some (JStr (js "access-sandbox-1")))]))
     [GetAgentStub Sample.agent; GetPlaidAccessToken Sample.agent;
      Fetch (js "https://sandbox.plaid.com/transactions/sync")
        (plaid_payload Sample.env [("access_token", Some (JStr (js "access-sandbox-1")))])]
  /\ 400 <= status Sample.plaid_invalid_token <= 499
  /\ exists response fallback,
       Normal (c_json [("success", Some (JBool false));
                       ("error", Some (JStr (js "access token is invalid")))] 500)
       = Normal response
       /\ res_status response = 500
       /\ body_field response "success" = Some (JBool false)
       /\ body_field response "error"
          = Some (JStr (message_or (plaid_failure Sample.plaid_invalid_token) fallback))
       /\ body_field response "needsConnection" = None.
Proof.
  assert (Hrun : run (handler Sample.world_plaid_rejects Sample.env Sample.t0
                        Transactions Sample.get_with_token)
                 = ([GetAgentStub Sample.agent; GetPlaidAccessToken Sample.agent;
                     Fetch (js "https://sandbox.plaid.com/transactions/sync")
                       (plaid_payload Sample.env
                          [("access_token", Some (JStr (js "access-sandbox-1")))])],
                    Normal (c_json [("success", Some (JBool false));
                                    ("error", Some (JStr (js "access token is invalid")))]
                              500)))
    by (vm_compute; reflexivity).
  assert (Hin : In (Fetch (js "https://sandbox.plaid.com/transactions/sync")
                      (plaid_payload Sample.env
                         [("access_token", Some (JStr (js "access-sandbox-1")))]))
                   [GetAgentStub Sample.agent; GetPlaidAccessToken Sample.agent;
                    Fetch (js "https://sandbox.plaid.com/transactions/sync")
                      (plaid_payload Sample.env
                         [("access_token", Some (JStr (js "access-sandbox-1")))])])
    by (right; right; left; reflexivity).
  assert (Hstatus : 400 <= status Sample.plaid_invalid_token <= 499)
    by (cbn [status Sample.plaid_invalid_token]; lia).
  split; [exact Hrun|]. split; [reflexivity|].
  split; [exact Hin|]. split; [exact Hstatus|].
  exact (C8_provider_4xx_is_500 Sample.world_plaid_rejects Sample.env Sample.t0
           Transactions Sample.get_with_token _ _ _ _ Sample.plaid_invalid_token
           Hrun Hin eq_refl Hstatus).
Defined.

(** The link-token route never answers needsConnection and never consults
    the agent, whatever the request. *)
Lemma link_token_never_needs_connection w env now req :
  exists trace response,
    run (link_token w env now req) = (trace, Normal response)
    /\ body_field response "needsConnection" = None
    /\ forallb is_fetch trace = true.
Proof.
  destruct (run (link_token w env now req)) as [trace outcome] eqn:H.
  unfold run, link_token in H.
  ProxyFacts.io_inv; do 2 eexists; (split; [reflexivity|]); split;
    try reflexivity; try assumption;
    repeat match goal with x : option Json |- _ => destruct x end; reflexivity.
Qed.

(** C10: the link-token route asks for nothing but a valid preview token.
    For an authenticated request it never looks up the agent or its stored
    access token: with the platform credentials set, its one outside call is
    the POST to /link/token/create carrying them; without them it makes no
    call and answers 500 with success false.  It never answers
    needsConnection. *)
Theorem C10_link_token (w : World) (env : Env) (now : Z) (req : Request)
    (agentId : jsstring) :
  authenticated env now req agentId ->
  exists trace response,
    run (link_token w env now req) = (trace, Normal response)
    /\ body_field response "needsConnection" = None
    /\ (if plaid_configured env
        then trace = [Fetch (getPlaidBaseUrl env ++ js "/link/token/create")
                        (plaid_payload env
                           [("user", Some (JObj [("client_user_id", JStr agentId)]));
                            ("client_name", Some (JStr (js "VibeSDK Preview")));
                            ("products", Some (JArr [JStr (js "transactions")]));
                            ("country_codes", Some (JArr [JStr (js "US")]));
                            ("language", Some (JStr (js "en")))])]
        else trace = []
             /\ response = c_json [("success", Some (JBool false));
                                   ("error", Some (JStr (js "Plaid credentials not configured")))]
                              500).
Proof.
  intros Hauth.
  destruct (link_token_never_needs_connection w env now req)
    as (trace & response & Hrun & Hnc & _).
  exists trace, response. split; [assumption|]. split; [assumption|].
  unfold run, link_token, bindIO at 1 in Hrun.
  rewrite (ProxyFacts.authenticate_ok _ _ _ _ _ Hauth) in Hrun.
  ProxyFacts.io_inv;
    match goal with Hc : plaid_configured env = _ |- _ => rewrite Hc end;
    auto.
Qed.

Lemma C10_link_token_witness :
  authenticated Sample.env_no_plaid Sample.t0 Sample.post_link_token Sample.agent
  /\ exists trace response,
       run (link_token Sample.world_unconnected Sample.env_no_plaid Sample.t0
              Sample.post_link_token) = (trace, Normal response)
       /\ body_field response "needsConnection" = None
       /\ trace = []
       /\ response = c_json [("success", Some (JBool false));
                             ("error", Some (JStr (js "Plaid credentials not configured")))]
                        500.
Proof.
  assert (Hauth : authenticated Sample.env_no_plaid Sample.t0 Sample.post_link_token
                    Sample.agent) by (apply sample_authenticated; reflexivity).
  split; [exact Hauth|].
  exact (C10_link_token Sample.world_unconnected Sample.env_no_plaid Sample.t0
           Sample.post_link_token Sample.agent Hauth).
Defined.

(* ================================================================== *)
(** ** The configuration phase *)

Module ConfigurationFacts.
Import Js Configuration.

Section Agent.
Variable Blueprint : Type.
Variable detectRequiredServices : Blueprint -> list jsstring.
Variable has : jsstring -> bool.
Variable getServiceDisplayName : jsstring -> jsstring.
Variable getServiceAuthType : jsstring -> AuthType.

Local Abbreviation execute :=
  (executeConfigurationPhase detectRequiredServices has
     getServiceDisplayName getServiceAuthType).
Local Abbreviation requests :=
  (gate_requests detectRequiredServices has
     getServiceDisplayName getServiceAuthType).
Local Abbreviation missing := (unconfigured detectRequiredServices has).

(** One request with a service still unconfigured: one card with the id
    [config-<now>], and the pending configuration replaced by a new one,
    whatever was pending before. *)
Lemma execute_unconfigured (st : PhasicState Blueprint) (now : Z) :
  missing st <> [] ->
  execute st now
  = (IDLE,
     {| blueprint := blueprint st;
        pendingConfiguration :=
          Some {| requiredServices := missing st;
                  configuredServices := [];
                  configCardId := js "config-" ++ toString now |} |},
     [card getServiceDisplayName getServiceAuthType
        (js "config-" ++ toString now) (missing st)]).
Proof.
  unfold executeConfigurationPhase.
  destruct (unconfigured detectRequiredServices has st); [contradiction|reflexivity].
Qed.

Lemma execute_configured (st : PhasicState Blueprint) (now : Z) :
  missing st = [] -> execute st now = (PHASE_GENERATING, st, []).
Proof.
  unfold executeConfigurationPhase. now intros ->.
Qed.

Lemma requests_cards (times : list Z) : forall st : PhasicState Blueprint,
  missing st <> [] ->
  map cardId (snd (requests st times))
  = map (fun now => js "config-" ++ toString now) times.
Proof.
  induction times as [|now later IH]; intros st Hst; [reflexivity|].
  cbn [gate_requests]. rewrite execute_unconfigured by assumption.
  match goal with
  | |- context [gate_requests _ _ _ _ ?s later] =>
      specialize (IH s Hst); destruct (gate_requests _ _ _ _ s later) as [st'' sent']
  end.
  cbn [snd map app cardId card] in *. now rewrite IH.
Qed.

Lemma requests_pending (times : list Z) : forall st : PhasicState Blueprint,
  missing st <> [] -> times <> [] ->
  pendingConfiguration (fst (requests st times))
  = Some {| requiredServices := missing st;
            configuredServices := [];
            configCardId := js "config-" ++ toString (last times 0) |}.
Proof.
  induction times as [|now later IH]; intros st Hst Hne; [contradiction|].
  cbn [gate_requests]. rewrite execute_unconfigured by assumption.
  destruct later as [|next later'].
  - reflexivity.
  - match goal with
    | |- context [gate_requests _ _ _ _ ?s (next :: later')] =>
        specialize (IH s Hst ltac:(discriminate));
          destruct (gate_requests _ _ _ _ s (next :: later')) as [st'' sent']
    end.
    cbn [fst] in *. rewrite IH. reflexivity.
Qed.

End Agent.

End ConfigurationFacts.

Import Configuration.

(** C9, as stated, fails: the agent awaits configuration with the card
    config-1700000000000 pending; a second gate request one minute later
    broadcasts another card, with the id config-1700000060000, and the
    pending configuration now carries that id. *)
Lemma C9_second_gate_counterexample :
  executeConfigurationPhase Sample.detect_plaid Sample.no_secret Sample.display_name
    Sample.auth_type Sample.agent_idle Sample.t0
  = (IDLE, Sample.agent_awaiting (js "config-1700000000000"),
     [card Sample.display_name Sample.auth_type (js "config-1700000000000") [js "plaid"]])
  /\ executeConfigurationPhase Sample.detect_plaid Sample.no_secret Sample.display_name
       Sample.auth_type (Sample.agent_awaiting (js "config-1700000000000"))
       (Sample.t0 + 60000)
     = (IDLE, Sample.agent_awaiting (js "config-1700000060000"),
        [card Sample.display_name Sample.auth_type (js "config-1700000060000") [js "plaid"]]).
Proof. split; vm_compute; reflexivity. Qed.

(** C9, amended: the agent state holds at most one pending configuration,
    but a gate request is never a no-op while a required service lacks a
    secret: each of a series of requests broadcasts one card with the fresh
    id config-<now>, and the pending configuration is the one of the latest
    request. *)
Theorem C9_gate_requests_reissue (Blueprint : Type)
    (detectRequiredServices : Blueprint -> list jsstring) (has : jsstring -> bool)
    (getServiceDisplayName : jsstring -> jsstring)
    (getServiceAuthType : jsstring -> AuthType)
    (st : PhasicState Blueprint) (times : list Z) :
  unconfigured detectRequiredServices has st <> [] -> times <> [] ->
  map cardId (snd (gate_requests detectRequiredServices has getServiceDisplayName
                     getServiceAuthType st times))
  = map (fun now => js "config-" ++ toString now) times
  /\ pendingConfiguration
       (fst (gate_requests detectRequiredServices has getServiceDisplayName
               getServiceAuthType st times))
     = Some {| requiredServices := unconfigured detectRequiredServices has st;
               configuredServices := [];
               configCardId := js "config-" ++ toString (last times 0) |}.
Proof.
  intros Hst Hne. split.
  - now apply ConfigurationFacts.requests_cards.
  - now apply ConfigurationFacts.requests_pending.
Qed.

Lemma C9_gate_requests_reissue_witness :
  unconfigured Sample.detect_plaid Sample.no_secret
    (Sample.agent_awaiting (js "config-1700000000000")) <> []
  /\ [Sample.t0 + 60000; Sample.t0 + 120000] <> []
  /\ map cardId
       (snd (gate_requests Sample.detect_plaid Sample.no_secret Sample.display_name
               Sample.auth_type (Sample.agent_awaiting (js "config-1700000000000"))
               [Sample.t0 + 60000; Sample.t0 + 120000]))
     = [js "config-1700000060000"; js "config-1700000120000"]
  /\ pendingConfiguration
       (fst (gate_requests Sample.detect_plaid Sample.no_secret Sample.display_name
               Sample.auth_type (Sample.agent_awaiting (js "config-1700000000000"))
               [Sample.t0 + 60000; Sample.t0 + 120000]))
     = pendingConfiguration (Sample.agent_awaiting (js "config-1700000120000")).
Proof.
  assert (Hst : unconfigured Sample.detect_plaid Sample.no_secret
                  (Sample.agent_awaiting (js "config-1700000000000")) <> [])
    by discriminate.
  assert (Hne : [Sample.t0 + 60000; Sample.t0 + 120000] <> []) by discriminate.
  split; [exact Hst|]. split; [exact Hne|].
  exact (C9_gate_requests_reissue unit Sample.detect_plaid Sample.no_secret
           Sample.display_name Sample.auth_type
           (Sample.agent_awaiting (js "config-1700000000000"))
           [Sample.t0 + 60000; Sample.t0 + 120000] Hst Hne).
Defined.

(* ================================================================== *)
(** ** More on the token codec *)

Module TokenMore.
Import Js Token JsFacts TokenSpec.

Lemma str_eqb_true a b : str_eqb a b = true -> a = b.
Proof.
  revert b; induction a as [|x a IH]; intros [|y b]; simpl; try discriminate; auto.
  intros H. apply andb_prop in H as [Hxy Hab].
  apply Z.eqb_eq in Hxy. subst. f_equal. auto.
Qed.

Lemma split_nonempty sep s : split sep s <> [].
Proof.
  destruct s as [|c r]; simpl; [discriminate|].
  destruct (c =? sep); [discriminate|].
  destruct (split sep r); discriminate.
Qed.

Lemma validate_accepts env token now agentId :
  validatePreviewToken env token now = Normal (Some agentId)
  <-> accepts env token now agentId.
Proof.
  unfold accepts. split.
  - unfold validatePreviewToken.
    destruct token as [|c0 tok]; [discriminate|].
    unfold validate_try.
    destruct (split 46 (c0 :: tok)) as [|e [|ts [|sg [|x r]]]] eqn:Hsplit;
      cbn [try_catch];
      try discriminate.
    destruct (atob e) as [a|ex] eqn:Hatob; cbn [bind try_catch]; [|discriminate].
    destruct (isNaN (parseInt10 ts)) eqn:Hnan; cbn [orb try_catch]; [discriminate|].
    destruct (num_gt (num_sub now (parseInt10 ts)) maxAge) eqn:Hage;
      cbn [try_catch]; [discriminate|].
    destruct (JWT_SECRET env) as [[|c secret]|] eqn:Hsec; cbn [try_catch];
      try discriminate.
    destruct (signatureBase64 (c :: secret) a ts) as [expected|ex] eqn:Hsig;
      cbn [bind try_catch]; [|discriminate].
    destruct (str_eqb sg expected) eqn:Heq; cbn [negb try_catch]; [|discriminate].
    intros H. inversion H; subst a.
    apply str_eqb_true in Heq. subst expected.
    exists e, ts, sg, (c :: secret).
    repeat match goal with |- _ /\ _ => split end; auto. discriminate.
  - intros (e & ts & sg & secret & Hsplit & Hatob & Hnan & Hage & Hsec & Hne & Hsig).
    rewrite TokenFacts.validate_nonempty.
    2:{ intros ->. cbn in Hsplit. discriminate. }
    unfold validate_try. rewrite Hsplit, Hatob. cbn [bind].
    rewrite Hnan, Hage. cbn [orb]. rewrite Hsec.
    destruct secret as [|c secret]; [contradiction|].
    rewrite Hsig. cbn [bind]. rewrite str_eqb_refl. reflexivity.
Qed.

(** The age test only loosens as the clock goes back. *)
Lemma age_monotone now now' tokenTime :
  now' <= now ->
  num_gt (num_sub now tokenTime) maxAge = false ->
  num_gt (num_sub now' tokenTime) maxAge = false.
Proof.
  intros Hle. destruct tokenTime as [|neg|t]; cbn [num_sub]; auto.
  rewrite !num_gt_round by (unfold maxAge; lia).
  intros H. apply Z.ltb_ge in H. apply Z.ltb_ge. lia.
Qed.

Lemma unconfigured_rejects env token now :
  truthy (JWT_SECRET env) = false ->
  validatePreviewToken env token now = Normal None.
Proof.
  intros Hsec.
  destruct (TokenFacts.validate_total env token now) as [[a|] H]; [|assumption].
  apply validate_accepts in H as (e & ts & sg & secret & _ & _ & _ & _ & Hs & Hne & _).
  rewrite Hs in Hsec. destruct secret; [contradiction|discriminate].
Qed.

Lemma unconfigured_throws env agentId now :
  truthy (JWT_SECRET env) = false ->
  exists e, generatePreviewToken env agentId now = Throw e.
Proof.
  intros Hsec. unfold generatePreviewToken.
  destruct (btoa agentId); cbn [bind]; [|eauto].
  destruct (JWT_SECRET env) as [[|c s]|]; try discriminate; eauto.
Qed.

(** *** Sizes *)

Lemma be_bytes_length n x : List.length (SHA256.be_bytes n x) = n.
Proof. induction n; cbn [SHA256.be_bytes List.length]; congruence. Qed.

Lemma sha256_length msg : List.length (SHA256.sha256 msg) = 32%nat.
Proof.
  unfold SHA256.sha256. cbv zeta.
  destruct (fold_left SHA256.compress _ SHA256.H0)
    as [[[[[[[a b] c] d] e] f] g] h].
  cbn [flat_map]. rewrite !length_app, !be_bytes_length. reflexivity.
Qed.

Lemma hmac_sha256_length key msg : List.length (SHA256.hmac_sha256 key msg) = 32%nat.
Proof. unfold SHA256.hmac_sha256. apply sha256_length. Qed.

(** [btoa] yields four characters for every three bytes, rounded up. *)
Lemma btoa_length s e :
  btoa s = Normal e ->
  Z.of_nat (List.length e) = 4 * ((Z.of_nat (List.length s) + 2) / 3).
Proof.
  unfold btoa. destruct (existsb _ s); [discriminate|].
  intros H. inversion H; subst e. clear H.
  rewrite length_app, length_map, Nat2Z.inj_add.
  unfold padding. cbv zeta.
  induction s as [| a | a b | a b c r IH] using list_ind3.
  - reflexivity.
  - reflexivity.
  - reflexivity.
  - cbn [sextets List.length] in *. rewrite !Nat2Z.inj_succ in *.
    revert IH.
    destruct (Z.eqb_spec (Z.of_nat (List.length r) mod 3) 1) as [E1|E1];
      destruct (Z.eqb_spec (Z.succ (Z.succ (Z.succ (Z.of_nat (List.length r)))) mod 3) 1);
      try euclid;
      destruct (Z.eqb_spec (Z.of_nat (List.length r) mod 3) 2) as [E2|E2];
      destruct (Z.eqb_spec (Z.succ (Z.succ (Z.succ (Z.of_nat (List.length r)))) mod 3) 2);
      cbn [List.length]; try euclid.
Qed.

Lemma btoa_chars s e :
  latin1 s -> btoa s = Normal e ->
  Forall (fun c => 43 <= c <= 122 /\ c <> 46) e.
Proof.
  intros Hs. unfold btoa. destruct (existsb _ s); [discriminate|].
  intros H. inversion H; subst e. clear H.
  apply Forall_app. split.
  - apply Forall_map. eapply Forall_impl; [|apply sextets_range; exact Hs].
    intros i Hi. pose proof (b64_char_range i Hi). tauto.
  - unfold padding. cbv zeta. bool_cases; repeat constructor; lia.
Qed.

Lemma latin1_of_generated env agentId now token :
  well_formed agentId ->
  generatePreviewToken env agentId now = Normal token ->
  latin1 agentId.
Proof.
  intros Hwf Hgen.
  destruct (TokenFacts.generate_inv _ _ _ _ Hgen) as [_ Hle].
  unfold latin1, well_formed in *. rewrite Forall_forall in *.
  intros c Hc. specialize (Hwf c Hc). specialize (Hle c Hc). lia.
Qed.

Lemma toString_chars z : Forall (fun c => 45 <= c <= 57) (toString z).
Proof.
  assert (H : forall d, Forall (fun c => 45 <= c <= 57) (uint_units d)).
  { intros d. eapply Forall_impl; [|apply uint_units_digits]. simpl. intros; lia. }
  unfold toString. destruct (Z.to_int z); [apply H|].
  constructor; [lia|apply H].
Qed.

(** The shape of an issued token. *)
Lemma generate_shape env agentId now token :
  well_formed agentId ->
  generatePreviewToken env agentId now = Normal token ->
  exists encodedAgentId signature,
    token = encodedAgentId ++ 46 :: toString now ++ 46 :: signature
    /\ split 46 token = [encodedAgentId; toString now; signature]
    /\ btoa agentId = Normal encodedAgentId
    /\ Z.of_nat (List.length encodedAgentId)
       = 4 * ((Z.of_nat (List.length agentId) + 2) / 3)
    /\ List.length signature = 44%nat
    /\ Forall (fun c => 43 <= c <= 122) token.
Proof.
  intros Hwf Hgen.
  pose proof (latin1_of_generated _ _ _ _ Hwf Hgen) as Hlat.
  unfold generatePreviewToken in Hgen.
  destruct (btoa agentId) as [e|] eqn:Hb; cbn [bind] in Hgen; [|discriminate].
  destruct (JWT_SECRET env) as [[|c secret]|]; try discriminate.
  unfold signatureBase64 in Hgen.
  destruct (btoa (SHA256.hmac_sha256 _ _)) as [sg|] eqn:Hs; cbn [bind] in Hgen;
    [|discriminate].
  inversion Hgen; subst token. clear Hgen.
  pose proof (btoa_chars _ _ Hlat Hb) as He.
  pose proof (btoa_chars _ _ (hmac_sha256_bytes _ _) Hs) as Hsg.
  exists e, sg. split; [reflexivity|]. split; [|split; [reflexivity|split; [|split]]].
  - rewrite split_app, split_app, split_no_sep; [reflexivity|..].
    + intros Hin. rewrite Forall_forall in Hsg. apply Hsg in Hin. lia.
    + apply toString_no_dot.
    + intros Hin. rewrite Forall_forall in He. apply He in Hin. lia.
  - now apply btoa_length.
  - apply btoa_length in Hs. rewrite hmac_sha256_length in Hs.
    change (4 * ((Z.of_nat 32 + 2) / 3)) with 44 in Hs. lia.
  - apply Forall_app. split.
    + eapply Forall_impl; [|exact He]. simpl. intros; lia.
    + constructor; [lia|]. apply Forall_app. split.
      * eapply Forall_impl; [|apply toString_chars]. simpl. intros; lia.
      * constructor; [lia|]. eapply Forall_impl; [|exact Hsg]. simpl. intros; lia.
Qed.

End TokenMore.

Import Js Token.


(** X2: replacing the signature part of an accepted token by any other
    string makes the verifier answer [null], at every time. *)
Theorem X2_tampered_signature_rejected (env : Env) (token forged : jsstring)
    (now now' : Z) (agentId e ts sg sg' : jsstring) :
  validatePreviewToken env token now = Normal (Some agentId) ->
  split 46 token = [e; ts; sg] ->
  split 46 forged = [e; ts; sg'] ->
  sg' <> sg ->
  validatePreviewToken env forged now' = Normal None.
Proof.
  intros Hv Hs Hs' Hne.
  destruct (TokenFacts.validate_total env forged now') as [[b|] H]; [|assumption].
  exfalso.
  apply TokenMore.validate_accepts in Hv
    as (e1 & ts1 & sg1 & s1 & Hsp1 & Ha1 & _ & _ & Hsec1 & _ & Hsig1).
  apply TokenMore.validate_accepts in H
    as (e2 & ts2 & sg2 & s2 & Hsp2 & Ha2 & _ & _ & Hsec2 & _ & Hsig2).
  rewrite Hs in Hsp1. rewrite Hs' in Hsp2.
  inversion Hsp1; inversion Hsp2; subst.
  assert (b = agentId) by congruence. assert (s2 = s1) by congruence. subst.
  congruence.
Qed.

Lemma X2_tampered_signature_rejected_witness :
  validatePreviewToken Sample.env Sample.token Sample.t0 = Normal (Some Sample.agent)
  /\ split 46 Sample.token
     = [js "YWdlbnQtMQ=="; js "1700000000000";
        js "MRZywKhpWnlyFETo++CRugxNMh9DmpM+L5NJgS+/3q4="]
  /\ split 46 (js "YWdlbnQtMQ==.1700000000000.AAAA")
     = [js "YWdlbnQtMQ=="; js "1700000000000"; js "AAAA"]
  /\ js "AAAA" <> js "MRZywKhpWnlyFETo++CRugxNMh9DmpM+L5NJgS+/3q4="
  /\ validatePreviewToken Sample.env (js "YWdlbnQtMQ==.1700000000000.AAAA")
       (Sample.t0 + 5) = Normal None.
Proof.
  assert (Hv : validatePreviewToken Sample.env Sample.token Sample.t0
               = Normal (Some Sample.agent)) by (vm_compute; reflexivity).
  assert (Hs : split 46 Sample.token
               = [js "YWdlbnQtMQ=="; js "1700000000000";
                  js "MRZywKhpWnlyFETo++CRugxNMh9DmpM+L5NJgS+/3q4="])
    by (vm_compute; reflexivity).
  assert (Hs' : split 46 (js "YWdlbnQtMQ==.1700000000000.AAAA")
                = [js "YWdlbnQtMQ=="; js "1700000000000"; js "AAAA"])
    by (vm_compute; reflexivity).
  assert (Hne : js "AAAA" <> js "MRZywKhpWnlyFETo++CRugxNMh9DmpM+L5NJgS+/3q4=")
    by (vm_compute; discriminate).
  split; [exact Hv|]. split; [exact Hs|]. split; [exact Hs'|]. split; [exact Hne|].
  exact (X2_tampered_signature_rejected Sample.env Sample.token _ Sample.t0
           (Sample.t0 + 5) Sample.agent _ _ _ _ Hv Hs Hs' Hne).
Defined.

(** X3: without a signing secret (absent or empty) the codec fails closed:
    every verification answers [null] and no issuance returns a token. *)
Theorem X3_no_secret_fails_closed (env : Env) :
  truthy (JWT_SECRET env) = false ->
  (forall token now, validatePreviewToken env token now = Normal None)
  /\ (forall agentId now, exists e, generatePreviewToken env agentId now = Throw e).
Proof.
  intros H. split.
  - intros token now. now apply TokenMore.unconfigured_rejects.
  - intros agentId now. now apply TokenMore.unconfigured_throws.
Qed.

Lemma X3_no_secret_fails_closed_witness :
  truthy (JWT_SECRET Sample.env_empty_secret) = false
  /\ (forall token now,
        validatePreviewToken Sample.env_empty_secret token now = Normal None)
  /\ (forall agentId now,
        exists e, generatePreviewToken Sample.env_empty_secret agentId now = Throw e).
Proof.
  split; [reflexivity|].
  exact (X3_no_secret_fails_closed Sample.env_empty_secret eq_refl).
Defined.

(** X4: a token accepted at some time is accepted at every earlier time;
    put the other way, a token once too old stays rejected. *)
Theorem X4_accepted_at_earlier_times (env : Env) (token : jsstring) (now now' : Z)
    (agentId : jsstring) :
  validatePreviewToken env token now = Normal (Some agentId) ->
  now' <= now ->
  validatePreviewToken env token now' = Normal (Some agentId).
Proof.
  intros Hv Hle.
  apply TokenMore.validate_accepts in Hv
    as (e & ts & sg & s & Hsp & Ha & Hnan & Hage & Hsec & Hne & Hsig).
  apply TokenMore.validate_accepts. exists e, ts, sg, s.
  repeat match goal with |- _ /\ _ => split end; auto.
  now apply TokenMore.age_monotone with (now := now).
Qed.

Lemma X4_accepted_at_earlier_times_witness :
  validatePreviewToken Sample.env Sample.token (Sample.t0 + 1000)
  = Normal (Some Sample.agent)
  /\ Sample.t0 - 5000 <= Sample.t0 + 1000
  /\ validatePreviewToken Sample.env Sample.token (Sample.t0 - 5000)
     = Normal (Some Sample.agent).
Proof.
  assert (Hv : validatePreviewToken Sample.env Sample.token (Sample.t0 + 1000)
               = Normal (Some Sample.agent)) by (vm_compute; reflexivity).
  assert (Hle : Sample.t0 - 5000 <= Sample.t0 + 1000) by lia.
  split; [exact Hv|]. split; [exact Hle|].
  exact (X4_accepted_at_earlier_times Sample.env Sample.token _ _ Sample.agent Hv Hle).
Defined.

(** X5: an issued token is [base64(tenant id) . decimal timestamp .
    signature]: it splits back into exactly these three parts, the tenant
    part has four characters per three code units (rounded up), the
    signature has 44, and every character lies between '+' and 'z'. *)
Theorem X5_issued_token_shape (env : Env) (agentId : jsstring) (now : Z)
    (token : jsstring) :
  well_formed agentId ->
  generatePreviewToken env agentId now = Normal token ->
  exists encodedAgentId signature,
    token = encodedAgentId ++ 46 :: toString now ++ 46 :: signature
    /\ split 46 token = [encodedAgentId; toString now; signature]
    /\ btoa agentId = Normal encodedAgentId
    /\ Z.of_nat (List.length encodedAgentId)
       = 4 * ((Z.of_nat (List.length agentId) + 2) / 3)
    /\ List.length signature = 44%nat
    /\ Forall (fun c => 43 <= c <= 122) token.
Proof. apply TokenMore.generate_shape. Qed.

Lemma X5_issued_token_shape_witness :
  well_formed Sample.agent
  /\ generatePreviewToken Sample.env Sample.agent Sample.t0 = Normal Sample.token
  /\ exists encodedAgentId signature,
       Sample.token = encodedAgentId ++ 46 :: toString Sample.t0 ++ 46 :: signature
       /\ split 46 Sample.token = [encodedAgentId; toString Sample.t0; signature]
       /\ btoa Sample.agent = Normal encodedAgentId
       /\ Z.of_nat (List.length encodedAgentId)
          = 4 * ((Z.of_nat (List.length Sample.agent) + 2) / 3)
       /\ List.length signature = 44%nat
       /\ Forall (fun c => 43 <= c <= 122) Sample.token.
Proof.
  assert (Hw : well_formed Sample.agent).
  { unfold well_formed. vm_compute. repeat constructor; discriminate. }
  assert (Hg : generatePreviewToken Sample.env Sample.agent Sample.t0 = Normal Sample.token)
    by (vm_compute; reflexivity).
  split; [exact Hw|]. split; [exact Hg|].
  exact (X5_issued_token_shape Sample.env Sample.agent Sample.t0 Sample.token Hw Hg).
Defined.

(** X6: a token names one tenant and one issuance time: if issuing for two
    tenants at two times returns the same token, the tenants and the times
    are equal. *)
Theorem X6_token_names_one_tenant (env : Env) (a b : jsstring) (t t' : Z)
    (token : jsstring) :
  well_formed a -> well_formed b -> time_value t -> time_value t' ->
  generatePreviewToken env a t = Normal token ->
  generatePreviewToken env b t' = Normal token ->
  a = b /\ t = t'.
Proof.
  intros Ha Hb Ht Ht' Ga Gb.
  pose proof (TokenMore.latin1_of_generated _ _ _ _ Ha Ga) as La.
  pose proof (TokenMore.latin1_of_generated _ _ _ _ Hb Gb) as Lb.
  destruct (TokenFacts.generate_inv _ _ _ _ Ga) as [Hconf _].
  destruct (TokenFacts.verify_issued env a t Hconf La Ht) as (ta & Ga' & Tsa & Va).
  destruct (TokenFacts.verify_issued env b t' Hconf Lb Ht') as (tb & Gb' & Tsb & Vb).
  assert (ta = token) by congruence. assert (tb = token) by congruence. subst ta tb.
  assert (t = t') by congruence. subst t'. split; [|reflexivity].
  specialize (Va t). specialize (Vb t). rewrite Z.sub_diag in *.
  cbn in Va, Vb. congruence.
Qed.

Lemma X6_token_names_one_tenant_witness :
  well_formed Sample.agent /\ time_value Sample.t0
  /\ generatePreviewToken Sample.env Sample.agent Sample.t0 = Normal Sample.token
  /\ Sample.agent = Sample.agent /\ Sample.t0 = Sample.t0.
Proof.
  assert (Hw : well_formed Sample.agent).
  { unfold well_formed. vm_compute. repeat constructor; discriminate. }
  assert (Ht : time_value Sample.t0) by (unfold time_value, Sample.t0; lia).
  assert (Hg : generatePreviewToken Sample.env Sample.agent Sample.t0 = Normal Sample.token)
    by (vm_compute; reflexivity).
  split; [exact Hw|]. split; [exact Ht|]. split; [exact Hg|].
  exact (X6_token_names_one_tenant Sample.env Sample.agent Sample.agent Sample.t0
           Sample.t0 Sample.token Hw Hw Ht Ht Hg Hg).
Defined.

(* ================================================================== *)
(** ** More on the proxy routes *)

Module ProxyMore.
Import Js Token Proxy Routes.
Local Open Scope string_scope.
Local Open Scope list_scope.
Local Open Scope Z_scope.

#[local] Arguments js : simpl never.
#[local] Arguments toString : simpl never.
#[local] Arguments validatePreviewToken : simpl never.
#[local] Arguments getPlaidBaseUrl : simpl never.
#[local] Arguments plaid_payload : simpl never.

Lemma get_field_throws v key e :
  get_field v key = Throw e -> v = JNull /\ e = TypeError.
Proof. destruct v; simpl; intros H; inversion H; auto. Qed.

(** Splits the membership of an event in a trace built by appending. *)
Ltac in_trace :=
  repeat match goal with
         | Hi : In _ (_ ++ [_]) |- _ =>
             apply ProxyFacts.in_singleton_app in Hi; destruct Hi as [Hi | Hi]
         | Hi : In _ [] |- _ => destruct Hi
         | Hi : Fetch _ _ = _ |- _ => inversion Hi; clear Hi; subst
         | Hi : StorePlaidAccessToken _ _ _ = _ |- _ => inversion Hi; clear Hi; subst
         | Hi : GetAgentStub _ = _ |- _ => inversion Hi; clear Hi; subst
         | Hi : GetPlaidAccessToken _ = _ |- _ => inversion Hi; clear Hi; subst
         end.

Ltac unfold_route H :=
  cbn [handler] in H;
  unfold run, link_token, exchange_token, transactions, accounts, status_route in H.

End ProxyMore.

Import Js Token Proxy Routes.
Local Open Scope string_scope.
Local Open Scope list_scope.
Local Open Scope Z_scope.

(** X7: whatever the request, a route makes at most one call to Plaid, only
    for an authenticated request and with the platform credentials set, and
    always to the base URL of the configured environment followed by the
    fixed path of the route, with the platform's client id and secret in the
    payload. *)
Theorem X7_outbound_calls_confined (w : World) (env : Env) (now : Z) (ep : endpoint)
    (req : Request) (trace : list event) (outcome : completion Response) :
  run (handler w env now ep req) = (trace, outcome) ->
  (List.length (filter is_fetch trace) <= 1)%nat
  /\ forall url payload,
       In (Fetch url payload) trace ->
       plaid_configured env = true
       /\ (exists agentId, authenticated env now req agentId)
       /\ exists path body,
            plaid_path ep = Some path
            /\ url = getPlaidBaseUrl env ++ path
            /\ payload = plaid_payload env body.
Proof.
  intros H.
  destruct ep; ProxyMore.unfold_route H; ProxyFacts.io_inv;
    (split; [cbn; lia|]); intros url payload Hin; ProxyMore.in_trace;
    (split; [assumption|]); (split; [eauto|]); do 2 eexists;
    (split; [reflexivity|]); split; reflexivity.
Qed.

Lemma X7_outbound_calls_confined_witness :
  run (handler Sample.world_plaid_rejects Sample.env Sample.t0 Transactions
         Sample.get_with_token)
  = ([GetAgentStub Sample.agent; GetPlaidAccessToken Sample.agent;
      Fetch (js "https://sandbox.plaid.com/transactions/sync")
        (plaid_payload Sample.env [("access_token", Some (JStr (js "access-sandbox-1")))])],
     Normal (c_json [("success", Some (JBool false));
                     ("error", Some (JStr (js "access token is invalid")))] 500))
  /\ (List.length
        (filter is_fetch
           [GetAgentStub Sample.agent; GetPlaidAccessToken Sample.agent;
            Fetch (js "https://sandbox.plaid.com/transactions/sync")
              (plaid_payload Sample.env
                 [("access_token", Some (JStr (js "access-sandbox-1")))])]) <= 1)%nat
  /\ forall url payload,
       In (Fetch url payload)
          [GetAgentStub Sample.agent; GetPlaidAccessToken Sample.agent;
           Fetch (js "https://sandbox.plaid.com/transactions/sync")
             (plaid_payload Sample.env
                [("access_token", Some (JStr (js "access-sandbox-1")))])] ->
       plaid_configured Sample.env = true
       /\ (exists agentId,
             authenticated Sample.env Sample.t0 Sample.get_with_token agentId)
       /\ exists path body,
            plaid_path Transactions = Some path
            /\ url = getPlaidBaseUrl Sample.env ++ path
            /\ payload = plaid_payload Sample.env body.
Proof.
  assert (Hrun : run (handler Sample.world_plaid_rejects Sample.env Sample.t0
                        Transactions Sample.get_with_token)
                 = ([GetAgentStub Sample.agent; GetPlaidAccessToken Sample.agent;
                     Fetch (js "https://sandbox.plaid.com/transactions/sync")
                       (plaid_payload Sample.env
                          [("access_token", Some (JStr (js "access-sandbox-1")))])],
                    Normal (c_json [("success", Some (JBool false));
                                    ("error", Some (JStr (js "access token is invalid")))]
                              500)))
    by (vm_compute; reflexivity).
  split; [exact Hrun|].
  exact (X7_outbound_calls_confined Sample.world_plaid_rejects Sample.env
           Sample.t0 Transactions Sample.get_with_token _ _ Hrun).
Defined.

(** X8: a route handler lets an exception escape in one case only: the
    exchange-token route, for an authenticated request whose JSON body is
    [null]; reading [body.public_token] then throws a TypeError before any
    outside call.  Every other run ends in a response. *)
Theorem X8_only_null_body_escapes (w : World) (env : Env) (now : Z) (ep : endpoint)
    (req : Request) (trace : list event) (e : exn) :
  run (handler w env now ep req) = (trace, Throw e) ->
  ep = ExchangeToken /\ req_json req = Normal JNull /\ e = TypeError /\ trace = []
  /\ exists agentId, authenticated env now req agentId.
Proof.
  intros H.
  destruct ep; ProxyMore.unfold_route H; ProxyFacts.io_inv.
  match goal with
  | Hg : Throw _ = get_field _ _ |- _ =>
      symmetry in Hg; apply ProxyMore.get_field_throws in Hg; destruct Hg; subst
  end.
  repeat split; eauto.
Qed.

Lemma X8_only_null_body_escapes_witness :
  run (handler Sample.world_unconnected Sample.env Sample.t0 ExchangeToken
         (Sample.request POST (Some Sample.token) (Normal JNull)))
  = ([], Throw TypeError)
  /\ ExchangeToken = ExchangeToken
  /\ req_json (Sample.request POST (Some Sample.token) (Normal JNull)) = Normal JNull
  /\ TypeError = TypeError /\ @nil event = []
  /\ exists agentId,
       authenticated Sample.env Sample.t0
         (Sample.request POST (Some Sample.token) (Normal JNull)) agentId.
Proof.
  assert (Hrun : run (handler Sample.world_unconnected Sample.env Sample.t0 ExchangeToken
                        (Sample.request POST (Some Sample.token) (Normal JNull)))
                 = ([], Throw TypeError)) by (vm_compute; reflexivity).
  split; [exact Hrun|].
  exact (X8_only_null_body_escapes Sample.world_unconnected Sample.env Sample.t0
           ExchangeToken (Sample.request POST (Some Sample.token) (Normal JNull))
           _ _ Hrun).
Defined.

(** X9: the status route, for an authenticated request whose agent answers,
    reports success with [connected] true exactly when the stored access
    token is a non-empty string; it needs no platform credentials and its
    only outside calls are the two to the agent. *)
Theorem X9_status_reports_connection (w : World) (env : Env) (now : Z) (req : Request)
    (agentId : jsstring) (agentStub : AgentStub) (accessToken : option jsstring) :
  authenticated env now req agentId ->
  getAgentStub w env agentId = Normal agentStub ->
  getPlaidAccessToken agentStub = Normal accessToken ->
  run (status_route w env now req)
  = ([GetAgentStub agentId; GetPlaidAccessToken agentId],
     Normal (c_json [("success", Some (JBool true));
                     ("connected", Some (JBool (truthy accessToken)))] 200)).
Proof.
  intros Hauth Hstub Hget.
  unfold run, status_route, bindIO, try_catchIO, call.
  rewrite (ProxyFacts.authenticate_ok _ _ _ _ _ Hauth), Hstub, Hget. reflexivity.
Qed.

Lemma X9_status_reports_connection_witness :
  authenticated Sample.env_no_plaid Sample.t0 Sample.get_with_token Sample.agent
  /\ run (status_route Sample.world_plaid_rejects Sample.env_no_plaid Sample.t0
            Sample.get_with_token)
     = ([GetAgentStub Sample.agent; GetPlaidAccessToken Sample.agent],
        Normal (c_json [("success", Some (JBool true));
                        ("connected", Some (JBool true))] 200)).
Proof.
  assert (Hauth : authenticated Sample.env_no_plaid Sample.t0 Sample.get_with_token
                    Sample.agent) by (apply sample_authenticated; reflexivity).
  split; [exact Hauth|].
  exact (X9_status_reports_connection Sample.world_plaid_rejects Sample.env_no_plaid
           Sample.t0 Sample.get_with_token Sample.agent Sample.stub_connected
           (Some (js "access-sandbox-1")) Hauth eq_refl eq_refl).
Defined.

(** X10: the exchange-token route checks its body before anything leaves
    the worker: for an authenticated request, a body that is not JSON is
    answered 400 "Invalid JSON body", and a body whose [public_token] is
    missing or falsy is answered 400 "Missing public_token"; in both cases
    no outside call is made. *)
Theorem X10_exchange_checks_body (w : World) (env : Env) (now : Z) (req : Request)
    (agentId : jsstring) :
  authenticated env now req agentId ->
  (forall e, req_json req = Throw e ->
     run (exchange_token w env now req)
     = ([], Normal (c_json [("error", Some (JStr (js "Invalid JSON body")))] 400)))
  /\ (forall body public_token,
        req_json req = Normal body ->
        get_field body "public_token" = Normal public_token ->
        truthy_json public_token = false ->
        run (exchange_token w env now req)
        = ([], Normal (c_json [("error", Some (JStr (js "Missing public_token")))] 400))).
Proof.
  intros Hauth. split.
  - intros e He. unfold run, exchange_token, bindIO.
    rewrite (ProxyFacts.authenticate_ok _ _ _ _ _ Hauth), He. reflexivity.
  - intros body pt Hb Hf Ht. unfold run, exchange_token, bindIO, lift.
    rewrite (ProxyFacts.authenticate_ok _ _ _ _ _ Hauth), Hb, Hf, Ht. reflexivity.
Qed.

Lemma X10_exchange_checks_body_witness :
  authenticated Sample.env Sample.t0
    (Sample.request POST (Some Sample.token) (Normal (JObj [("public_token", JStr [])])))
    Sample.agent
  /\ run (exchange_token Sample.world_unconnected Sample.env Sample.t0
            (Sample.request POST (Some Sample.token)
               (Normal (JObj [("public_token", JStr [])]))))
     = ([], Normal (c_json [("error", Some (JStr (js "Missing public_token")))] 400)).
Proof.
  assert (Hauth : authenticated Sample.env Sample.t0
                    (Sample.request POST (Some Sample.token)
                       (Normal (JObj [("public_token", JStr [])])))
                    Sample.agent) by (apply sample_authenticated; reflexivity).
  split; [exact Hauth|].
  exact (proj2 (X10_exchange_checks_body Sample.world_unconnected Sample.env Sample.t0
                  _ Sample.agent Hauth)
           (JObj [("public_token", JStr [])]) (Some (JStr [])) eq_refl eq_refl eq_refl).
Defined.

(** X11: when [storePlaidAccessToken] throws, the public token has already
    been exchanged with Plaid (the call is in the trace, before the store),
    and the route answers a plain 500 with the message of the exception;
    nothing tells the caller that the exchange itself went through. *)
Theorem X11_store_failure_after_exchange (w : World) (env : Env) (now : Z)
    (req : Request) (trace : list event) (outcome : completion Response)
    (agentId : jsstring) (access_token item_id : option Json)
    (agentStub : AgentStub) (err : exn) :
  run (exchange_token w env now req) = (trace, outcome) ->
  In (StorePlaidAccessToken agentId access_token item_id) trace ->
  getAgentStub w env agentId = Normal agentStub ->
  storePlaidAccessToken agentStub access_token item_id = Throw err ->
  trace = [Fetch (getPlaidBaseUrl env ++ js "/item/public_token/exchange")
             (plaid_payload env
                [("public_token",
                  match req_json req with
                  | Normal body => match get_field body "public_token" with
                                   | Normal v => v
                                   | Throw _ => None
                                   end
                  | Throw _ => None
                  end)]);
           GetAgentStub agentId;
           StorePlaidAccessToken agentId access_token item_id]
  /\ outcome = Normal (c_json [("success", Some (JBool false));
                              ("error", Some (JStr (message_or err "Failed to exchange token")))]
                         500).
Proof.
  intros H Hin Hstub Hstore.
  unfold run, exchange_token in H. ProxyFacts.io_inv; ProxyMore.in_trace;
    repeat match goal with
           | Hq : req_json req = _ |- _ => rewrite Hq
           | Hq : Normal _ = get_field _ _ |- _ => rewrite <- Hq
           | Hq : _ = getAgentStub w env _ |- _ => rewrite Hstub in Hq; inversion Hq; subst
           | Hq : _ = storePlaidAccessToken _ _ _ |- _ =>
               rewrite Hstore in Hq; inversion Hq; subst
           end;
    try discriminate; split; reflexivity.
Qed.

Lemma X11_store_failure_after_exchange_witness :
  In (StorePlaidAccessToken Sample.agent (Some (JStr (js "access-sandbox-1")))
        (Some (JStr (js "item-1"))))
     [Fetch (js "https://sandbox.plaid.com/item/public_token/exchange")
        (plaid_payload Sample.env [("public_token", Some (JStr (js "public-sandbox-1")))]);
      GetAgentStub Sample.agent;
      StorePlaidAccessToken Sample.agent (Some (JStr (js "access-sandbox-1")))
        (Some (JStr (js "item-1")))]
  /\ [Fetch (js "https://sandbox.plaid.com/item/public_token/exchange")
        (plaid_payload Sample.env [("public_token", Some (JStr (js "public-sandbox-1")))]);
      GetAgentStub Sample.agent;
      StorePlaidAccessToken Sample.agent (Some (JStr (js "access-sandbox-1")))
        (Some (JStr (js "item-1")))]
     = [Fetch (getPlaidBaseUrl Sample.env ++ js "/item/public_token/exchange")
          (plaid_payload Sample.env
             [("public_token", Some (JStr (js "public-sandbox-1")))]);
        GetAgentStub Sample.agent;
        StorePlaidAccessToken Sample.agent (Some (JStr (js "access-sandbox-1")))
          (Some (JStr (js "item-1")))]
  /\ Normal (c_json [("success", Some (JBool false));
                     ("error", Some (JStr (js "storage unavailable")))] 500)
     = Normal (c_json [("success", Some (JBool false));
                       ("error", Some (JStr (message_or (Error (js "storage unavailable"))
                                               "Failed to exchange token")))] 500).
Proof.
  assert (Hrun : run (exchange_token Sample2.world_store_fails Sample.env Sample.t0
                        Sample.post_exchange)
                 = ([Fetch (js "https://sandbox.plaid.com/item/public_token/exchange")
                       (plaid_payload Sample.env
                          [("public_token", Some (JStr (js "public-sandbox-1")))]);
                     GetAgentStub Sample.agent;
                     StorePlaidAccessToken Sample.agent
                       (Some (JStr (js "access-sandbox-1"))) (Some (JStr (js "item-1")))],
                    Normal (c_json [("success", Some (JBool false));
                                    ("error", Some (JStr (js "storage unavailable")))] 500)))
    by (vm_compute; reflexivity).
  assert (Hin : In (StorePlaidAccessToken Sample.agent
                      (Some (JStr (js "access-sandbox-1"))) (Some (JStr (js "item-1"))))
                   [Fetch (js "https://sandbox.plaid.com/item/public_token/exchange")
                      (plaid_payload Sample.env
                         [("public_token", Some (JStr (js "public-sandbox-1")))]);
                    GetAgentStub Sample.agent;
                    StorePlaidAccessToken Sample.agent
                      (Some (JStr (js "access-sandbox-1"))) (Some (JStr (js "item-1")))])
    by (right; right; left; reflexivity).
  split; [exact Hin|].
  exact (X11_store_failure_after_exchange Sample2.world_store_fails Sample.env
           Sample.t0 Sample.post_exchange _ _ Sample.agent _ _
           Sample2.stub_store_fails (Error (js "storage unavailable"))
           Hrun Hin eq_refl eq_refl).
Defined.

(** X12: the transactions and accounts routes answer success only after the
    agent returned a non-empty access token and Plaid answered 2xx with a
    JSON body to the one call that carries this token. *)
Theorem X12_data_success_uses_stored_token (w : World) (env : Env) (now : Z)
    (ep : endpoint) (req : Request) (trace : list event) (response : Response) :
  ep = Transactions \/ ep = Accounts ->
  run (handler w env now ep req) = (trace, Normal response) ->
  body_field response "success" = Some (JBool true) ->
  exists agentId agentStub accessToken url plaid data,
    trace = [GetAgentStub agentId; GetPlaidAccessToken agentId;
             Fetch url (plaid_payload env [("access_token", Some (JStr accessToken))])]
    /\ authenticated env now req agentId
    /\ getAgentStub w env agentId = Normal agentStub
    /\ getPlaidAccessToken agentStub = Normal (Some accessToken)
    /\ accessToken <> []
    /\ fetch w url (plaid_payload env [("access_token", Some (JStr accessToken))])
       = Normal plaid
    /\ ok plaid = true
    /\ json plaid = Normal data.
Proof.
  intros Hep H Hsuccess.
  destruct Hep as [-> | ->]; ProxyMore.unfold_route H; ProxyFacts.io_inv;
    cbn in Hsuccess; try discriminate; try congruence;
    match goal with
    | Hf : Normal _ = match fetch ?w ?u ?p with _ => _ end |- _ =>
        destruct (fetch w u p) as [plaid|] eqn:Hfetch; [|discriminate];
        destruct (ok plaid) eqn:Hok; [|discriminate]
    end;
    match goal with
    | Ht : negb (truthy ?x) = false |- _ =>
        destruct x as [[|c tok]|]; try discriminate Ht
    end;
    do 6 eexists; (split; [reflexivity|]);
    repeat match goal with |- _ /\ _ => split end; eauto; discriminate.
Qed.

Lemma X12_data_success_uses_stored_token_witness :
  (Transactions = Transactions \/ Transactions = Accounts)
  /\ body_field (c_json [("success", Some (JBool true));
                         ("transactions", Some (JArr []));
                         ("has_more", Some (JBool false))] 200) "success"
     = Some (JBool true)
  /\ exists agentId agentStub accessToken url plaid data,
       [GetAgentStub Sample.agent; GetPlaidAccessToken Sample.agent;
        Fetch (js "https://sandbox.plaid.com/transactions/sync")
          (plaid_payload Sample.env
             [("access_token", Some (JStr (js "access-sandbox-1")))])]
       = [GetAgentStub agentId; GetPlaidAccessToken agentId;
          Fetch url (plaid_payload Sample.env
                       [("access_token", Some (JStr accessToken))])]
       /\ authenticated Sample.env Sample.t0 Sample.get_with_token agentId
       /\ getAgentStub Sample2.world_connected Sample.env agentId = Normal agentStub
       /\ getPlaidAccessToken agentStub = Normal (Some accessToken)
       /\ accessToken <> []
       /\ fetch Sample2.world_connected url
            (plaid_payload Sample.env [("access_token", Some (JStr accessToken))])
          = Normal plaid
       /\ ok plaid = true
       /\ json plaid = Normal data.
Proof.
  assert (Hep : Transactions = Transactions \/ Transactions = Accounts)
    by (left; reflexivity).
  assert (Hrun : run (handler Sample2.world_connected Sample.env Sample.t0 Transactions
                        Sample.get_with_token)
                 = ([GetAgentStub Sample.agent; GetPlaidAccessToken Sample.agent;
                     Fetch (js "https://sandbox.plaid.com/transactions/sync")
                       (plaid_payload Sample.env
                          [("access_token", Some (JStr (js "access-sandbox-1")))])],
                    Normal (c_json [("success", Some (JBool true));
                                    ("transactions", Some (JArr []));
                                    ("has_more", Some (JBool false))] 200)))
    by (vm_compute; reflexivity).
  assert (Hs : body_field (c_json [("success", Some (JBool true));
                                   ("transactions", Some (JArr []));
                                   ("has_more", Some (JBool false))] 200) "success"
               = Some (JBool true)) by reflexivity.
  split; [exact Hep|]. split; [exact Hs|].
  exact (X12_data_success_uses_stored_token Sample2.world_connected Sample.env
           Sample.t0 Transactions Sample.get_with_token _ _ Hep Hrun Hs).
Defined.

Module CorsFacts.
Import Js Proxy JsFacts.

Lemma skipn_suffix (pre suffix : jsstring) :
  skipn (List.length (pre ++ suffix) - List.length suffix) (pre ++ suffix) = suffix.
Proof.
  rewrite length_app.
  replace (List.length pre + List.length suffix - List.length suffix)%nat
    with (List.length pre) by lia.
  induction pre; simpl; auto.
Qed.

(** [endsWith] holds exactly of the strings that end with the suffix. *)
Lemma endsWith_spec s suffix :
  endsWith s suffix = true <-> exists pre, s = pre ++ suffix.
Proof.
  unfold endsWith. split.
  - intros H. apply andb_prop in H as [Heq Hlen].
    apply TokenMore.str_eqb_true in Heq.
    exists (firstn (List.length s - List.length suffix) s).
    rewrite <- (firstn_skipn (List.length s - List.length suffix) s) at 1.
    f_equal. exact Heq.
  - intros [pre ->]. rewrite skipn_suffix, str_eqb_refl. cbn [andb].
    apply Nat.leb_le. rewrite length_app. lia.
Qed.

End CorsFacts.

(** X13: the CORS middleware grants its headers exactly to the origins that
    end with a dot followed by the configured preview domain, both being
    known and not empty; the allowed origin it echoes is then the request's
    own. *)
Theorem X13_cors_only_preview_subdomains (w : World) (env : Env) (req : Request) :
  (cors_headers w env req <> []
   <-> exists origin previewDomain pre,
         header_Origin req = Some origin
         /\ getPreviewDomain w env = Some previewDomain
         /\ previewDomain <> []
         /\ origin = pre ++ 46 :: previewDomain)
  /\ (forall name value,
        In (name, value) (cors_headers w env req) ->
        name = "Access-Control-Allow-Origin" ->
        header_Origin req = Some value).
Proof.
  unfold cors_headers. split; [split|].
  - destruct (header_Origin req) as [[|c origin]|]; try (intros H; now contradiction H).
    destruct (getPreviewDomain w env) as [[|d domain]|]; try (intros H; now contradiction H).
    destruct (endsWith (c :: origin) (46 :: d :: domain)) eqn:E;
      [|intros H; now contradiction H].
    intros _. apply CorsFacts.endsWith_spec in E as [pre E].
    exists (c :: origin), (d :: domain), pre. repeat split; auto. discriminate.
  - intros (origin & domain & pre & Ho & Hd & Hne & ->). rewrite Ho, Hd.
    destruct domain as [|d domain]; [contradiction|].
    destruct (pre ++ 46 :: d :: domain) as [|c origin] eqn:E.
    { apply app_eq_nil in E as [_ E]. discriminate. }
    rewrite <- E.
    assert (Hend : endsWith (pre ++ 46 :: d :: domain) (46 :: d :: domain) = true)
      by (apply CorsFacts.endsWith_spec; eauto).
    rewrite Hend. discriminate.
  - intros name value Hin Hname.
    destruct (header_Origin req) as [[|c origin]|]; try contradiction.
    destruct (getPreviewDomain w env) as [[|d domain]|]; try contradiction.
    destruct (endsWith _ _); [|contradiction].
    cbn in Hin. subst name.
    repeat match goal with
           | H : _ \/ _ |- _ => destruct H as [H | H]
           | H : (_, _) = (_, _) |- _ => inversion H; clear H
           | H : False |- _ => contradiction
           end; try discriminate; congruence.
Qed.

(* ================================================================== *)
(** ** More on the configuration phase and the agent's proxy handler *)

Module ConfigurationMore.
Import Js Configuration.

Lemma existsb_filter {A} (p : A -> bool) l :
  existsb p l = match filter p l with [] => false | _ => true end.
Proof.
  induction l as [|x l IH]; simpl; [reflexivity|].
  destruct (p x); simpl; [reflexivity|exact IH].
Qed.

Lemma card_service_ids name auth id l :
  map service_id (services (card name auth id l)) = l.
Proof.
  cbn [services card]. induction l as [|x l IH]; simpl; [reflexivity|].
  now rewrite IH.
Qed.

End ConfigurationMore.

Import Configuration.

(** X14: [needsConfiguration] and [executeConfigurationPhase] agree, so the
    state machine pauses exactly when it diverted to the configuration
    phase: when configuration is needed the phase returns IDLE, stores the
    pending configuration and broadcasts one card; when it is not, the phase
    returns PHASE_GENERATING, broadcasts nothing and leaves the state as it
    was.  The services on the card are exactly the detected services for
    which the secrets client has nothing. *)
Theorem X14_gate_agrees_with_phase (Blueprint : Type)
    (detectRequiredServices : Blueprint -> list jsstring) (has : jsstring -> bool)
    (getServiceDisplayName : jsstring -> jsstring)
    (getServiceAuthType : jsstring -> AuthType)
    (st : PhasicState Blueprint) (now : Z) :
  executeConfigurationPhase detectRequiredServices has getServiceDisplayName
    getServiceAuthType st now
  = (if needsConfiguration detectRequiredServices has st
     then (IDLE,
           {| blueprint := blueprint st;
              pendingConfiguration :=
                Some {| requiredServices := unconfigured detectRequiredServices has st;
                        configuredServices := [];
                        configCardId := js "config-" ++ toString now |} |},
           [card getServiceDisplayName getServiceAuthType
              (js "config-" ++ toString now)
              (unconfigured detectRequiredServices has st)])
     else (PHASE_GENERATING, st, []))
  /\ forall s,
       In s (map service_id
               (services (card getServiceDisplayName getServiceAuthType
                            (js "config-" ++ toString now)
                            (unconfigured detectRequiredServices has st))))
       <-> In s (detectRequiredServices (blueprint st)) /\ has s = false.
Proof.
  split.
  - unfold needsConfiguration. rewrite ConfigurationMore.existsb_filter.
    unfold executeConfigurationPhase, unconfigured.
    destruct (filter _ (detectRequiredServices (blueprint st))); reflexivity.
  - intros s. rewrite ConfigurationMore.card_service_ids.
    unfold unconfigured. rewrite filter_In.
    split; intros [Hin Hs]; split; auto; now apply negb_true_iff.
Qed.

Module AgentProxyFacts.
Import Js Token Proxy AgentProxy JsFacts.

Lemma join_split sep s : join sep (split sep s) = s.
Proof.
  induction s as [|c s IH]; [reflexivity|].
  cbn [split].
  destruct (split sep s) as [|h t] eqn:E;
    [exfalso; exact (TokenMore.split_nonempty sep s E)|].
  destruct (Z.eqb_spec c sep) as [->|Hne].
  - cbn [join app]. cbn [join] in IH. now rewrite IH.
  - destruct t as [|h' t]; cbn [join app] in *; now rewrite <- IH.
Qed.

Lemma no_slash (s : string) :
  forallb (fun c => negb (c =? 47)) (js s) = true -> ~ In 47 (js s).
Proof.
  intros H Hin. rewrite forallb_forall in H. apply H in Hin.
  now rewrite Z.eqb_refl in Hin.
Qed.

(** The parts of [/api/proxy/<service>/<endpoint>]. *)
Lemma proxy_path_parts service endpoint :
  ~ In 47 service ->
  split 47 (js "/api/proxy/" ++ service ++ 47 :: endpoint)
  = [] :: js "api" :: js "proxy" :: service :: split 47 endpoint.
Proof.
  intros Hs.
  change (js "/api/proxy/" ++ service ++ 47 :: endpoint)
    with ([] ++ 47 :: (js "api" ++ 47 :: (js "proxy" ++ 47 :: (service ++ 47 :: endpoint)))).
  rewrite split_app by (intros []).
  rewrite split_app by (apply no_slash; reflexivity).
  rewrite split_app by (apply no_slash; reflexivity).
  rewrite split_app by assumption. reflexivity.
Qed.

End AgentProxyFacts.

Import Js Token Proxy AgentProxy.

(** X15: on the path [/api/proxy/<service>/<endpoint>], [handleProxyRequest]
    asks the secrets client for [<service>], and with a non-empty credential
    hands the plaid and stripe handlers exactly [<endpoint>], slashes
    included; an unknown service is answered 400 only after the credential
    was found, and a missing credential is answered 400 for any service. *)
Theorem X15_proxy_path_dispatch
    (secrets_get : option jsstring -> completion (option jsstring))
    (handlePlaidProxy handleStripeProxy : jsstring -> jsstring -> completion Response)
    (service endpoint : jsstring) (accessToken : option jsstring) :
  ~ In 47 service ->
  secrets_get (Some service) = Normal accessToken ->
  handleProxyRequest secrets_get handlePlaidProxy handleStripeProxy
    (js "/api/proxy/" ++ service ++ 47 :: endpoint)
  = if truthy accessToken then
      if str_eqb service (js "plaid")
      then handlePlaidProxy endpoint (interpolate accessToken)
      else if str_eqb service (js "stripe")
      then handleStripeProxy endpoint (interpolate accessToken)
      else Normal (error_response (js "Unknown service: " ++ service) 400)
    else Normal (error_response (js "No " ++ service ++ js " credentials configured") 400).
Proof.
  intros Hs Hget. unfold handleProxyRequest. cbv zeta.
  rewrite AgentProxyFacts.proxy_path_parts by assumption.
  cbn [nth_error skipn]. rewrite AgentProxyFacts.join_split, Hget. cbn [bind].
  destruct accessToken as [[|c tok]|]; reflexivity.
Qed.

Lemma X15_proxy_path_dispatch_witness :
  ~ In 47 (js "plaid")
  /\ handleProxyRequest
       (fun _ => Normal (Some (js "access-sandbox-1")))
       (fun endpoint _ => Normal (error_response endpoint 200))
       (fun _ _ => Throw NonError)
       (js "/api/proxy/" ++ js "plaid" ++ 47 :: js "accounts/balance/get")
     = Normal (error_response (js "accounts/balance/get") 200).
Proof.
  assert (Hs : ~ In 47 (js "plaid")) by (apply AgentProxyFacts.no_slash; reflexivity).
  split; [exact Hs|].
  exact (X15_proxy_path_dispatch
           (fun _ => Normal (Some (js "access-sandbox-1")))
           (fun endpoint _ => Normal (error_response endpoint 200))
           (fun _ _ => Throw NonError)
           (js "plaid") (js "accounts/balance/get") (Some (js "access-sandbox-1"))
           Hs eq_refl).
Defined.

(* ================================================================== *)
(** ** The project controller *)

Module ProjectsFacts.
Import Js Token Proxy Projects.
Local Open Scope string_scope.
Local Open Scope list_scope.
Local Open Scope Z_scope.

Lemma bindE_inv {E A B} (m : Eff E A) (k : A -> Eff E B) t t' c :
  bindE m k t = (t', c) ->
  (exists e, m t = (t', Throw e) /\ c = Throw e)
  \/ (exists a t1, m t = (t1, Normal a) /\ k a t1 = (t', c)).
Proof.
  unfold bindE. destruct (m t) as [t1 [a|e]]; intros H.
  - right. eauto.
  - left. inversion H; subst. eauto.
Qed.

Lemma try_catchE_inv {E A} (body : Eff E A) (handler : exn -> Eff E A) t t' c :
  try_catchE body handler t = (t', c) ->
  (exists a, body t = (t', Normal a) /\ c = Normal a)
  \/ (exists e t1, body t = (t1, Throw e) /\ handler e t1 = (t', c)).
Proof.
  unfold try_catchE. destruct (body t) as [t1 [a|e]]; intros H.
  - left. inversion H; subst. eauto.
  - right. eauto.
Qed.

Lemma callE_inv {E A} (e : E) (answer : completion A) t t' c :
  callE e answer t = (t', c) -> t' = t ++ [e] /\ c = answer.
Proof. unfold callE. intros H; inversion H; auto. Qed.

Lemma liftE_inv {E A} (x : completion A) (t t' : list E) c :
  liftE x t = (t', c) -> t' = t /\ c = x.
Proof. unfold liftE. intros H; inversion H; auto. Qed.

Lemma retE_inv {E A} (a : A) (t t' : list E) c :
  retE a t = (t', c) -> t' = t /\ c = Normal a.
Proof. unfold retE. intros H; inversion H; auto. Qed.

Lemma user_id_inv (req : RouteRequest) (t t' : list service_call) c :
  user_id req t = (t', c) ->
  t' = t /\ ((exists u, context_user req = Some u /\ c = Normal u)
             \/ (context_user req = None /\ c = Throw TypeError)).
Proof.
  unfold user_id. destruct (context_user req); intros H.
  - apply retE_inv in H as [-> ->]. eauto.
  - apply liftE_inv in H as [-> ->]. eauto.
Qed.

Ltac eff_step :=
  match goal with
  | H : bindE _ _ _ = (_, _) |- _ =>
      apply bindE_inv in H;
      destruct H as [(? & H & ?) | (? & ? & ? & H)]; cbv beta in *
  | H : try_catchE _ _ _ = (_, _) |- _ =>
      apply try_catchE_inv in H;
      destruct H as [(? & H & ?) | (? & ? & ? & H)]; cbv beta in *
  | H : user_id _ _ = (_, _) |- _ =>
      apply user_id_inv in H;
      destruct H as [? [(? & ? & ?) | (? & ?)]]
  | H : callE _ _ _ = (_, _) |- _ => apply callE_inv in H; destruct H
  | H : liftE _ _ = (_, _) |- _ => apply liftE_inv in H; destruct H
  | H : retE _ _ = (_, _) |- _ => apply retE_inv in H; destruct H
  | H : (match ?x with _ => _ end) _ = (_, _) |- _ => destruct x eqn:?
  | H : (let _ := _ in _) _ = (_, _) |- _ => cbv zeta in H
  | H : Normal _ = Normal _ |- _ => inversion H; clear H
  | H : Normal _ = Throw _ |- _ => discriminate H
  | H : Throw _ = Normal _ |- _ => discriminate H
  | H : Throw _ = Throw _ |- _ => inversion H; clear H
  | H : Some _ = Some _ |- _ => inversion H; clear H
  | H : Some _ = None |- _ => discriminate H
  | H : None = Some _ |- _ => discriminate H
  end; subst.

Ltac eff_inv := repeat eff_step.

Ltac in_calls :=
  repeat match goal with
         | Hi : In _ (_ ++ [_]) |- _ =>
             apply ProxyFacts.in_singleton_app in Hi; destruct Hi as [Hi | Hi]
         | Hi : In _ [] |- _ => destruct Hi
         | Hi : ?c = _ |- _ =>
             match type of c with service_call => inversion Hi; clear Hi; subst end
         end.

Ltac same_user :=
  repeat match goal with
         | Ha : context_user ?r = Some ?a, Hb : context_user ?r = Some ?b |- _ =>
             assert (a = b) by congruence; subst; clear Hb
         end.

Ltac unfold_controller H :=
  cbn [controller] in H;
  unfold runE, listProjects, getProject, getProjectByAppIdHandler, createProjectHandler,
    updateProjectHandler, deleteProjectHandler, getProjectSessionHandler,
    saveProjectSessionHandler in H.

End ProjectsFacts.

Import Js Token Proxy Projects.

(** X16: whatever the request, every service call a project handler makes
    that takes a user id is made with the id of the authenticated user, and
    a handler makes at most one call that changes stored data. *)
Theorem X16_calls_act_for_the_user (Project ProjectSession : Type)
    (project_id : Project -> jsstring)
    (service : ProjectService Project ProjectSession)
    (a : action) (req : RouteRequest)
    (trace : list service_call) (outcome : completion (ControllerResponse Project ProjectSession)) :
  runE (controller Project ProjectSession project_id service a req) = (trace, outcome) ->
  (forall c u, In c trace -> call_user c = Some u -> context_user req = Some u)
  /\ (List.length (filter is_write trace) <= 1)%nat.
Proof.
  intros H.
  destruct a; ProjectsFacts.unfold_controller H; ProjectsFacts.eff_inv;
    (split; [|cbn; lia]); intros c u Hin Hu; ProjectsFacts.in_calls;
    cbn in Hu; congruence.
Qed.

Lemma X16_calls_act_for_the_user_witness :
  runE (controller jsstring jsstring (fun p => p) Sample3.service GetProject
          (Sample3.route_request (Some (js "u1")) (Some (js "p1")) (Throw NonError)))
  = ([GetProjectById (js "p1") (js "u1"); TouchProject (js "p1") (js "u1");
      GetProjectSession (js "p1")],
     Normal (SuccessResponse jsstring jsstring
               (ProjectWithSessionData jsstring jsstring
                  (Some (js "p1", Some (js "session-of-p1")))) 200))
  /\ (forall c u,
        In c [GetProjectById (js "p1") (js "u1"); TouchProject (js "p1") (js "u1");
              GetProjectSession (js "p1")] ->
        call_user c = Some u ->
        context_user (Sample3.route_request (Some (js "u1")) (Some (js "p1")) (Throw NonError))
        = Some u)
  /\ (List.length
        (filter is_write
           [GetProjectById (js "p1") (js "u1"); TouchProject (js "p1") (js "u1");
            GetProjectSession (js "p1")]) <= 1)%nat.
Proof.
  assert (Hrun : runE (controller jsstring jsstring (fun p => p) Sample3.service GetProject
                         (Sample3.route_request (Some (js "u1")) (Some (js "p1")) (Throw NonError)))
                 = ([GetProjectById (js "p1") (js "u1"); TouchProject (js "p1") (js "u1");
                     GetProjectSession (js "p1")],
                    Normal (SuccessResponse jsstring jsstring
                              (ProjectWithSessionData jsstring jsstring
                                 (Some (js "p1", Some (js "session-of-p1")))) 200)))
    by (vm_compute; reflexivity).
  split; [exact Hrun|].
  exact (X16_calls_act_for_the_user jsstring jsstring (fun p => p) Sample3.service
           GetProject _ _ _ Hrun).
Defined.

(** X17: session data is read or written, and a project is touched, only
    for a project a lookup has just returned for the authenticated user: a
    session save follows a successful [getProjectById] for the same project
    and user with no call in between; a touch likewise; a session read
    follows a successful lookup by id or by app. *)
Theorem X17_session_access_follows_lookup (Project ProjectSession : Type)
    (project_id : Project -> jsstring)
    (service : ProjectService Project ProjectSession)
    (a : action) (req : RouteRequest)
    (trace : list service_call)
    (outcome : completion (ControllerResponse Project ProjectSession)) :
  runE (controller Project ProjectSession project_id service a req) = (trace, outcome) ->
  (forall pid st,
     In (SaveProjectSession pid st) trace ->
     exists u p,
       context_user req = Some u
       /\ getProjectById _ _ service pid u = Normal (Some p)
       /\ trace = [GetProjectById pid u; SaveProjectSession pid st])
  /\ (forall pid u,
        In (TouchProject pid u) trace ->
        exists p, getProjectById _ _ service pid u = Normal (Some p))
  /\ (forall pid,
        In (GetProjectSession pid) trace ->
        exists u p,
          context_user req = Some u
          /\ (getProjectById _ _ service pid u = Normal (Some p)
              \/ exists appId,
                   getProjectByAppId _ _ service (JStr appId) u = Normal (Some p)
                   /\ project_id p = pid)).
Proof.
  intros H.
  destruct a; ProjectsFacts.unfold_controller H; ProjectsFacts.eff_inv;
    (split; [|split]); intros; ProjectsFacts.in_calls;
    ProjectsFacts.same_user; eauto 10.
Qed.

Lemma X17_session_access_follows_lookup_witness :
  runE (controller jsstring jsstring (fun p => p) Sample3.service SaveSession
          (Sample3.route_request (Some (js "u1")) (Some (js "p1")) (Normal (JObj []))))
  = ([GetProjectById (js "p1") (js "u1"); SaveProjectSession (js "p1") (JObj [])],
     Normal (SuccessResponse jsstring jsstring
               (ProjectSessionData jsstring jsstring (Some (js "session-of-p1"))) 200))
  /\ runE (controller jsstring jsstring (fun p => p) Sample3.service SaveSession
             (Sample3.route_request (Some (js "u2")) (Some (js "p1")) (Normal (JObj []))))
     = ([GetProjectById (js "p1") (js "u2")],
        Normal (ErrorResponse jsstring jsstring "Project not found" 404))
  /\ forall pid st,
       In (SaveProjectSession pid st)
          [GetProjectById (js "p1") (js "u1"); SaveProjectSession (js "p1") (JObj [])] ->
       exists u p,
         context_user (Sample3.route_request (Some (js "u1")) (Some (js "p1")) (Normal (JObj [])))
         = Some u
         /\ getProjectById _ _ Sample3.service pid u = Normal (Some p)
         /\ [GetProjectById (js "p1") (js "u1"); SaveProjectSession (js "p1") (JObj [])]
            = [GetProjectById pid u; SaveProjectSession pid st].
Proof.
  assert (Hrun : runE (controller jsstring jsstring (fun p => p) Sample3.service SaveSession
                         (Sample3.route_request (Some (js "u1")) (Some (js "p1"))
                            (Normal (JObj []))))
                 = ([GetProjectById (js "p1") (js "u1");
                     SaveProjectSession (js "p1") (JObj [])],
                    Normal (SuccessResponse jsstring jsstring
                              (ProjectSessionData jsstring jsstring
                                 (Some (js "session-of-p1"))) 200)))
    by (vm_compute; reflexivity).
  split; [exact Hrun|]. split; [vm_compute; reflexivity|].
  exact (proj1 (X17_session_access_follows_lookup jsstring jsstring (fun p => p)
                  Sample3.service SaveSession _ _ _ Hrun)).
Defined.

(** X18: the create handler calls [createProject] only with an app id and
    a name that are both truthy, for the authenticated user, and directly
    after [getProjectByAppId] found no project of this user for this app;
    when that lookup finds one, the answer is 409 and nothing is created. *)
Theorem X18_create_only_when_absent (Project ProjectSession : Type)
    (project_id : Project -> jsstring)
    (service : ProjectService Project ProjectSession)
    (req : RouteRequest) (trace : list service_call)
    (outcome : completion (ControllerResponse Project ProjectSession)) :
  runE (createProjectHandler Project ProjectSession service req) = (trace, outcome) ->
  (forall input,
     In (CreateProject input) trace ->
     exists appId,
       input_appId input = Some appId
       /\ truthy_json (Some appId) = true
       /\ truthy_json (input_name input) = true
       /\ context_user req = Some (input_userId input)
       /\ getProjectByAppId _ _ service appId (input_userId input) = Normal None
       /\ trace = [GetProjectByAppId appId (input_userId input); CreateProject input])
  /\ (forall appId u existing,
        In (GetProjectByAppId appId u) trace ->
        getProjectByAppId _ _ service appId u = Normal (Some existing) ->
        trace = [GetProjectByAppId appId u]
        /\ outcome = Normal (ErrorResponse _ _ "Project already exists for this app" 409)).
Proof.
  intros H.
  unfold runE, createProjectHandler in H. ProjectsFacts.eff_inv;
    split; intros; ProjectsFacts.in_calls; ProjectsFacts.same_user;
    try congruence.
  all: try (eexists; repeat match goal with |- _ /\ _ => split end;
            cbn [input_appId input_name input_userId]; eauto;
            match goal with
            | Hb : negb ?b = false |- ?b = true => now destruct b
            end).
Qed.

Lemma X18_create_only_when_absent_witness :
  runE (createProjectHandler jsstring jsstring Sample3.service
          (Sample3.route_request (Some (js "u1")) None (Normal (Sample3.create_body "app2"))))
  = ([GetProjectByAppId (JStr (js "app2")) (js "u1");
      CreateProject {| input_userId := js "u1";
                       input_appId := Some (JStr (js "app2"));
                       input_name := Some (JStr (js "Budget"));
                       input_description := None;
                       input_thumbnailUrl := None |}],
     Normal (SuccessResponse jsstring jsstring (ProjectData jsstring jsstring (js "p2")) 201))
  /\ runE (createProjectHandler jsstring jsstring Sample3.service
             (Sample3.route_request (Some (js "u1")) None (Normal (Sample3.create_body "app1"))))
     = ([GetProjectByAppId (JStr (js "app1")) (js "u1")],
        Normal (ErrorResponse jsstring jsstring "Project already exists for this app" 409))
  /\ forall appId u existing,
       In (GetProjectByAppId appId u) [GetProjectByAppId (JStr (js "app1")) (js "u1")] ->
       getProjectByAppId _ _ Sample3.service appId u = Normal (Some existing) ->
       [GetProjectByAppId (JStr (js "app1")) (js "u1")] = [GetProjectByAppId appId u]
       /\ Normal (ErrorResponse jsstring jsstring "Project already exists for this app" 409)
          = Normal (ErrorResponse _ _ "Project already exists for this app" 409).
Proof.
  assert (Hrun : runE (createProjectHandler jsstring jsstring Sample3.service
                         (Sample3.route_request (Some (js "u1")) None
                            (Normal (Sample3.create_body "app1"))))
                 = ([GetProjectByAppId (JStr (js "app1")) (js "u1")],
                    Normal (ErrorResponse jsstring jsstring
                              "Project already exists for this app" 409)))
    by (vm_compute; reflexivity).
  split; [vm_compute; reflexivity|]. split; [exact Hrun|].
  exact (proj2 (X18_create_only_when_absent jsstring jsstring (fun p => p)
                  Sample3.service _ _ _ Hrun)).
Defined.

(* ================================================================== *)
(** ** Project sessions *)

Module SessionsFacts.
Import Js Token Proxy Sessions JsFacts.
Local Open Scope string_scope.
Local Open Scope list_scope.
Local Open Scope Z_scope.

Lemma str_eqb_neq a b : a <> b -> str_eqb a b = false.
Proof.
  intros H. destruct (str_eqb a b) eqn:E; [|reflexivity].
  apply TokenMore.str_eqb_true in E. contradiction.
Qed.

Lemma str_eqb_false a b : str_eqb a b = false -> a <> b.
Proof. intros H ->. rewrite str_eqb_refl in H. discriminate. Qed.

(** Where [find] stops. *)
Lemma find_split {A} (f : A -> bool) l x :
  find f l = Some x ->
  exists l1 l2, l = l1 ++ x :: l2 /\ f x = true /\ Forall (fun y => f y = false) l1.
Proof.
  induction l as [|y l IH]; simpl; [discriminate|].
  destruct (f y) eqn:E.
  - intros H. inversion H; subst. exists [], l. auto.
  - intros H. destruct (IH H) as (l1 & l2 & -> & Hx & Hl1).
    exists (y :: l1), l2. auto.
Qed.

Lemma find_none_forall {A} (f : A -> bool) l :
  find f l = None -> Forall (fun y => f y = false) l.
Proof.
  induction l as [|y l IH]; simpl; [constructor|].
  destruct (f y) eqn:E; [discriminate|]. auto.
Qed.

Lemma find_app_skip {A} (f : A -> bool) l1 l2 :
  Forall (fun y => f y = false) l1 -> find f (l1 ++ l2) = find f l2.
Proof. induction 1 as [|y l Hy _ IH]; simpl; [reflexivity|]. now rewrite Hy. Qed.

Lemma find_app_none {A} (f : A -> bool) l1 l2 :
  Forall (fun y => f y = false) l2 -> find f (l1 ++ l2) = find f l1.
Proof.
  intros H. induction l1 as [|y l IH]; simpl.
  - induction H as [|z l2 Hz _ IH]; simpl; [reflexivity|]. now rewrite Hz.
  - now rewrite IH.
Qed.

Lemma find_replace {A} (f : A -> bool) l1 a b l2 :
  f a = false -> f b = false -> find f (l1 ++ a :: l2) = find f (l1 ++ b :: l2).
Proof.
  intros Ha Hb. induction l1 as [|y l IH]; cbn [app find].
  - now rewrite Ha, Hb.
  - now rewrite IH.
Qed.

Lemma filter_none {A} (f : A -> bool) l :
  Forall (fun y => f y = false) l -> filter f l = [].
Proof. induction 1 as [|y l Hy _ IH]; simpl; [reflexivity|]. now rewrite Hy. Qed.

Lemma map_unchanged {A} (g : A -> A) l :
  Forall (fun y => g y = y) l -> map g l = l.
Proof. induction 1 as [|y l Hy _ IH]; simpl; [reflexivity|]. now rewrite Hy, IH. Qed.

Lemma NoDup_snoc {A} (l : list A) x : NoDup l -> ~ In x l -> NoDup (l ++ [x]).
Proof.
  induction 1 as [|y l Hy Hl IH]; cbn [app]; intros Hx.
  - constructor; [intros []|constructor].
  - constructor.
    + rewrite in_app_iff. intros [H|[->|[]]]; [contradiction|].
      apply Hx. now left.
    + apply IH. intros H. apply Hx. now right.
Qed.

(** In a keyed table a row is the only one with its id. *)
Lemma keyed_split table l1 existing l2 :
  keyed table -> table = l1 ++ existing :: l2 ->
  Forall (fun r => str_eqb (id r) (id existing) = false) l1
  /\ Forall (fun r => str_eqb (id r) (id existing) = false) l2.
Proof.
  unfold keyed. intros Hk ->. rewrite map_app in Hk. cbn [map] in Hk.
  apply NoDup_remove_2 in Hk.
  split; rewrite Forall_forall; intros r Hr; apply str_eqb_neq; intros E;
    apply Hk, in_or_app; [left|right]; rewrite <- E; now apply in_map.
Qed.

(** The table after an update of the row found for the project. *)
Lemma update_shape table l1 existing l2 (g : ProjectSession -> ProjectSession) :
  keyed table -> table = l1 ++ existing :: l2 ->
  id (g existing) = id existing ->
  map (fun r => if str_eqb (id r) (id existing) then g r else r) table
    = l1 ++ g existing :: l2
  /\ filter (fun r => str_eqb (id r) (id existing)) (l1 ++ g existing :: l2)
    = [g existing].
Proof.
  intros Hk Ht Hid.
  destruct (keyed_split _ _ _ _ Hk Ht) as [H1 H2]. subst table.
  split.
  - rewrite map_app. cbn [map]. rewrite str_eqb_refl.
    rewrite !map_unchanged; [reflexivity|..].
    + eapply Forall_impl; [|exact H2]. intros r Hr. cbv beta. now rewrite Hr.
    + eapply Forall_impl; [|exact H1]. intros r Hr. cbv beta. now rewrite Hr.
  - rewrite filter_app. cbn [filter].
    rewrite Hid, str_eqb_refl.
    rewrite (filter_none _ l1), (filter_none _ l2); auto.
Qed.

Section Service.
Variable JSON_stringify : Json -> jsstring.
Variable handleDatabaseError : exn -> completion (option ProjectSession).
Variable refuses : ProjectSession -> option exn.

(** A save that went through either rewrote the project's one row in place
    or appended a row with a fresh id. *)
Lemma save_try_cases table project state now sessionId session table' :
  keyed table ->
  save_try JSON_stringify refuses table project state now sessionId
    = Normal (session, table') ->
  (exists l1 existing l2 f1 f2 f3 f4 f5,
      let row := updated JSON_stringify existing f1 f2 f3 f4 f5 now existing in
      table = l1 ++ existing :: l2 /\ table' = l1 ++ row :: l2
      /\ session = Some row
      /\ getProjectSession table project = Some existing
      /\ Forall (fun r => str_eqb (projectId r) project = false) l1
      /\ projectId existing = project
      /\ get_field state "unsavedChanges" = Normal f5)
  \/ (exists row,
        getProjectSession table project = None
        /\ table' = table ++ [row] /\ session = Some row
        /\ id row = sessionId /\ projectId row = project
        /\ lastSavedAt row = None
        /\ Forall (fun r => str_eqb (id r) sessionId = false) table).
Proof.
  intros Hk. unfold save_try.
  destruct (getProjectSession table project) as [existing|] eqn:Hfind;
    destruct (get_field state "openFiles") as [f1|e]; cbn [bind]; try discriminate;
    destruct (get_field state "activeFile") as [f2|e]; cbn [bind]; try discriminate;
    destruct (get_field state "cursorPosition") as [f3|e]; cbn [bind]; try discriminate;
    destruct (get_field state "scrollPosition") as [f4|e]; cbn [bind]; try discriminate;
    destruct (get_field state "unsavedChanges") as [f5|e]; cbn [bind]; try discriminate;
    cbv zeta.
  - destruct (refuses _); [discriminate|]. intros H. left.
    unfold getProjectSession in Hfind.
    destruct (find_split _ _ _ Hfind) as (l1 & l2 & Ht & Hp & Hl1).
    destruct (update_shape table l1 existing l2
                (updated JSON_stringify existing f1 f2 f3 f4 f5 now) Hk Ht eq_refl)
      as [Hmap Hfilter].
    rewrite Hmap, Hfilter in H. cbn [hd_error] in H.
    inversion H; subst session table'. clear H.
    apply TokenMore.str_eqb_true in Hp.
    exists l1, existing, l2, f1, f2, f3, f4, f5. cbv zeta.
    repeat match goal with |- _ /\ _ => split end; auto.
  - destruct (existsb (fun r => str_eqb (id r) sessionId) table) eqn:Hex;
      [discriminate|].
    destruct (refuses _); [discriminate|].
    intros H. inversion H; subst session table'. clear H.
    right. eexists.
    repeat match goal with |- _ /\ _ => split end; try reflexivity.
    rewrite Forall_forall. intros r Hr.
    destruct (str_eqb (id r) sessionId) eqn:E; [|reflexivity].
    assert (existsb (fun r => str_eqb (id r) sessionId) table = true); [|congruence].
    apply existsb_exists. eauto.
Qed.

(** A save either went through or left the table as it was. *)
Lemma save_cases table project state now sessionId result table' :
  saveProjectSession JSON_stringify handleDatabaseError refuses
    table project state now sessionId = (result, table') ->
  table' = table
  \/ exists session,
       save_try JSON_stringify refuses table project state now sessionId
         = Normal (session, table').
Proof.
  unfold saveProjectSession.
  destruct (save_try _ _ _ _ _ _ _) as [[session t]|e]; intros H; inversion H; eauto.
Qed.

(** The row a save that went through returns is the row read afterwards. *)
Lemma read_back table project state now sessionId session table' :
  keyed table ->
  save_try JSON_stringify refuses table project state now sessionId
    = Normal (session, table') ->
  session <> None /\ getProjectSession table' project = session.
Proof.
  intros Hk Htry.
  destruct (save_try_cases _ _ _ _ _ _ _ Hk Htry)
    as [(l1 & existing & l2 & f1 & f2 & f3 & f4 & f5 & Hc)
       |(row & Hnone & -> & -> & Hid & Hp & _ & Hfresh)].
  - cbv zeta in Hc. destruct Hc as (_ & -> & -> & _ & Hl1 & Hp & _).
    split; [discriminate|]. unfold getProjectSession.
    rewrite find_app_skip by exact Hl1.
    cbn [find updated projectId]. now rewrite Hp, str_eqb_refl.
  - split; [discriminate|]. unfold getProjectSession in *.
    rewrite find_app_skip by (apply find_none_forall; exact Hnone).
    cbn [find]. now rewrite Hp, str_eqb_refl.
Qed.

End Service.

End SessionsFacts.

Import Proxy Sessions.

(** X19. [saveProjectSession] keeps the session table well formed: if no
    two rows share an id and no project has two sessions, the same holds
    after the call, whatever the state saved and whether or not the
    database accepted the write. *)
Theorem X19_session_keys_preserved :
  forall JSON_stringify handleDatabaseError refuses
         table project state now sessionId result table',
    keyed table -> one_each table ->
    saveProjectSession JSON_stringify handleDatabaseError refuses
      table project state now sessionId = (result, table') ->
    keyed table' /\ one_each table'.
Proof.
  intros S H R table project state now sessionId result table' Hk Ho Hsave.
  destruct (SessionsFacts.save_cases _ _ _ _ _ _ _ _ _ _ Hsave) as [->|[session Htry]];
    [auto|].
  destruct (SessionsFacts.save_try_cases _ _ _ _ _ _ _ _ _ Hk Htry)
    as [(l1 & existing & l2 & f1 & f2 & f3 & f4 & f5 & Hc)
       |(row & Hnone & -> & _ & Hid & Hp & _ & Hfresh)].
  - cbv zeta in Hc. destruct Hc as (-> & -> & _).
    unfold keyed, one_each in *.
    rewrite !map_app in *. cbn [map updated id projectId] in *. auto.
  - unfold keyed, one_each in *.
    rewrite !map_app. cbn [map]. rewrite Hid, Hp.
    split; apply SessionsFacts.NoDup_snoc; auto;
      rewrite in_map_iff; intros (r & Er & Hr).
    + rewrite Forall_forall in Hfresh. specialize (Hfresh r Hr).
      rewrite Er, JsFacts.str_eqb_refl in Hfresh. discriminate.
    + apply SessionsFacts.find_none_forall in Hnone.
      rewrite Forall_forall in Hnone. specialize (Hnone r Hr). cbv beta in Hnone.
      rewrite Er, JsFacts.str_eqb_refl in Hnone. discriminate.
Qed.

Lemma X19_session_keys_preserved_witness :
  keyed Sample4.table /\ one_each Sample4.table
  /\ let after := snd (saveProjectSession Sample4.stringify Sample4.rethrow
                         Sample4.accepts_all Sample4.table (Js.js "p2")
                         Sample4.saved_state 1700000060000 (Js.js "s2")) in
     List.length after = 2%nat
     /\ keyed after /\ one_each after.
Proof.
  assert (Hk : keyed Sample4.table).
  { repeat constructor; simpl; tauto. }
  assert (Ho : one_each Sample4.table).
  { repeat constructor; simpl; tauto. }
  split; [exact Hk|]. split; [exact Ho|]. cbv zeta.
  split; [reflexivity|].
  exact (X19_session_keys_preserved Sample4.stringify Sample4.rethrow
           Sample4.accepts_all Sample4.table (Js.js "p2") Sample4.saved_state
           1700000060000 (Js.js "s2") _ _ Hk Ho (surjective_pairing _)).
Defined.

(** X20. Read after write: in a table where ids are unique, the row a
    save that went through returns is the row [getProjectSession] gives for
    that project afterwards; such a save never returns [undefined]. *)
Theorem X20_saved_session_read_back :
  forall JSON_stringify refuses table project state now sessionId session table',
    keyed table ->
    save_try JSON_stringify refuses table project state now sessionId
      = Normal (session, table') ->
    session <> None /\ getProjectSession table' project = session.
Proof.
  intros S R table project state now sessionId session table' Hk Htry.
  exact (SessionsFacts.read_back S R _ _ _ _ _ _ _ Hk Htry).
Qed.

Lemma X20_saved_session_read_back_witness :
  keyed Sample4.table
  /\ exists session table',
       save_try Sample4.stringify Sample4.accepts_all Sample4.table (Js.js "p1")
         Sample4.saved_state 1700000060000 (Js.js "s2") = Normal (session, table')
       /\ session <> None /\ getProjectSession table' (Js.js "p1") = session.
Proof.
  assert (Hk : keyed Sample4.table).
  { repeat constructor; simpl; tauto. }
  split; [exact Hk|]. eexists. eexists.
  split; [reflexivity|].
  exact (X20_saved_session_read_back Sample4.stringify Sample4.accepts_all
           Sample4.table (Js.js "p1") Sample4.saved_state 1700000060000
           (Js.js "s2") _ _ Hk eq_refl).
Defined.

(** X21. A save for one project never changes the session another project
    reads: for every other project id, [getProjectSession] gives the same
    row before and after, whether the save went through or failed. *)
Theorem X21_other_sessions_untouched :
  forall JSON_stringify handleDatabaseError refuses
         table project state now sessionId result table' other,
    keyed table ->
    other <> project ->
    saveProjectSession JSON_stringify handleDatabaseError refuses
      table project state now sessionId = (result, table') ->
    getProjectSession table' other = getProjectSession table other.
Proof.
  intros S H R table project state now sessionId result table' other Hk Hne Hsave.
  destruct (SessionsFacts.save_cases _ _ _ _ _ _ _ _ _ _ Hsave) as [->|[session Htry]];
    [reflexivity|].
  assert (Hp : Js.str_eqb project other = false).
  { apply SessionsFacts.str_eqb_neq. congruence. }
  destruct (SessionsFacts.save_try_cases _ _ _ _ _ _ _ _ _ Hk Htry)
    as [(l1 & existing & l2 & f1 & f2 & f3 & f4 & f5 & Hc)
       |(row & _ & -> & _ & _ & Hrow & _)].
  - cbv zeta in Hc. destruct Hc as (-> & -> & _ & _ & _ & He & _).
    unfold getProjectSession.
    apply SessionsFacts.find_replace; cbn [updated projectId]; now rewrite He.
  - unfold getProjectSession. apply SessionsFacts.find_app_none.
    constructor; [|constructor]. now rewrite Hrow.
Qed.

Lemma X21_other_sessions_untouched_witness :
  keyed Sample4.table /\ Js.js "p1" <> Js.js "p2"
  /\ getProjectSession
       (snd (saveProjectSession Sample4.stringify Sample4.rethrow
               Sample4.accepts_all Sample4.table (Js.js "p2")
               Sample4.saved_state 1700000060000 (Js.js "s2"))) (Js.js "p1")
     = getProjectSession Sample4.table (Js.js "p1").
Proof.
  assert (Hk : keyed Sample4.table).
  { repeat constructor; simpl; tauto. }
  assert (Hne : Js.js "p1" <> Js.js "p2") by discriminate.
  split; [exact Hk|]. split; [exact Hne|].
  exact (X21_other_sessions_untouched Sample4.stringify Sample4.rethrow
           Sample4.accepts_all Sample4.table (Js.js "p2") Sample4.saved_state
           1700000060000 (Js.js "s2") _ _ (Js.js "p1") Hk Hne
           (surjective_pairing _)).
Defined.

(** X22. [lastSavedAt] is written by updates only.  The save that creates a
    project's session leaves it null whatever the state says; a save over
    an existing session sets it to the time of the call when the state's
    [unsavedChanges] is exactly [false], and keeps the stored value
    otherwise. *)
Theorem X22_last_saved_rule :
  forall JSON_stringify refuses table project state now sessionId row table',
    keyed table ->
    save_try JSON_stringify refuses table project state now sessionId
      = Normal (Some row, table') ->
    match getProjectSession table project with
    | None => lastSavedAt row = None
    | Some existing =>
        (get_field state "unsavedChanges" = Normal (Some (JBool false))
         /\ lastSavedAt row = Some now)
        \/ (get_field state "unsavedChanges" <> Normal (Some (JBool false))
            /\ lastSavedAt row = lastSavedAt existing)
    end.
Proof.
  intros S R table project state now sessionId row table' Hk Htry.
  destruct (SessionsFacts.save_try_cases _ _ _ _ _ _ _ _ _ Hk Htry)
    as [(l1 & existing & l2 & f1 & f2 & f3 & f4 & f5 & Hc)
       |(row' & -> & _ & Hrow & _ & _ & Hlast & _)].
  - cbv zeta in Hc. destruct Hc as (_ & _ & Hrow & -> & _ & _ & ->).
    inversion Hrow; subst row. cbn [updated lastSavedAt].
    destruct f5 as [[| [|] | | | |]|];
      solve [left; split; reflexivity | right; split; [discriminate|reflexivity]].
  - inversion Hrow; subst. exact Hlast.
Qed.

Lemma X22_last_saved_rule_witness :
  keyed Sample4.table
  /\ exists row table',
       save_try Sample4.stringify Sample4.accepts_all Sample4.table (Js.js "p1")
         Sample4.saved_state 1700000060000 (Js.js "s2") = Normal (Some row, table')
       /\ lastSavedAt row = Some 1700000060000.
Proof.
  assert (Hk : keyed Sample4.table).
  { repeat constructor; simpl; tauto. }
  split; [exact Hk|]. eexists. eexists.
  split; [reflexivity|].
  destruct (X22_last_saved_rule Sample4.stringify Sample4.accepts_all
              Sample4.table (Js.js "p1") Sample4.saved_state 1700000060000
              (Js.js "s2") _ _ Hk eq_refl) as [[_ H]|[H _]].
  - exact H.
  - exfalso. apply H. reflexivity.
Defined.

(** X23. A state that names none of the five session properties only
    touches the session: over an existing session the save returns the
    stored row with [updatedAt] moved to the time of the call and every
    other column as it was, and that is the row read afterwards. *)
Theorem X23_empty_state_only_touches :
  forall JSON_stringify handleDatabaseError refuses
         table project state now sessionId existing,
    keyed table ->
    getProjectSession table project = Some existing ->
    (forall key, In key state_keys -> get_field state key = Normal None) ->
    refuses (touched now existing) = None ->
    let after := saveProjectSession JSON_stringify handleDatabaseError refuses
                   table project state now sessionId in
    fst after = Normal (Some (touched now existing))
    /\ getProjectSession (snd after) project = Some (touched now existing)
    /\ List.length (snd after) = List.length table.
Proof.
  intros S H R table project state now sessionId existing Hk Hfind Hkeys Hok after.
  assert (Htry : save_try S R table project state now sessionId
                 = Normal (Some (touched now existing),
                           map (fun r => if Js.str_eqb (id r) (id existing)
                                         then updated S existing None None None None None now r
                                         else r) table)).
  { unfold save_try. rewrite Hfind.
    rewrite !Hkeys by (cbn [In state_keys]; tauto).
    cbn [Token.bind]. cbv zeta.
    change (updated S existing None None None None None now existing)
      with (touched now existing).
    rewrite Hok. do 2 f_equal.
    destruct (SessionsFacts.find_split _ _ _ Hfind) as (l1 & l2 & Ht & _).
    destruct (SessionsFacts.update_shape table l1 existing l2
                (updated S existing None None None None None now) Hk Ht eq_refl)
      as [Hmap Hfilter].
    rewrite Hmap, Hfilter. reflexivity. }
  subst after. unfold saveProjectSession. rewrite Htry. cbn [fst snd].
  split; [reflexivity|]. split.
  - destruct (SessionsFacts.read_back S R _ _ _ _ _ _ _ Hk Htry) as [_ E].
    exact E.
  - apply length_map.
Qed.

Lemma X23_empty_state_only_touches_witness :
  keyed Sample4.table
  /\ getProjectSession Sample4.table (Js.js "p1") = Some Sample4.row
  /\ fst (saveProjectSession Sample4.stringify Sample4.rethrow Sample4.accepts_all
            Sample4.table (Js.js "p1") Sample4.empty_state 1700000060000
            (Js.js "s2"))
     = Normal (Some (touched 1700000060000 Sample4.row)).
Proof.
  assert (Hk : keyed Sample4.table).
  { repeat constructor; simpl; tauto. }
  split; [exact Hk|]. split; [reflexivity|].
  refine (proj1 (X23_empty_state_only_touches Sample4.stringify Sample4.rethrow
           Sample4.accepts_all Sample4.table (Js.js "p1") Sample4.empty_state
           1700000060000 (Js.js "s2") Sample4.row Hk eq_refl _ eq_refl)).
  intros key Hin. reflexivity.
Defined.
